(* ===================================================================== *)
(*  terraform-provider-ics: the catalog resolver, the order orchestrator, *)
(*  the provisioning poller and the two resource controllers, embedded    *)
(*  from internal/provider (client.go, the bare metal server resource     *)
(*  and ssh_key_resource.go).                                             *)
(*                                                                        *)
(*  Go values are modelled as follows.                                    *)
(*    int, int64        Z (every value comes from a JSON decode, so it    *)
(*                      is in range and the int/int64 conversions are     *)
(*                      the identity)                                     *)
(*    string            string, compared with decidable equality          *)
(*    []T               list T                                            *)
(*    map[string][]T    gmap string (list T)                              *)
(*    (T, error)        result T; an error is its message                 *)
(*    types.String ...  tfval: null, unknown or a known value             *)
(*    time.Time         Z, nanoseconds on one monotonic clock             *)
(*    time.Duration     Z, nanoseconds                                    *)
(*  The REST backend, the clock and sleeping are effects: every function  *)
(*  that performs them is a state transformer over a World, which holds   *)
(*  the clock and the trace of everything done so far. What the backend   *)
(*  answers is given by an Env, one answer per call of each endpoint.     *)
(* ===================================================================== *)

From Stdlib Require Import ZArith Lia.
From stdpp Require Import base option list strings gmap pretty.

Local Open Scope Z_scope.

(* --------------------------------------------------------------------- *)
(*  Errors and results                                                    *)
(* --------------------------------------------------------------------- *)

(* A Go error, observed through Error(). *)
Definition error := string.

Inductive result (A : Type) : Type :=
| Ok (a : A)
| Err (e : error).
Arguments Ok {A} a.
Arguments Err {A} e.

(* --------------------------------------------------------------------- *)
(*  fmt and strings                                                       *)
(* --------------------------------------------------------------------- *)

(* %d *)
Definition fmt_d (n : Z) : string := pretty n.

(* %v of a []string: the elements separated by one space, in brackets. *)
Fixpoint fmt_join (l : list string) : string :=
  match l with
  | [] => ""
  | [s] => s
  | s :: rest => s +:+ " " +:+ fmt_join rest
  end.

Definition fmt_v (l : list string) : string := "[" +:+ fmt_join l +:+ "]".

(* %v of a []int *)
Definition fmt_v_ints (l : list Z) : string := fmt_v (fmt_d <$> l).

Fixpoint strings_HasPrefix (s prefix : string) : bool :=
  match prefix, s with
  | EmptyString, _ => true
  | String c p, String d t => bool_decide (c = d) && strings_HasPrefix t p
  | String _ _, EmptyString => false
  end.

Fixpoint strings_Contains (s substr : string) : bool :=
  strings_HasPrefix s substr ||
  match s with
  | EmptyString => false
  | String _ t => strings_Contains t substr
  end.

(* --------------------------------------------------------------------- *)
(*  client.go: the data model                                             *)
(*  (floating-point descriptors are never inspected by the functions      *)
(*  embedded here and are left out of the records)                        *)
(* --------------------------------------------------------------------- *)

Module InventoryMetadata.
Record t := {
  Name : string;
  Description : string;
  Value : string
}.
End InventoryMetadata.

Module InventoryItem.
Record t := {
  SkuID : Z;
  Quantity : Z;
  AutoProvisionQuantity : Z;
  DatacenterID : Z;
  RegionID : Z;
  LocationCode : string;
  CPUBrand : string;
  CPUModel : string;
  CPUCores : Z;
  CPUCount : Z;
  TotalSSDSizeGB : Z;
  TotalHDDSizeGB : Z;
  TotalNVMESizeGB : Z;
  RAIDEnabled : bool;
  TotalRAMGB : Z;
  NICSpeedMbps : Z;
  QTProductID : Z;
  Status : string;
  Metadata : list InventoryMetadata.t;
  CurrencyCode : string;
  SkuProductName : string;
  Price : string;
  PriceHourly : string;
  HourlyEnabled : bool
}.
End InventoryItem.

Module Server.
Record t := {
  ID : string;
  Hostname : string;
  MacAddress : string;
  PublicIP : string;
  ServiceID : Z;
  ServiceDescription : string;
  PlanID : Z;
  DatacenterName : string;
  DatacenterID : Z;
  LocationID : Z;
  FriendlyName : string;
  Vendor : string;
  ServerType : string;
  BillHourly : bool;
  RootPassword : string
}.
End Server.

Module ServerOrderRequest.
Record t := {
  SkuProductName : string;
  Quantity : Z;
  LocationCode : string;
  OperatingSystemProductCode : string;
  Hostname : string;
  BillHourly : bool;
  SSHKeyIDs : list Z
}.
End ServerOrderRequest.

Module ServerOrderResponse.
Record t := {
  OrderServiceIDs : list Z
}.
End ServerOrderResponse.

Module OperatingSystemItem.
Record t := {
  Name : string;
  OSType : string;
  ProductCode : string;
  HourlyEnabled : bool
}.
End OperatingSystemItem.

Module OperatingSystemsAddon.
Record t := {
  Name : string;
  Required : string;
  Products : list OperatingSystemItem.t
}.
End OperatingSystemsAddon.

(* Licenses and support levels are decoded by the client but read by no
   function below; only the operating systems are kept. *)
Module AddonsResponse.
Record t := {
  OperatingSystems : OperatingSystemsAddon.t
}.
End AddonsResponse.

Module AssignedServer.
Record t := {
  ServerID : string;
  ServiceID : Z;
  Hostname : string;
  DatacenterName : string
}.
End AssignedServer.

Module SSHKey.
Record t := {
  ID : Z;
  Label : string;
  Key : string;
  CreatedAt : Z;
  UpdatedAt : Z;
  AssignedServers : list AssignedServer.t
}.
End SSHKey.

Module SSHKeyCreateRequest.
Record t := {
  PublicKey : string;
  Label : string
}.
End SSHKeyCreateRequest.

Module SSHKeyCreateResponse.
Record t := {
  ID : Z
}.
End SSHKeyCreateResponse.

(* --------------------------------------------------------------------- *)
(*  terraform-plugin-framework attribute values                           *)
(* --------------------------------------------------------------------- *)

Inductive tfval (A : Type) : Type :=
| Null
| Unknown
| Known (a : A).
Arguments Null {A}.
Arguments Unknown {A}.
Arguments Known {A} a.

Global Instance tfval_eq_dec {A} `{EqDecision A} : EqDecision (tfval A).
Proof. solve_decision. Defined.

Definition IsNull {A} (v : tfval A) : bool :=
  match v with Null => true | _ => false end.

Definition ValueString (v : tfval string) : string :=
  match v with Known s => s | _ => "" end.

Definition ValueInt64 (v : tfval Z) : Z :=
  match v with Known n => n | _ => 0 end.

Definition StringValue (s : string) : tfval string := Known s.
Definition Int64Value (n : Z) : tfval Z := Known n.

(* --------------------------------------------------------------------- *)
(*  The world: clock, trace, backend answers                              *)
(* --------------------------------------------------------------------- *)

Inductive Endpoint : Set :=
| ListInventory
| ListAddons
| SubmitOrder
| ListServers
| UpdateFriendlyName
| CreateCredential
| ListCredentials.

Global Instance Endpoint_eq_dec : EqDecision Endpoint.
Proof. solve_decision. Defined.

(* One request issued through makeRequest. *)
Inductive Call : Type :=
| GET_inventory
| GET_list_addons (sku_product_name location_code : string)
| POST_order (req : ServerOrderRequest.t)
| GET_servers
| PUT_friendly_name (id friendly_name : string)
| POST_ssh_keys (req : SSHKeyCreateRequest.t)
| GET_ssh_keys.

Definition route (c : Call) : Endpoint :=
  match c with
  | GET_inventory => ListInventory
  | GET_list_addons _ _ => ListAddons
  | POST_order _ => SubmitOrder
  | GET_servers => ListServers
  | PUT_friendly_name _ _ => UpdateFriendlyName
  | POST_ssh_keys _ => CreateCredential
  | GET_ssh_keys => ListCredentials
  end.

(* What happened, and the instant at which it started. *)
Inductive Event : Type :=
| EvCall (t : Z) (c : Call)
| EvSleep (t : Z) (d : Z)
| EvCtxPoll (t : Z) (done : bool).

Record World := {
  now : Z;
  trace : list Event          (* newest first *)
}.

Definition hits (ep : Endpoint) (e : Event) : bool :=
  match e with
  | EvCall _ c => bool_decide (route c = ep)
  | _ => false
  end.

(* How many requests of the trace went to an endpoint. *)
Definition calls_to (ep : Endpoint) (tr : list Event) : nat :=
  length (filter (λ e, hits ep e = true) tr).

(* The answers of the backend as the client's Get/Order/Create functions
   deliver them (transport, status check and decoding included): the k-th
   request to an endpoint gets the k-th answer. delay_at is the time the
   i-th event of a run takes beyond its nominal duration: the latency of a
   request, the oversleep of a sleep. *)
Record Env := {
  inventory_at : nat → result (list InventoryItem.t);
  addons_at : nat → string → string → result AddonsResponse.t;
  order_at : nat → ServerOrderRequest.t → result ServerOrderResponse.t;
  servers_at : nat → result (list Server.t);
  friendly_name_at : nat → string → string → option error;
  ssh_create_at : nat → SSHKeyCreateRequest.t → result SSHKeyCreateResponse.t;
  ssh_keys_at : nat → result (list SSHKey.t);
  delay_at : nat → N
}.

(* context.Context: cancelled from a given instant on, if ever. *)
Inductive ctxCause := Canceled | DeadlineExceeded.

Record Context := {
  cancelAt : option Z;
  cause : ctxCause
}.

Definition done_at (ctx : Context) (t : Z) : bool :=
  match cancelAt ctx with
  | Some c => bool_decide (c ≤ t)
  | None => false
  end.

Definition ctx_Err (ctx : Context) : error :=
  match cause ctx with
  | Canceled => "context canceled"
  | DeadlineExceeded => "context deadline exceeded"
  end.

(* --------------------------------------------------------------------- *)
(*  State passing                                                         *)
(* --------------------------------------------------------------------- *)

Definition M (A : Type) : Type := World → A * World.

Global Instance M_ret : MRet M := λ A a w, (a, w).
Global Instance M_bind : MBind M := λ A B f m w, let '(a, w') := m w in f a w'.

Definition time_Now : M Z := λ w, (now w, w).

Definition request (E : Env) (c : Call) : M nat := λ w,
  (calls_to (route c) (trace w),
   {| now := now w + Z.of_N (delay_at E (length (trace w)));
      trace := EvCall (now w) c :: trace w |}).

Definition time_Sleep (E : Env) (d : Z) : M unit := λ w,
  (tt,
   {| now := now w + Z.max 0 d + Z.of_N (delay_at E (length (trace w)));
      trace := EvSleep (now w) d :: trace w |}).

(* select { case <-ctx.Done(): ...; default: } *)
Definition ctx_Done (ctx : Context) : M bool := λ w,
  (done_at ctx (now w),
   {| now := now w; trace := EvCtxPoll (now w) (done_at ctx (now w)) :: trace w |}).

(* --------------------------------------------------------------------- *)
(*  client.go: the calls                                                  *)
(* --------------------------------------------------------------------- *)

Section Client.
Variable E : Env.

Definition GetInventory : M (result (list InventoryItem.t)) :=
  k ← request E GET_inventory; mret (inventory_at E k).

(* On success the returned pointer is never nil. *)
Definition OrderServer (req : ServerOrderRequest.t)
  : M (result (option ServerOrderResponse.t)) :=
  k ← request E (POST_order req);
  mret (match order_at E k req with
        | Ok r => Ok (Some r)
        | Err e => Err e
        end).

Definition GetServers : M (result (list Server.t)) :=
  k ← request E GET_servers; mret (servers_at E k).

Definition GetAddons (skuProductName locationCode : string)
  : M (result AddonsResponse.t) :=
  k ← request E (GET_list_addons skuProductName locationCode);
  mret (addons_at E k skuProductName locationCode).

Definition CreateSSHKey (req : SSHKeyCreateRequest.t)
  : M (result SSHKeyCreateResponse.t) :=
  k ← request E (POST_ssh_keys req); mret (ssh_create_at E k req).

Definition GetSSHKeys : M (result (list SSHKey.t)) :=
  k ← request E GET_ssh_keys; mret (ssh_keys_at E k).

Definition UpdateServerFriendlyName (serverID friendlyName : string)
  : M (option error) :=
  k ← request E (PUT_friendly_name serverID friendlyName);
  mret (friendly_name_at E k serverID friendlyName).

(* The loop of GetServerByServiceID. *)
Fixpoint scanServers (servers : list Server.t) (serviceID : Z) : option Server.t :=
  match servers with
  | [] => None
  | server :: rest =>
      if decide (Server.ServiceID server = serviceID) then Some server
      else scanServers rest serviceID
  end.

Definition GetServerByServiceID (serviceID : Z) : M (result Server.t) :=
  r ← GetServers;
  mret (match r with
        | Err err => Err err
        | Ok servers =>
            match scanServers servers serviceID with
            | Some server => Ok server
            | None => Err ("server with service ID " +:+ fmt_d serviceID +:+ " not found")
            end
        end).

(* The loop of FindSKUByProductName. *)
Fixpoint scanInventory (inventory : list InventoryItem.t)
    (productName locationCode : string) : option InventoryItem.t :=
  match inventory with
  | [] => None
  | item :: rest =>
      if decide (InventoryItem.SkuProductName item = productName) then
        if decide (locationCode ≠ "" ∧ InventoryItem.LocationCode item ≠ locationCode)
        then scanInventory rest productName locationCode
        else if decide (InventoryItem.AutoProvisionQuantity item > 0) then Some item
        else scanInventory rest productName locationCode
      else scanInventory rest productName locationCode
  end.

Definition skuNotFound (productName locationCode : string) : error :=
  if decide (locationCode ≠ "")
  then "SKU '" +:+ productName +:+ "' not found with auto provision inventory in location '"
       +:+ locationCode +:+ "'"
  else "SKU '" +:+ productName +:+ "' not found with auto provision inventory".

Definition FindSKUByProductName (productName locationCode : string)
  : M (result InventoryItem.t) :=
  r ← GetInventory;
  mret (match r with
        | Err err => Err ("failed to get inventory: " +:+ err)
        | Ok inventory =>
            match scanInventory inventory productName locationCode with
            | Some item => Ok item
            | None => Err (skuNotFound productName locationCode)
            end
        end).

(* The loop of GetSSHKeyByLabel. *)
Fixpoint scanSSHKeys (sshKeys : list SSHKey.t) (label : string) : option SSHKey.t :=
  match sshKeys with
  | [] => None
  | key :: rest =>
      if decide (SSHKey.Label key = label) then Some key
      else scanSSHKeys rest label
  end.

Definition GetSSHKeyByLabel (label : string) : M (result SSHKey.t) :=
  r ← GetSSHKeys;
  mret (match r with
        | Err err => Err ("failed to get SSH keys: " +:+ err)
        | Ok sshKeys =>
            match scanSSHKeys sshKeys label with
            | Some key => Ok key
            | None => Err ("SSH key with label '" +:+ label +:+ "' not found")
            end
        end).

End Client.

(* --------------------------------------------------------------------- *)
(*  Diagnostics and responses of the plugin framework                     *)
(* --------------------------------------------------------------------- *)

Inductive Severity := SeverityError | SeverityWarning.

Record Diagnostic := {
  severity : Severity;
  Summary : string;
  Detail : string
}.

Definition ErrorDiagnostic (summary detail : string) : Diagnostic :=
  {| severity := SeverityError; Summary := summary; Detail := detail |}.

Definition WarningDiagnostic (summary detail : string) : Diagnostic :=
  {| severity := SeverityWarning; Summary := summary; Detail := detail |}.

Definition isError (d : Diagnostic) : bool :=
  match severity d with SeverityError => true | SeverityWarning => false end.

Definition HasError (ds : list Diagnostic) : bool := existsb isError ds.

(* What a Create or Read call leaves in its response: the diagnostics in
   the order they were added, and the state if State.Set was reached. *)
Record Response (S : Type) := {
  Diagnostics : list Diagnostic;
  State : option S
}.
Arguments Diagnostics {S} r.
Arguments State {S} r.

Definition failed {S} (ds : list Diagnostic) : Response S :=
  {| Diagnostics := ds; State := None |}.

Definition time_Second : Z := 1000000000.
Definition time_Minute : Z := 60 * time_Second.

Definition nl : string := String (Ascii.ascii_of_nat 10) "".

(* --------------------------------------------------------------------- *)
(*  The bare metal server resource                                        *)
(* --------------------------------------------------------------------- *)

Module BareMetalServerResourceModel.
Record t := {
  ID : tfval string;
  InstanceType : tfval string;
  Location : tfval string;
  OperatingSystem : tfval string;
  Hostname : tfval string;
  FriendlyName : tfval string;
  SSHKeyLabels : tfval (list string);
  ServiceID : tfval Z;
  PublicIP : tfval string;
  RootPassword : tfval string;
  ServiceDescription : tfval string;
  PlanID : tfval Z;
  DatacenterName : tfval string;
  DatacenterID : tfval Z;
  LocationID : tfval Z;
  ServerTypeInternal : tfval string
}.
End BareMetalServerResourceModel.

Module BareMetalServerResource.
Import BareMetalServerResourceModel.

(* Create, "Find available alternatives": the three suggestion lists. *)
Record Alternatives := {
  availableTypes : list string;
  availableLocations : list string;
  typeLocationMap : gmap string (list string)
}.

Definition noAlternatives : Alternatives :=
  {| availableTypes := []; availableLocations := []; typeLocationMap := ∅ |}.

(* One round of the loop over the inventory. A missing key reads as nil. *)
Definition alternativesStep (instanceType location : string)
    (acc : Alternatives) (item : InventoryItem.t) : Alternatives :=
  if decide (InventoryItem.AutoProvisionQuantity item > 0) then
    let availableLocations' :=
      if decide (InventoryItem.SkuProductName item = instanceType)
      then availableLocations acc ++ [InventoryItem.LocationCode item]
      else availableLocations acc in
    let availableTypes' :=
      if decide (InventoryItem.LocationCode item = location)
      then availableTypes acc ++ [InventoryItem.SkuProductName item]
      else availableTypes acc in
    let m := typeLocationMap acc in
    let m1 :=
      match m !! InventoryItem.SkuProductName item with
      | None => <[InventoryItem.SkuProductName item := []]> m
      | Some _ => m
      end in
    let m2 :=
      <[InventoryItem.SkuProductName item :=
          default [] (m1 !! InventoryItem.SkuProductName item)
          ++ [InventoryItem.LocationCode item]]> m1 in
    {| availableTypes := availableTypes';
       availableLocations := availableLocations';
       typeLocationMap := m2 |}
  else acc.

Definition findAlternatives (inventory : list InventoryItem.t)
    (instanceType location : string) : Alternatives :=
  foldl (alternativesStep instanceType location) noAlternatives inventory.

(* The message built from the lists. Go ranges over a map in an
   unspecified order; the lines of the combinations are rendered here in
   the order of map_to_list. *)
Definition invalidCombinationMsg (instanceType location : string)
    (alt : Alternatives) : string :=
  let errorMsg :=
    "Instance type '" +:+ instanceType +:+ "' is not available in location '"
    +:+ location +:+ "'" in
  let errorMsg :=
    if decide (0 < length (availableTypes alt))%nat
    then errorMsg +:+ nl +:+ nl +:+ "Available instance types in location '"
         +:+ location +:+ "': " +:+ fmt_v (availableTypes alt)
    else errorMsg in
  let errorMsg :=
    if decide (0 < length (availableLocations alt))%nat
    then errorMsg +:+ nl +:+ nl +:+ "Available locations for instance type '"
         +:+ instanceType +:+ "': " +:+ fmt_v (availableLocations alt)
    else errorMsg in
  if decide (0 < size (typeLocationMap alt))%nat
  then foldl (λ msg '(iType, locs), msg +:+ nl +:+ "  " +:+ iType +:+ ": " +:+ fmt_v locs)
             (errorMsg +:+ nl +:+ nl +:+ "All available combinations with inventory:")
             (map_to_list (typeLocationMap alt))
  else errorMsg.

(* Create, step 2: the loop over the operating systems. It returns the
   match, if any, and the names seen up to the break. *)
Fixpoint selectOS (products : list OperatingSystemItem.t) (osName : string)
    (availableOSNames : list string)
  : option OperatingSystemItem.t * list string :=
  match products with
  | [] => (None, availableOSNames)
  | osOption :: rest =>
      let availableOSNames := availableOSNames ++ [OperatingSystemItem.Name osOption] in
      if decide (OperatingSystemItem.Name osOption = osName)
      then (Some osOption, availableOSNames)
      else selectOS rest osName availableOSNames
  end.

(* Create, "convert to SSH key IDs": the loop over the labels. An error
   carries the label that failed and the error of the lookup. *)
Fixpoint resolveSSHKeyIDs (E : Env) (sshKeyLabels : list string) (sshKeyIDs : list Z)
  : M (list Z + string * error) :=
  match sshKeyLabels with
  | [] => mret (inl sshKeyIDs)
  | label :: rest =>
      r ← GetSSHKeyByLabel E label;
      match r with
      | Err err => mret (inr (label, err))
      | Ok sshKey => resolveSSHKeyIDs E rest (sshKeyIDs ++ [SSHKey.ID sshKey])
      end
  end.

Definition timeoutError (serviceID : Z) : error :=
  "timeout waiting for server with service ID " +:+ fmt_d serviceID
  +:+ " to be provisioned".

(* The loop of waitForServerProvisioning. Every round that goes on sleeps
   for 30 seconds, so the rounds are bounded by the time left to the
   deadline; fuel counts the rounds and None says that it ran out. *)
Fixpoint waitLoop (E : Env) (fuel : nat) (ctx : Context) (serviceID : Z)
    (deadline : Z) : M (option (result Server.t)) :=
  match fuel with
  | O => mret None
  | S fuel' =>
      t ← time_Now;
      if decide (t < deadline) then
        done ← ctx_Done ctx;
        if done : bool then mret (Some (Err (ctx_Err ctx)))
        else
          r ← GetServerByServiceID E serviceID;
          match r with
          | Ok server => mret (Some (Ok server))
          | Err _ =>
              _ ← time_Sleep E (30 * time_Second);
              waitLoop E fuel' ctx serviceID deadline
          end
      else mret (Some (Err (timeoutError serviceID)))
  end.

(* Rounds that a wait of the given length can take at most, plus the
   final test of the loop condition. *)
Definition waitRounds (timeout : Z) : nat :=
  S (S (Z.to_nat (timeout / (30 * time_Second)))).

Definition waitForServerProvisioning (E : Env) (ctx : Context) (serviceID : Z)
    (timeout : Z) : M (result Server.t) :=
  t0 ← time_Now;
  r ← waitLoop E (waitRounds timeout) ctx serviceID (t0 + timeout);
  mret (match r with
        | Some r => r
        | None => Err (timeoutError serviceID)
        end).

Definition updateModelFromServer (data : t) (server : Server.t) : t :=
  {| ID := StringValue (Server.ID server);
     InstanceType := InstanceType data;
     Location := Location data;
     OperatingSystem := OperatingSystem data;
     Hostname :=
       if IsNull (Hostname data) && negb (bool_decide (Server.Hostname server = ""))
       then StringValue (Server.Hostname server)
       else Hostname data;
     FriendlyName :=
       if IsNull (FriendlyName data) && negb (bool_decide (Server.FriendlyName server = ""))
       then StringValue (Server.FriendlyName server)
       else FriendlyName data;
     SSHKeyLabels := SSHKeyLabels data;
     ServiceID := Int64Value (Server.ServiceID server);
     PublicIP := StringValue (Server.PublicIP server);
     RootPassword := StringValue (Server.RootPassword server);
     ServiceDescription := StringValue (Server.ServiceDescription server);
     PlanID := Int64Value (Server.PlanID server);
     DatacenterName := StringValue (Server.DatacenterName server);
     DatacenterID := Int64Value (Server.DatacenterID server);
     LocationID := Int64Value (Server.LocationID server);
     ServerTypeInternal := StringValue (Server.ServerType server) |}.

(* Create from "Update friendly name if specified" on: the server is
   there. A failed update of the friendly name is a warning. *)
Definition finishCreate (E : Env) (data : t) (server : Server.t) : M (Response t) :=
  warnings ←
    (if negb (IsNull (FriendlyName data)) then
       e ← UpdateServerFriendlyName E (Server.ID server)
             (ValueString (FriendlyName data));
       mret (match e with
             | Some err =>
                 [WarningDiagnostic "Friendly Name Update Failed"
                    ("Server was provisioned successfully but failed to set friendly name: "
                     +:+ err)]
             | None => []
             end)
     else mret []);
  mret {| Diagnostics := warnings;
          State := Some (updateModelFromServer data server) |}.

Definition provisioningTimeout (serviceID : Z) (err : error) : Diagnostic :=
  ErrorDiagnostic "Server Provisioning Timeout"
    ("Server was ordered (service ID: " +:+ fmt_d serviceID
     +:+ ") but provisioning did not complete within 30 minutes: "
     +:+ err +:+ nl +:+ nl
     +:+ "You can check the provisioning status in the ICS control panel or try running 'terraform refresh' later.").

(* Create from "Wait for server to be provisioned" on. *)
Definition awaitServer (E : Env) (ctx : Context) (data : t) (serviceID : Z)
  : M (Response t) :=
  r ← waitForServerProvisioning E ctx serviceID (30 * time_Minute);
  match r with
  | Err err => mret (failed [provisioningTimeout serviceID err])
  | Ok server => finishCreate E data server
  end.

Definition orderFailed (err : error) : Diagnostic :=
  if strings_Contains err "context deadline exceeded"
     || strings_Contains err "Client.Timeout exceeded"
  then ErrorDiagnostic "Server Order Timeout"
         ("The server order request timed out, but the order may have been successful. Please check the ICS control panel for any pending orders, or try running 'terraform refresh' to check if a server was created. Error: " +:+ err)
  else ErrorDiagnostic "Server Order Failed" ("Unable to order server: " +:+ err).

Definition noServiceIDs (orderResp : ServerOrderResponse.t) : Diagnostic :=
  ErrorDiagnostic "Server Order Failed"
    ("No service IDs returned from server order. Response: &{OrderServiceIDs:"
     +:+ fmt_v_ints (ServerOrderResponse.OrderServiceIDs orderResp) +:+ "}").

(* Create from "Order the server" on. *)
Definition orderAndProvision (E : Env) (ctx : Context) (data : t)
    (orderReq : ServerOrderRequest.t) : M (Response t) :=
  r ← OrderServer E orderReq;
  match r with
  | Err err => mret (failed [orderFailed err])
  | Ok None =>
      mret (failed [ErrorDiagnostic "Server Order Failed"
             "Order response is nil - this indicates an API parsing issue"])
  | Ok (Some orderResp) =>
      match ServerOrderResponse.OrderServiceIDs orderResp with
      | [] => mret (failed [noServiceIDs orderResp])
      | serviceID :: _ => awaitServer E ctx data serviceID
      end
  end.

(* The order request before the SSH keys are added. *)
Definition baseOrder (data : t) (instanceType location : string)
    (os : OperatingSystemItem.t) : ServerOrderRequest.t :=
  {| ServerOrderRequest.SkuProductName := instanceType;
     ServerOrderRequest.Quantity := 1;
     ServerOrderRequest.LocationCode := location;
     ServerOrderRequest.OperatingSystemProductCode := OperatingSystemItem.ProductCode os;
     ServerOrderRequest.Hostname :=
       if negb (IsNull (Hostname data)) then ValueString (Hostname data) else "";
     ServerOrderRequest.BillHourly := true;
     ServerOrderRequest.SSHKeyIDs := [] |}.

(* orderReq.SSHKeyIDs = sshKeyIDs *)
Definition withSSHKeyIDs (orderReq : ServerOrderRequest.t) (sshKeyIDs : list Z)
  : ServerOrderRequest.t :=
  {| ServerOrderRequest.SkuProductName := ServerOrderRequest.SkuProductName orderReq;
     ServerOrderRequest.Quantity := ServerOrderRequest.Quantity orderReq;
     ServerOrderRequest.LocationCode := ServerOrderRequest.LocationCode orderReq;
     ServerOrderRequest.OperatingSystemProductCode :=
       ServerOrderRequest.OperatingSystemProductCode orderReq;
     ServerOrderRequest.Hostname := ServerOrderRequest.Hostname orderReq;
     ServerOrderRequest.BillHourly := ServerOrderRequest.BillHourly orderReq;
     ServerOrderRequest.SSHKeyIDs := sshKeyIDs |}.

Definition sshKeyNotFound (label : string) (err : error) : Diagnostic :=
  ErrorDiagnostic "SSH Key Not Found"
    ("SSH key with label '" +:+ label
     +:+ "' not found. Please ensure the SSH key exists before ordering the server. Error: "
     +:+ err).

(* What ElementsAs reports for a list that cannot be read into []string.
   The wording is the framework's and is not in this repository; this
   stands for it. *)
Definition elementsAsError : Diagnostic :=
  ErrorDiagnostic "Value Conversion Error"
    "Received unknown value, however the target type cannot handle unknown values.".

(* Create once both validations have passed: the order request, the SSH
   keys, the order. The elements of a known list are known strings here;
   an unknown list stops Create with the diagnostic of ElementsAs. *)
Definition submitOrder (E : Env) (ctx : Context) (data : t)
    (instanceType location : string) (os : OperatingSystemItem.t) : M (Response t) :=
  let orderReq := baseOrder data instanceType location os in
  match SSHKeyLabels data with
  | Null => orderAndProvision E ctx data orderReq
  | Unknown => mret (failed [elementsAsError])
  | Known sshKeyLabels =>
      r ← resolveSSHKeyIDs E sshKeyLabels [];
      match r with
      | inr (label, err) => mret (failed [sshKeyNotFound label err])
      | inl sshKeyIDs =>
          orderAndProvision E ctx data
            (if decide (0 < length sshKeyIDs)%nat
             then withSSHKeyIDs orderReq sshKeyIDs
             else orderReq)
      end
  end.

(* Create. data is the plan as read into the model. *)
Definition Create (E : Env) (ctx : Context) (data : t) : M (Response t) :=
  let instanceType := ValueString (InstanceType data) in
  let location := ValueString (Location data) in
  let osName := ValueString (OperatingSystem data) in
  r ← FindSKUByProductName E instanceType location;
  match r with
  | Err err =>
      inv ← GetInventory E;
      match inv with
      | Err invErr =>
          mret (failed [ErrorDiagnostic "Instance Type or Location Invalid"
                 ("Unable to validate instance type '" +:+ instanceType
                  +:+ "' in location '" +:+ location +:+ "': " +:+ err)])
      | Ok inventory =>
          mret (failed [ErrorDiagnostic "Invalid Instance Type and Location Combination"
                 (invalidCombinationMsg instanceType location
                    (findAlternatives inventory instanceType location))])
      end
  | Ok sku =>
      a ← GetAddons E instanceType location;
      match a with
      | Err osErr =>
          mret (failed [ErrorDiagnostic "Unable to Retrieve Operating System Options"
                 ("Unable to get available operating systems for instance type '"
                  +:+ instanceType +:+ "' in location '" +:+ location +:+ "': " +:+ osErr)])
      | Ok addons =>
          match selectOS (OperatingSystemsAddon.Products (AddonsResponse.OperatingSystems addons))
                         osName [] with
          | (None, availableOSNames) =>
              mret (failed [ErrorDiagnostic "Invalid Operating System"
                     ("Operating system '" +:+ osName
                      +:+ "' is not available for instance type '" +:+ instanceType
                      +:+ "' in location '" +:+ location +:+ "'" +:+ nl +:+ nl
                      +:+ "Available operating systems: " +:+ fmt_v availableOSNames)])
          | (Some os, _) => submitOrder E ctx data instanceType location os
          end
      end
  end.

(* Read. data is the prior state as read into the model. *)
Definition Read (E : Env) (data : t) : M (Response t) :=
  let serviceID := ValueInt64 (ServiceID data) in
  r ← GetServerByServiceID E serviceID;
  match r with
  | Err err =>
      mret (failed [ErrorDiagnostic "Client Error"
             ("Unable to read server with service ID " +:+ fmt_d serviceID
              +:+ ", got error: " +:+ err)])
  | Ok server =>
      mret {| Diagnostics := []; State := Some (updateModelFromServer data server) |}
  end.

End BareMetalServerResource.

(* --------------------------------------------------------------------- *)
(*  The SSH key resource                                                  *)
(* --------------------------------------------------------------------- *)

Module SSHKeyResourceModel.
Record t := {
  ID : tfval Z;
  Label : tfval string;
  PublicKey : tfval string;
  CreatedAt : tfval Z;
  UpdatedAt : tfval Z
}.
End SSHKeyResourceModel.

Module SSHKeyResource.
Import SSHKeyResourceModel.

Definition updateModelFromSSHKey (data : t) (sshKey : SSHKey.t) : t :=
  {| ID := Int64Value (SSHKey.ID sshKey);
     Label := StringValue (SSHKey.Label sshKey);
     PublicKey := StringValue (SSHKey.Key sshKey);
     CreatedAt := Int64Value (SSHKey.CreatedAt sshKey);
     UpdatedAt := Int64Value (SSHKey.UpdatedAt sshKey) |}.

Definition Create (E : Env) (data : t) : M (Response t) :=
  let label := ValueString (Label data) in
  let publicKey := ValueString (PublicKey data) in
  let createReq :=
    {| SSHKeyCreateRequest.Label := label;
       SSHKeyCreateRequest.PublicKey := publicKey |} in
  r ← CreateSSHKey E createReq;
  match r with
  | Err err =>
      mret (failed [ErrorDiagnostic "SSH Key Creation Failed"
             ("Unable to create SSH key: " +:+ err)])
  | Ok _ =>
      k ← GetSSHKeyByLabel E label;
      match k with
      | Err err =>
          mret (failed [ErrorDiagnostic "SSH Key Retrieval Failed"
                 ("SSH key created but unable to retrieve details: " +:+ err)])
      | Ok sshKey =>
          mret {| Diagnostics := []; State := Some (updateModelFromSSHKey data sshKey) |}
      end
  end.

End SSHKeyResource.

(* ===================================================================== *)
(*  Further functions of the provider                                     *)
(* ===================================================================== *)

(* --------------------------------------------------------------------- *)
(*  client.go: GetOperatingSystemByName                                   *)
(* --------------------------------------------------------------------- *)

(* The loop of GetOperatingSystemByName. *)
Fixpoint scanOperatingSystems (products : list OperatingSystemItem.t)
    (osName : string) : option OperatingSystemItem.t :=
  match products with
  | [] => None
  | os :: rest =>
      if decide (OperatingSystemItem.Name os = osName) then Some os
      else scanOperatingSystems rest osName
  end.

Definition GetOperatingSystemByName (E : Env)
    (skuProductName locationCode osName : string)
  : M (result OperatingSystemItem.t) :=
  r ← GetAddons E skuProductName locationCode;
  mret (match r with
        | Err err => Err ("failed to get addons: " +:+ err)
        | Ok addons =>
            match scanOperatingSystems
                    (OperatingSystemsAddon.Products (AddonsResponse.OperatingSystems addons))
                    osName with
            | Some os => Ok os
            | None =>
                Err ("operating system '" +:+ osName +:+ "' not found for SKU '"
                     +:+ skuProductName +:+ "' in location '" +:+ locationCode +:+ "'")
            end
        end).

(* --------------------------------------------------------------------- *)
(*  strconv.Atoi                                                          *)
(* --------------------------------------------------------------------- *)

(* ch - '0', when it is a decimal digit *)
Definition digitValue (ch : Ascii.ascii) : option Z :=
  let n := Z.of_nat (Ascii.nat_of_ascii ch) in
  if decide (48 ≤ n ≤ 57) then Some (n - 48) else None.

Fixpoint parseDigits (n : Z) (s : string) : option Z :=
  match s with
  | EmptyString => Some n
  | String ch rest =>
      match digitValue ch with
      | Some d => parseDigits (n * 10 + d) rest
      | None => None
      end
  end.

(* '-' and '+' *)
Definition minusSign : Ascii.ascii := Ascii.ascii_of_nat 45.
Definition plusSign : Ascii.ascii := Ascii.ascii_of_nat 43.

(* Atoi is ParseInt(s, 10, 0): an optional sign and at least one decimal
   digit, nothing else, and a value that fits an int of 64 bits. The error
   is not inspected by its caller and is left out. *)
Definition strconv_Atoi (s : string) : option Z :=
  let '(neg, digits) :=
    match s with
    | String ch rest =>
        if decide (ch = minusSign) then (true, rest)
        else if decide (ch = plusSign) then (false, rest)
        else (false, s)
    | EmptyString => (false, s)
    end in
  match digits with
  | EmptyString => None
  | _ =>
      match parseDigits 0 digits with
      | None => None
      | Some n =>
          let v := if neg : bool then - n else n in
          if decide (- 2 ^ 63 ≤ v < 2 ^ 63) then Some v else None
      end
  end.

(* --------------------------------------------------------------------- *)
(*  The bare metal server resource: Update and ImportState                *)
(* --------------------------------------------------------------------- *)

Module BareMetalServerLifecycle.
Import BareMetalServerResourceModel.

Definition replacementWarning : Diagnostic :=
  WarningDiagnostic "Update Requires Replacement"
    "Changes to instance_type, location, operating_system, hostname, or ssh_key_labels require resource replacement. Please destroy and recreate the resource.".

(* "For other changes, require replacement": the condition. *)
Definition requiresReplacement (plan state : t) : bool :=
  negb (bool_decide (InstanceType plan = InstanceType state))
  || negb (bool_decide (Location plan = Location state))
  || negb (bool_decide (OperatingSystem plan = OperatingSystem state))
  || negb (bool_decide (Hostname plan = Hostname state))
  || negb (bool_decide (SSHKeyLabels plan = SSHKeyLabels state)).

(* Update. plan and state are the plan and the prior state as read into
   the model; State of the response is what State.Set was given. *)
Definition Update (E : Env) (plan state : t) : M (Response t) :=
  e ← (if negb (bool_decide (FriendlyName plan = FriendlyName state))
          && negb (IsNull (FriendlyName plan))
       then UpdateServerFriendlyName E (ValueString (ID state))
              (ValueString (FriendlyName plan))
       else mret None);
  match e with
  | Some err =>
      mret (failed [ErrorDiagnostic "Friendly Name Update Failed"
             ("Unable to update server friendly name: " +:+ err)])
  | None =>
      mret {| Diagnostics :=
                if requiresReplacement plan state then [replacementWarning] else [];
              State := Some plan |}
  end.

(* var data BareMetalServerResourceModel: every attribute is the zero value
   of its type, a null. *)
Definition zeroModel : t :=
  {| ID := Null; InstanceType := Null; Location := Null; OperatingSystem := Null;
     Hostname := Null; FriendlyName := Null; SSHKeyLabels := Null;
     ServiceID := Null; PublicIP := Null; RootPassword := Null;
     ServiceDescription := Null; PlanID := Null; DatacenterName := Null;
     DatacenterID := Null; LocationID := Null; ServerTypeInternal := Null |}.

(* The element type that the types.List of ssh_key_labels carries. A list
   read from a plan or a state carries that of the schema, types.StringType;
   the zero value of types.List carries none. *)
Inductive ElementType := StringType | MissingType.

(* What State.Set reports for a model whose ssh_key_labels carries no
   element type, where the schema has a list of strings. The wording is
   the framework's and is not in this repository; this stands for it. *)
Definition valueConversionError : Diagnostic :=
  ErrorDiagnostic "Value Conversion Error"
    "An unexpected error was encountered trying to convert from value. Expected a list of types.StringType, received a list without element type.".

(* resp.State.Set(ctx, &data), by the element type of the model's
   ssh_key_labels: the model is stored when it is the schema's, and
   refused otherwise. *)
Definition State_Set (sshKeyLabelsType : ElementType) (data : t) : Response t :=
  match sshKeyLabelsType with
  | StringType => {| Diagnostics := []; State := Some data |}
  | MissingType => failed [valueConversionError]
  end.

(* ImportState. id is req.ID. The model handed to State.Set is the zero
   model updated from the server; updateModelFromServer does not assign
   ssh_key_labels, which is still the zero value of types.List. *)
Definition ImportState (E : Env) (id : string) : M (Response t) :=
  match strconv_Atoi id with
  | None =>
      mret (failed [ErrorDiagnostic "Import Error"
             ("Invalid service ID format: " +:+ id)])
  | Some serviceID =>
      r ← GetServerByServiceID E serviceID;
      match r with
      | Err err =>
          mret (failed [ErrorDiagnostic "Import Error"
                 ("Unable to find server with service ID " +:+ fmt_d serviceID
                  +:+ ": " +:+ err)])
      | Ok server =>
          mret (State_Set MissingType
                  (BareMetalServerResource.updateModelFromServer zeroModel server))
      end
  end.

End BareMetalServerLifecycle.

(* --------------------------------------------------------------------- *)
(*  The SSH key resource: Read, Update and ImportState                    *)
(* --------------------------------------------------------------------- *)

Module SSHKeyLifecycle.
Import SSHKeyResourceModel.

Definition Read (E : Env) (data : t) : M (Response t) :=
  let label := ValueString (Label data) in
  k ← GetSSHKeyByLabel E label;
  match k with
  | Err err =>
      mret (failed [ErrorDiagnostic "Client Error"
             ("Unable to read SSH key with label '" +:+ label
              +:+ "', got error: " +:+ err)])
  | Ok sshKey =>
      mret {| Diagnostics := [];
              State := Some (SSHKeyResource.updateModelFromSSHKey data sshKey) |}
  end.

(* Update issues no request: the plan is stored under a warning. *)
Definition Update (data : t) : M (Response t) :=
  mret {| Diagnostics :=
            [WarningDiagnostic "Update Not Supported"
               "SSH key changes require replacement. Please destroy and recreate the resource."];
          State := Some data |}.

Definition zeroModel : t :=
  {| ID := Null; Label := Null; PublicKey := Null;
     CreatedAt := Null; UpdatedAt := Null |}.

Definition ImportState (E : Env) (label : string) : M (Response t) :=
  k ← GetSSHKeyByLabel E label;
  match k with
  | Err err =>
      mret (failed [ErrorDiagnostic "Import Error"
             ("Unable to find SSH key with label '" +:+ label +:+ "': " +:+ err)])
  | Ok sshKey =>
      mret {| Diagnostics := [];
              State := Some (SSHKeyResource.updateModelFromSSHKey zeroModel sshKey) |}
  end.

End SSHKeyLifecycle.

(* --------------------------------------------------------------------- *)
(*  The data sources                                                      *)
(* --------------------------------------------------------------------- *)

Module InventoryDataSource.

Record InventoryMetadataModel := {
  Name : tfval string;
  Description : tfval string;
  Value : tfval string
}.

Record InventoryItemModel := {
  SkuID : tfval Z;
  Quantity : tfval Z;
  AutoProvisionQuantity : tfval Z;
  DatacenterID : tfval Z;
  RegionID : tfval Z;
  LocationCode : tfval string;
  CPUBrand : tfval string;
  CPUModel : tfval string;
  CPUCores : tfval Z;
  CPUCount : tfval Z;
  TotalSSDSizeGB : tfval Z;
  TotalHDDSizeGB : tfval Z;
  TotalNVMESizeGB : tfval Z;
  RAIDEnabled : tfval bool;
  TotalRAMGB : tfval Z;
  NICSpeedMbps : tfval Z;
  QTProductID : tfval Z;
  Status : tfval string;
  Metadata : list InventoryMetadataModel;
  CurrencyCode : tfval string;
  SkuProductName : tfval string;
  Price : tfval string;
  PriceHourly : tfval string;
  HourlyEnabled : tfval bool
}.

Record InventoryDataSourceModel := {
  Items : list InventoryItemModel;
  ID : tfval string
}.

Definition metadataModel (meta : InventoryMetadata.t) : InventoryMetadataModel :=
  {| Name := StringValue (InventoryMetadata.Name meta);
     Description := StringValue (InventoryMetadata.Description meta);
     Value := StringValue (InventoryMetadata.Value meta) |}.

(* The body of the loop over the inventory. *)
Definition itemModel (item : InventoryItem.t) : InventoryItemModel :=
  {| SkuID := Int64Value (InventoryItem.SkuID item);
     Quantity := Int64Value (InventoryItem.Quantity item);
     AutoProvisionQuantity := Int64Value (InventoryItem.AutoProvisionQuantity item);
     DatacenterID := Int64Value (InventoryItem.DatacenterID item);
     RegionID := Int64Value (InventoryItem.RegionID item);
     LocationCode := StringValue (InventoryItem.LocationCode item);
     CPUBrand := StringValue (InventoryItem.CPUBrand item);
     CPUModel := StringValue (InventoryItem.CPUModel item);
     CPUCores := Int64Value (InventoryItem.CPUCores item);
     CPUCount := Int64Value (InventoryItem.CPUCount item);
     TotalSSDSizeGB := Int64Value (InventoryItem.TotalSSDSizeGB item);
     TotalHDDSizeGB := Int64Value (InventoryItem.TotalHDDSizeGB item);
     TotalNVMESizeGB := Int64Value (InventoryItem.TotalNVMESizeGB item);
     RAIDEnabled := Known (InventoryItem.RAIDEnabled item);
     TotalRAMGB := Int64Value (InventoryItem.TotalRAMGB item);
     NICSpeedMbps := Int64Value (InventoryItem.NICSpeedMbps item);
     QTProductID := Int64Value (InventoryItem.QTProductID item);
     Status := StringValue (InventoryItem.Status item);
     Metadata :=
       foldl (λ metadata meta, metadata ++ [metadataModel meta]) []
             (InventoryItem.Metadata item);
     CurrencyCode := StringValue (InventoryItem.CurrencyCode item);
     SkuProductName := StringValue (InventoryItem.SkuProductName item);
     Price := StringValue (InventoryItem.Price item);
     PriceHourly := StringValue (InventoryItem.PriceHourly item);
     HourlyEnabled := Known (InventoryItem.HourlyEnabled item) |}.

Definition Read (E : Env) : M (Response InventoryDataSourceModel) :=
  r ← GetInventory E;
  match r with
  | Err err =>
      mret (failed [ErrorDiagnostic "Client Error"
             ("Unable to read inventory, got error: " +:+ err)])
  | Ok inventory =>
      mret {| Diagnostics := [];
              State := Some
                {| Items := foldl (λ items item, items ++ [itemModel item]) [] inventory;
                   ID := StringValue "inventory" |} |}
  end.

End InventoryDataSource.

Module OperatingSystemsDataSource.

Record OperatingSystemDataModel := {
  Name : tfval string;
  OSType : tfval string;
  ProductCode : tfval string;
  HourlyEnabled : tfval bool
}.

Record OperatingSystemsDataSourceModel := {
  ServerTypeName : tfval string;
  Location : tfval string;
  OperatingSystems : list OperatingSystemDataModel;
  ID : tfval string
}.

Definition osModel (os : OperatingSystemItem.t) : OperatingSystemDataModel :=
  {| Name := StringValue (OperatingSystemItem.Name os);
     OSType := StringValue (OperatingSystemItem.OSType os);
     ProductCode := StringValue (OperatingSystemItem.ProductCode os);
     HourlyEnabled := Known (OperatingSystemItem.HourlyEnabled os) |}.

(* Read. data is the configuration as read into the model. *)
Definition Read (E : Env) (data : OperatingSystemsDataSourceModel)
  : M (Response OperatingSystemsDataSourceModel) :=
  let serverTypeName := ValueString (ServerTypeName data) in
  let location := ValueString (Location data) in
  r ← GetAddons E serverTypeName location;
  match r with
  | Err err =>
      mret (failed [ErrorDiagnostic "Client Error"
             ("Unable to read operating systems for server type '" +:+ serverTypeName
              +:+ "' in location '" +:+ location +:+ "', got error: " +:+ err)])
  | Ok addons =>
      mret {| Diagnostics := [];
              State := Some
                {| ServerTypeName := ServerTypeName data;
                   Location := Location data;
                   OperatingSystems :=
                     foldl (λ operatingSystems os, operatingSystems ++ [osModel os]) []
                       (OperatingSystemsAddon.Products
                          (AddonsResponse.OperatingSystems addons));
                   ID := StringValue (serverTypeName +:+ "-" +:+ location) |} |}
  end.

End OperatingSystemsDataSource.

(* --------------------------------------------------------------------- *)
(*  provider.go: Configure                                                *)
(* --------------------------------------------------------------------- *)

Module ICSProvider.

Record ICSProviderModel := {
  APIToken : tfval string;
  BaseURL : tfval string
}.

(* The client that NewICSClient builds; its HTTP client has a timeout of
   300 seconds. *)
Record ICSClient := {
  ClientAPIToken : string;
  ClientBaseURL : string;
  ClientTimeout : Z
}.

Definition NewICSClient (apiToken baseURL : string) : ICSClient :=
  {| ClientAPIToken := apiToken; ClientBaseURL := baseURL;
     ClientTimeout := 300 * time_Second |}.

(* Configure. data is the configuration as read into the model and
   ICS_API_TOKEN what os.Getenv returns for that variable (empty when it
   is not set). The result is the diagnostics, or the client handed to
   the data sources and resources. *)
Definition Configure (data : ICSProviderModel) (ICS_API_TOKEN : string)
  : list Diagnostic + ICSClient :=
  let apiToken := ValueString (APIToken data) in
  let apiToken := if decide (apiToken = "") then ICS_API_TOKEN else apiToken in
  if decide (apiToken = "") then
    inl [ErrorDiagnostic "Missing API Token Configuration"
           "While configuring the provider, the API token was not found in the configuration or ICS_API_TOKEN environment variable."]
  else
    let baseURL := ValueString (BaseURL data) in
    let baseURL :=
      if decide (baseURL = "") then "https://api.ingenuitycloudservices.com"
      else baseURL in
    inr (NewICSClient apiToken baseURL).

End ICSProvider.

(* --------------------------------------------------------------------- *)
(*  client.go: makeRequest and the two calls that decode nothing          *)
(* --------------------------------------------------------------------- *)

Module Transport.

(* The request that makeRequest builds. Body is the JSON of the body, if
   there is one. *)
Record Request := {
  Method : string;
  URL : string;
  Header : gmap string string;
  Body : option string
}.

(* What becomes of a request: http.NewRequest refuses it, the round trip
   fails, reading the body fails, or a status and a body come back. *)
Inductive Exchange : Type :=
| NewRequestError (err : error)
| DoError (err : error)
| ReadError (status : Z) (err : error)
| Reply (status : Z) (body : string).

(* The k-th request of a run and what becomes of it. *)
Definition Wire : Type := nat → Request → Exchange.

(* State passing over the requests made so far, newest first. *)
Definition T (A : Type) : Type := list Request → A * list Request.

Global Instance T_ret : MRet T := λ A a log, (a, log).
Global Instance T_bind : MBind T := λ A B f m log, let '(a, log') := m log in f a log'.

Definition http_StatusOK : Z := 200.

Definition buildRequest (c : ICSProvider.ICSClient) (method endpoint : string)
    (body : option string) : Request :=
  {| Method := method;
     URL := ICSProvider.ClientBaseURL c +:+ endpoint;
     Header :=
       let h := <["X-Api-Token" := ICSProvider.ClientAPIToken c]>
                  (<["Accept" := "application/json"]> ∅) in
       match body with
       | Some _ => <["Content-Type" := "application/json"]> h
       | None => h
       end;
     Body := body |}.

Definition makeRequest (wire : Wire) (c : ICSProvider.ICSClient)
    (method endpoint : string) (body : option string) : T Exchange := λ log,
  let req := buildRequest c method endpoint body in
  (wire (length log) req, req :: log).

(* The tail shared by CancelServer and DeleteSSHKey: the error of the
   call, if any; what is the prefix of a failed round trip. *)
Definition checked (what : string) (x : Exchange) : option error :=
  match x with
  | NewRequestError err => Some (what +:+ "failed to create request: " +:+ err)
  | DoError err => Some (what +:+ err)
  | ReadError _ err => Some ("failed to read response body: " +:+ err)
  | Reply status body =>
      if decide (status ≠ http_StatusOK)
      then Some ("API request failed with status " +:+ fmt_d status +:+ ": " +:+ body)
      else None
  end.

Definition CancelServer (wire : Wire) (c : ICSProvider.ICSClient)
    (serverID : string) : T (option error) :=
  x ← makeRequest wire c "DELETE" ("/rest-api/servers/" +:+ serverID +:+ "/cancel") None;
  mret (checked "failed to cancel server: " x).

Definition DeleteSSHKey (wire : Wire) (c : ICSProvider.ICSClient)
    (keyID : Z) : T (option error) :=
  x ← makeRequest wire c "DELETE" ("/rest-api/ssh-keys/" +:+ fmt_d keyID) None;
  mret (checked "failed to delete SSH key: " x).

(* BareMetalServerResource.Delete: the diagnostics it leaves. *)
Definition DeleteServer (wire : Wire) (c : ICSProvider.ICSClient)
    (data : BareMetalServerResourceModel.t) : T (list Diagnostic) :=
  let serverID := ValueString (BareMetalServerResourceModel.ID data) in
  e ← CancelServer wire c serverID;
  mret (match e with
        | Some err =>
            [ErrorDiagnostic "Client Error"
               ("Unable to cancel server " +:+ serverID +:+ ", got error: " +:+ err)]
        | None => []
        end).

(* SSHKeyResource.Delete: the diagnostics it leaves. *)
Definition DeleteKey (wire : Wire) (c : ICSProvider.ICSClient)
    (data : SSHKeyResourceModel.t) : T (list Diagnostic) :=
  let keyID := ValueInt64 (SSHKeyResourceModel.ID data) in
  e ← DeleteSSHKey wire c keyID;
  mret (match e with
        | Some err =>
            [ErrorDiagnostic "Client Error"
               ("Unable to delete SSH key " +:+ fmt_d keyID +:+ ", got error: " +:+ err)]
        | None => []
        end).

End Transport.

(* ===================================================================== *)
(*  Specification vocabulary                                              *)
(* ===================================================================== *)

(* The world after one request. *)
Definition requested (E : Env) (c : Call) (w : World) : World :=
  (request E c w).2.

(* An entry that FindSKUByProductName accepts for a request. *)
Definition qualifies (productName locationCode : string) (item : InventoryItem.t) : Prop :=
  InventoryItem.SkuProductName item = productName
  ∧ (InventoryItem.LocationCode item = locationCode ∨ locationCode = "")
  ∧ InventoryItem.AutoProvisionQuantity item > 0.

Global Instance qualifies_dec p l item : Decision (qualifies p l item).
Proof. unfold qualifies. apply _. Defined.

(* item is the first entry of the inventory that qualifies. *)
Definition first_qualifying (inventory : list InventoryItem.t)
    (productName locationCode : string) (item : InventoryItem.t) : Prop :=
  ∃ before after,
    inventory = before ++ item :: after
    ∧ qualifies productName locationCode item
    ∧ Forall (λ entry, ¬ qualifies productName locationCode entry) before.

(* The claim that a failed resolution tells, through its error, a product
   name that is absent from the inventory from one that is present but
   not available as requested. *)
Definition resolution_errors_tell_cases : Prop :=
  ∀ (E1 E2 : Env) (w1 w2 : World) (I1 I2 : list InventoryItem.t)
    (productName locationCode : string) (e1 e2 : error),
    inventory_at E1 (calls_to ListInventory (trace w1)) = Ok I1 →
    inventory_at E2 (calls_to ListInventory (trace w2)) = Ok I2 →
    (∀ entry, entry ∈ I1 → InventoryItem.SkuProductName entry ≠ productName) →
    (∃ entry, entry ∈ I2 ∧ InventoryItem.SkuProductName entry = productName) →
    (FindSKUByProductName E1 productName locationCode w1).1 = Err e1 →
    (FindSKUByProductName E2 productName locationCode w2).1 = Err e2 →
    e1 ≠ e2.

(* A type offered at a location with units to provision. *)
Definition in_stock (inventory : list InventoryItem.t) (ty loc : string) : Prop :=
  ∃ item, item ∈ inventory
    ∧ InventoryItem.SkuProductName item = ty
    ∧ InventoryItem.LocationCode item = loc
    ∧ InventoryItem.AutoProvisionQuantity item > 0.

Definition alternatives_consistent (inventory : list InventoryItem.t)
    (instanceType location : string)
    (alt : BareMetalServerResource.Alternatives) : Prop :=
  (∀ loc, loc ∈ BareMetalServerResource.availableLocations alt →
          in_stock inventory instanceType loc)
  ∧ (∀ ty, ty ∈ BareMetalServerResource.availableTypes alt →
           in_stock inventory ty location)
  ∧ (∀ ty (locs : list string) loc,
       BareMetalServerResource.typeLocationMap alt !! ty = Some locs →
       loc ∈ locs → in_stock inventory ty loc).

(* --------------------------------------------------------------------- *)
(*  Sample data                                                           *)
(* --------------------------------------------------------------------- *)

Definition sampleItem (name loc : string) (qty : Z) : InventoryItem.t :=
  {| InventoryItem.SkuID := 1; InventoryItem.Quantity := qty;
     InventoryItem.AutoProvisionQuantity := qty; InventoryItem.DatacenterID := 0;
     InventoryItem.RegionID := 0; InventoryItem.LocationCode := loc;
     InventoryItem.CPUBrand := ""; InventoryItem.CPUModel := "";
     InventoryItem.CPUCores := 0; InventoryItem.CPUCount := 0;
     InventoryItem.TotalSSDSizeGB := 0; InventoryItem.TotalHDDSizeGB := 0;
     InventoryItem.TotalNVMESizeGB := 0; InventoryItem.RAIDEnabled := false;
     InventoryItem.TotalRAMGB := 0; InventoryItem.NICSpeedMbps := 0;
     InventoryItem.QTProductID := 0; InventoryItem.Status := "";
     InventoryItem.Metadata := []; InventoryItem.CurrencyCode := "";
     InventoryItem.SkuProductName := name; InventoryItem.Price := "";
     InventoryItem.PriceHourly := ""; InventoryItem.HourlyEnabled := true |}.

Definition sampleServer (id : string) (serviceID : Z) : Server.t :=
  {| Server.ID := id; Server.Hostname := "host-" +:+ id; Server.MacAddress := "";
     Server.PublicIP := "203.0.113.7"; Server.ServiceID := serviceID;
     Server.ServiceDescription := ""; Server.PlanID := 0;
     Server.DatacenterName := ""; Server.DatacenterID := 0;
     Server.LocationID := 0; Server.FriendlyName := ""; Server.Vendor := "";
     Server.ServerType := ""; Server.BillHourly := true;
     Server.RootPassword := "secret" |}.

Definition sampleKey (id : Z) (label key : string) : SSHKey.t :=
  {| SSHKey.ID := id; SSHKey.Label := label; SSHKey.Key := key;
     SSHKey.CreatedAt := 0; SSHKey.UpdatedAt := 0; SSHKey.AssignedServers := [] |}.

Definition sampleOS : OperatingSystemItem.t :=
  {| OperatingSystemItem.Name := "Ubuntu 24.04"; OperatingSystemItem.OSType := "linux";
     OperatingSystemItem.ProductCode := "UBUNTU_24_04";
     OperatingSystemItem.HourlyEnabled := true |}.

Definition sampleAddons : AddonsResponse.t :=
  {| AddonsResponse.OperatingSystems :=
       {| OperatingSystemsAddon.Name := "Operating Systems";
          OperatingSystemsAddon.Required := "yes";
          OperatingSystemsAddon.Products := [sampleOS] |} |}.

(* A backend that answers every request of one kind the same way, every
   request taking a second. *)
Definition sampleEnv (inventory : list InventoryItem.t)
    (order : list Z) (servers : nat → result (list Server.t))
    (keys : list SSHKey.t) : Env :=
  {| inventory_at := λ _, Ok inventory;
     addons_at := λ _ _ _, Ok sampleAddons;
     order_at := λ _ _, Ok {| ServerOrderResponse.OrderServiceIDs := order |};
     servers_at := servers;
     friendly_name_at := λ _ _ _, None;
     ssh_create_at := λ _ _, Ok {| SSHKeyCreateResponse.ID := 1 |};
     ssh_keys_at := λ _, Ok keys;
     delay_at := λ _, 1000000000%N |}.

Definition startWorld : World := {| now := 0; trace := [] |}.

Definition neverCancelled : Context := {| cancelAt := None; cause := Canceled |}.

Definition samplePlan (instanceType location : string)
    (labels : tfval (list string)) : BareMetalServerResourceModel.t :=
  {| BareMetalServerResourceModel.ID := Unknown;
     BareMetalServerResourceModel.InstanceType := Known instanceType;
     BareMetalServerResourceModel.Location := Known location;
     BareMetalServerResourceModel.OperatingSystem := Known "Ubuntu 24.04";
     BareMetalServerResourceModel.Hostname := Null;
     BareMetalServerResourceModel.FriendlyName := Null;
     BareMetalServerResourceModel.SSHKeyLabels := labels;
     BareMetalServerResourceModel.ServiceID := Unknown;
     BareMetalServerResourceModel.PublicIP := Unknown;
     BareMetalServerResourceModel.RootPassword := Unknown;
     BareMetalServerResourceModel.ServiceDescription := Unknown;
     BareMetalServerResourceModel.PlanID := Unknown;
     BareMetalServerResourceModel.DatacenterName := Unknown;
     BareMetalServerResourceModel.DatacenterID := Unknown;
     BareMetalServerResourceModel.LocationID := Unknown;
     BareMetalServerResourceModel.ServerTypeInternal := Unknown |}.

(* The inventory of the example: c1.small in stock at NYC1, out of stock
   at ORD1. *)
Definition exampleInventory : list InventoryItem.t :=
  [sampleItem "c1.small" "NYC1" 3; sampleItem "c1.small" "ORD1" 0].

(* --------------------------------------------------------------------- *)
(*  Vocabulary of the provisioning poller                                 *)
(* --------------------------------------------------------------------- *)

(* The world after the cancellation signal was looked at, and after one
   sleep of the poll interval. *)
Definition polled (ctx : Context) (w : World) : World := (ctx_Done ctx w).2.
Definition slept (E : Env) (w : World) : World :=
  (time_Sleep E (30 * time_Second) w).2.

(* Queries to the server list made so far. *)
Definition queries (w : World) : nat := calls_to ListServers (trace w).

(* What the k-th query to the server list shows for a service
   identifier: the first server carrying it, or nothing when the list has
   none or the query fails. *)
Definition poll_result (E : Env) (serviceID : Z) (k : nat) : option Server.t :=
  match servers_at E k with
  | Ok servers => scanServers servers serviceID
  | Err _ => None
  end.

(* In a stretch of trace, newest event first: every query to the server
   list comes right after a look at the cancellation signal, made at the
   same instant, that found it unset. *)
Definition queries_guarded (ctx : Context) (evs : list Event) : Prop :=
  ∀ (i : nat) t, evs !! i = Some (EvCall t GET_servers) →
    evs !! S i = Some (EvCtxPoll t false) ∧ done_at ctx t = false.

Definition cancelledAt (t : Z) : Context := {| cancelAt := Some t; cause := Canceled |}.

(* Polls that find no server with service identifier 500 three times and
   then find it. *)
Definition serversAfter3 (k : nat) : result (list Server.t) :=
  if decide (k < 3)%nat then Ok [sampleServer "srv-1" 7]
  else Ok [sampleServer "srv-1" 7; sampleServer "srv-2" 500].

(* --------------------------------------------------------------------- *)
(*  Vocabulary of Create                                                  *)
(* --------------------------------------------------------------------- *)

(* Orders submitted and credential lists fetched so far. *)
Definition submitted (w : World) : nat := calls_to SubmitOrder (trace w).
Definition lookups (w : World) : nat := calls_to ListCredentials (trace w).

(* From w to w' only events of one kind were added to the trace. *)
Definition adds (P : Event → Prop) (w w' : World) : Prop :=
  ∃ evs, trace w' = evs ++ trace w ∧ Forall P evs.

(* Events of the validation phase of Create: requests that neither submit
   an order nor read the server list. *)
Definition validating (e : Event) : Prop :=
  hits SubmitOrder e = false ∧ hits ListServers e = false.

(* Events that follow the order: anything but another order. *)
Definition no_order (e : Event) : Prop := hits SubmitOrder e = false.

(* What the k-th fetch of the credential list shows for a label: the
   first key carrying it, or nothing. *)
Definition ssh_key_lookup (E : Env) (label : string) (k : nat) : option SSHKey.t :=
  match ssh_keys_at E k with
  | Ok sshKeys => scanSSHKeys sshKeys label
  | Err _ => None
  end.

(* ids are the identifiers of the keys found for the labels, one fetch of
   the credential list per label, starting with fetch k0. *)
Definition labels_resolved (E : Env) (k0 : nat) (labels : list string)
    (ids : list Z) : Prop :=
  length ids = length labels
  ∧ ∀ (i : nat) label, labels !! i = Some label →
      ∃ key, ssh_key_lookup E label (k0 + i) = Some key
        ∧ SSHKey.Label key = label
        ∧ ids !! i = Some (SSHKey.ID key).

(* key is the first key of the list that carries the label, letter for
   letter. *)
Definition first_with_label (sshKeys : list SSHKey.t) (label : string)
    (key : SSHKey.t) : Prop :=
  ∃ before after,
    sshKeys = before ++ key :: after
    ∧ SSHKey.Label key = label
    ∧ Forall (λ other, SSHKey.Label other ≠ label) before.

(* The k-th fetch of the credential list succeeds, and key is the first
   key of the fetched list that carries the label. *)
Definition listed (E : Env) (k : nat) (label : string) (key : SSHKey.t) : Prop :=
  ∃ sshKeys, ssh_keys_at E k = Ok sshKeys ∧ first_with_label sshKeys label key.

(* The k-th fetch of the credential list fails, or no key of the fetched
   list carries the label. *)
Definition unlisted (E : Env) (k : nat) (label : string) : Prop :=
  match ssh_keys_at E k with
  | Ok sshKeys => Forall (λ key, SSHKey.Label key ≠ label) sshKeys
  | Err _ => True
  end.

(* The two validations that Create runs before it looks at the SSH keys
   pass: the inventory that it fetches holds an entry that qualifies for
   the plan's type and location, and the catalogue that it fetches for
   them holds a product with the name of the plan's operating system. *)
Definition validation_passes (E : Env) (data : BareMetalServerResourceModel.t)
    (w : World) : Prop :=
  let instanceType := ValueString (BareMetalServerResourceModel.InstanceType data) in
  let location := ValueString (BareMetalServerResourceModel.Location data) in
  let osName := ValueString (BareMetalServerResourceModel.OperatingSystem data) in
  (∃ inventory entry,
     inventory_at E (calls_to ListInventory (trace w)) = Ok inventory
     ∧ entry ∈ inventory ∧ qualifies instanceType location entry)
  ∧ (∃ addons os,
       addons_at E (calls_to ListAddons (trace w)) instanceType location = Ok addons
       ∧ os ∈ OperatingSystemsAddon.Products (AddonsResponse.OperatingSystems addons)
       ∧ OperatingSystemItem.Name os = osName).

(* The inventory, the key and the plans of the examples of Create. *)
Definition stockedInventory : list InventoryItem.t := [sampleItem "c1.small" "NYC1" 3].

Definition deployKey : SSHKey.t := sampleKey 11 "deploy" "ssh-ed25519 AAAA".

Definition sampleOrder (sshKeyIDs : list Z) : ServerOrderRequest.t :=
  {| ServerOrderRequest.SkuProductName := "c1.small";
     ServerOrderRequest.Quantity := 1;
     ServerOrderRequest.LocationCode := "NYC1";
     ServerOrderRequest.OperatingSystemProductCode := "UBUNTU_24_04";
     ServerOrderRequest.Hostname := "";
     ServerOrderRequest.BillHourly := true;
     ServerOrderRequest.SSHKeyIDs := sshKeyIDs |}.

(* --------------------------------------------------------------------- *)
(*  Vocabulary of the SSH key resource                                    *)
(* --------------------------------------------------------------------- *)


Definition keyPlan (label publicKey : string) : SSHKeyResourceModel.t :=
  {| SSHKeyResourceModel.ID := Unknown;
     SSHKeyResourceModel.Label := Known label;
     SSHKeyResourceModel.PublicKey := Known publicKey;
     SSHKeyResourceModel.CreatedAt := Unknown;
     SSHKeyResourceModel.UpdatedAt := Unknown |}.


(* ===================================================================== *)
(*  Vocabulary of the further properties                                  *)
(* ===================================================================== *)

(* An entry with units to provision, of a given type or at a given
   location. *)
Definition stocked_type (ty : string) (item : InventoryItem.t) : Prop :=
  InventoryItem.AutoProvisionQuantity item > 0
  ∧ InventoryItem.SkuProductName item = ty.

Definition stocked_at (loc : string) (item : InventoryItem.t) : Prop :=
  InventoryItem.AutoProvisionQuantity item > 0
  ∧ InventoryItem.LocationCode item = loc.

Global Instance stocked_type_dec ty item : Decision (stocked_type ty item).
Proof. unfold stocked_type. apply _. Defined.

Global Instance stocked_at_dec loc item : Decision (stocked_at loc item).
Proof. unfold stocked_at. apply _. Defined.

(* The locations where a type is in stock and the types in stock at a
   location, in inventory order, one element per entry. *)
Definition stockedLocations (inventory : list InventoryItem.t) (ty : string)
  : list string :=
  InventoryItem.LocationCode <$> filter (stocked_type ty) inventory.

Definition stockedTypes (inventory : list InventoryItem.t) (loc : string)
  : list string :=
  InventoryItem.SkuProductName <$> filter (stocked_at loc) inventory.

(* A plan and a state of a server, with a friendly name, and a backend
   that shows the server 500 and refuses every friendly name. *)
Definition namedModel (instanceType hostname friendlyName : tfval string)
    (id : tfval string) (serviceID : tfval Z) : BareMetalServerResourceModel.t :=
  {| BareMetalServerResourceModel.ID := id;
     BareMetalServerResourceModel.InstanceType := instanceType;
     BareMetalServerResourceModel.Location := Known "NYC1";
     BareMetalServerResourceModel.OperatingSystem := Known "Ubuntu 24.04";
     BareMetalServerResourceModel.Hostname := hostname;
     BareMetalServerResourceModel.FriendlyName := friendlyName;
     BareMetalServerResourceModel.SSHKeyLabels := Null;
     BareMetalServerResourceModel.ServiceID := serviceID;
     BareMetalServerResourceModel.PublicIP := Known "203.0.113.7";
     BareMetalServerResourceModel.RootPassword := Known "secret";
     BareMetalServerResourceModel.ServiceDescription := Known "";
     BareMetalServerResourceModel.PlanID := Known 0;
     BareMetalServerResourceModel.DatacenterName := Known "";
     BareMetalServerResourceModel.DatacenterID := Known 0;
     BareMetalServerResourceModel.LocationID := Known 0;
     BareMetalServerResourceModel.ServerTypeInternal := Known "" |}.

Definition refusingEnv : Env :=
  {| inventory_at := λ _, Ok stockedInventory;
     addons_at := λ _ _ _, Ok sampleAddons;
     order_at := λ _ _, Ok {| ServerOrderResponse.OrderServiceIDs := [500] |};
     servers_at := λ _, Ok [sampleServer "srv-2" 500];
     friendly_name_at := λ _ _ _, Some "refused";
     ssh_create_at := λ _ _, Err "refused";
     ssh_keys_at := λ _, Ok [];
     delay_at := λ _, 0%N |}.

(* ===================================================================== *)
(*  Properties                                                            *)
(* ===================================================================== *)

(* --------------------------------------------------------------------- *)
(*  Running the calls                                                     *)
(* --------------------------------------------------------------------- *)

Lemma GetInventory_run E w :
  GetInventory E w =
  (inventory_at E (calls_to ListInventory (trace w)), requested E GET_inventory w).
Proof. reflexivity. Qed.

Lemma GetServers_run E w :
  GetServers E w =
  (servers_at E (calls_to ListServers (trace w)), requested E GET_servers w).
Proof. reflexivity. Qed.

Lemma GetSSHKeys_run E w :
  GetSSHKeys E w =
  (ssh_keys_at E (calls_to ListCredentials (trace w)), requested E GET_ssh_keys w).
Proof. reflexivity. Qed.

Lemma requested_trace E c w :
  trace (requested E c w) = EvCall (now w) c :: trace w.
Proof. reflexivity. Qed.

Lemma requested_now E c w : now w ≤ now (requested E c w).
Proof. unfold requested; simpl. lia. Qed.

(* --------------------------------------------------------------------- *)
(*  The catalog resolver                                                  *)
(* --------------------------------------------------------------------- *)

Lemma scanInventory_step item rest p l :
  scanInventory (item :: rest) p l =
  if decide (qualifies p l item) then Some item else scanInventory rest p l.
Proof.
  unfold qualifies; simpl.
  destruct (decide (InventoryItem.SkuProductName item = p)) as [Hname|Hname].
  - destruct (decide (l ≠ "" ∧ InventoryItem.LocationCode item ≠ l)) as [Hloc|Hloc].
    + destruct (decide _) as [(_ & [Heq|Heq] & _)|_]; [tauto | tauto | reflexivity].
    + assert (InventoryItem.LocationCode item = l ∨ l = "") as Hloc'.
      { destruct (decide (l = "")); [tauto |].
        destruct (decide (InventoryItem.LocationCode item = l)); tauto. }
      destruct (decide (InventoryItem.AutoProvisionQuantity item > 0)) as [Hqty|Hqty];
        destruct (decide _) as [Hq|Hq]; try reflexivity; tauto.
  - destruct (decide _) as [(Heq & _)|_]; [contradiction | reflexivity].
Qed.

Lemma scanInventory_None inventory p l :
  scanInventory inventory p l = None ↔
  Forall (λ entry, ¬ qualifies p l entry) inventory.
Proof.
  induction inventory as [|item rest IH].
  - split; [constructor | reflexivity].
  - rewrite scanInventory_step. case_decide as Hq.
    + split; [discriminate |]. intros HF. inversion HF; subst. contradiction.
    + rewrite IH. split.
      * intros HF. constructor; assumption.
      * intros HF. inversion HF; assumption.
Qed.

Lemma scanInventory_Some inventory p l item :
  scanInventory inventory p l = Some item ↔ first_qualifying inventory p l item.
Proof.
  induction inventory as [|x rest IH].
  - split; [discriminate |]. intros (before & after & Heq & _).
    destruct before; discriminate.
  - rewrite scanInventory_step. case_decide as Hq.
    + split.
      * intros [= <-]. exists [], rest. repeat split; try apply Hq. constructor.
      * intros (before & after & Heq & Hit & Hbefore).
        destruct before as [|y before]; simpl in Heq.
        -- congruence.
        -- injection Heq as <- _. inversion Hbefore; subst. contradiction.
    + rewrite IH. split.
      * intros (before & after & -> & Hit & Hbefore).
        exists (x :: before), after. repeat split; try apply Hit.
        constructor; assumption.
      * intros (before & after & Heq & Hit & Hbefore).
        destruct before as [|y before]; simpl in Heq.
        -- injection Heq as -> _. contradiction.
        -- injection Heq as <- ->. inversion Hbefore; subst.
           exists before, after. repeat split; try apply Hit. assumption.
Qed.

Lemma FindSKUByProductName_run E p l w :
  FindSKUByProductName E p l w =
  (match inventory_at E (calls_to ListInventory (trace w)) with
   | Err err => Err ("failed to get inventory: " +:+ err)
   | Ok inventory =>
       match scanInventory inventory p l with
       | Some item => Ok item
       | None => Err (skuNotFound p l)
       end
   end, requested E GET_inventory w).
Proof. reflexivity. Qed.

(** C1. On every inventory snapshot and for every request,
    FindSKUByProductName returns an item exactly when some entry of the
    snapshot has the requested product name, the requested location code
    (or the request leaves the location empty) and a positive
    auto-provisionable quantity; the item returned is the first such entry
    in snapshot order; when there is none it returns an error. *)
Theorem FindSKUByProductName_spec E w inventory productName locationCode :
  inventory_at E (calls_to ListInventory (trace w)) = Ok inventory →
  let r := (FindSKUByProductName E productName locationCode w).1 in
  ((∃ item, r = Ok item) ↔
     ∃ entry, entry ∈ inventory ∧ qualifies productName locationCode entry)
  ∧ (∀ item, r = Ok item ↔ first_qualifying inventory productName locationCode item)
  ∧ ((¬ ∃ entry, entry ∈ inventory ∧ qualifies productName locationCode entry) →
     r = Err (skuNotFound productName locationCode)).
Proof.
  intros Hinv r. subst r. rewrite FindSKUByProductName_run, Hinv. simpl.
  assert (Hfirst : ∀ item,
    match scanInventory inventory productName locationCode with
    | Some item0 => Ok item0
    | None => Err (skuNotFound productName locationCode)
    end = Ok item ↔ first_qualifying inventory productName locationCode item).
  { intros item. rewrite <- scanInventory_Some.
    destruct (scanInventory inventory productName locationCode); split; congruence. }
  split; [| split].
  - split.
    + intros [item Hitem]. apply Hfirst in Hitem.
      destruct Hitem as (before & after & -> & Hq & _).
      exists item. split; [| exact Hq].
      apply elem_of_app. right. constructor.
    + intros (entry & Hin & Hq).
      destruct (scanInventory inventory productName locationCode) as [item|] eqn:Hscan.
      * eauto.
      * apply scanInventory_None in Hscan. rewrite Forall_forall in Hscan.
        exfalso. exact (Hscan entry Hin Hq).
  - exact Hfirst.
  - intros Hnone.
    destruct (scanInventory inventory productName locationCode) as [item|] eqn:Hscan.
    + exfalso. apply Hnone. apply scanInventory_Some in Hscan.
      destruct Hscan as (before & after & -> & Hq & _).
      exists item. split; [| exact Hq]. apply elem_of_app. right. constructor.
    + reflexivity.
Qed.

(* Witness of C1: on the inventory of the example, a request for
    c1.small at NYC1. *)
Lemma FindSKUByProductName_spec_witness :
  let r := (FindSKUByProductName (sampleEnv exampleInventory [] (λ _, Ok []) [])
              "c1.small" "NYC1" startWorld).1 in
  ((∃ item, r = Ok item) ↔
     ∃ entry, entry ∈ exampleInventory ∧ qualifies "c1.small" "NYC1" entry)
  ∧ (∀ item, r = Ok item ↔ first_qualifying exampleInventory "c1.small" "NYC1" item)
  ∧ ((¬ ∃ entry, entry ∈ exampleInventory ∧ qualifies "c1.small" "NYC1" entry) →
     r = Err (skuNotFound "c1.small" "NYC1")).
Proof.
  apply (FindSKUByProductName_spec (sampleEnv exampleInventory [] (λ _, Ok []) [])
           startWorld exampleInventory "c1.small" "NYC1").
  reflexivity.
Defined.

Lemma skuNotFound_location p l :
  l ≠ "" → skuNotFound p l ≠ skuNotFound p "".
Proof.
  intros Hl. unfold skuNotFound.
  destruct (decide (l ≠ "")) as [_|]; [| contradiction].
  destruct (decide ("" ≠ "")) as [Hne|_]; [contradiction Hne; reflexivity |].
  intros Heq. apply (inj (String.app "SKU '")) in Heq.
  apply (inj (String.app p)) in Heq. simpl in Heq. discriminate Heq.
Qed.

(** C5, as the code has it. When resolution fails on a fetched snapshot,
    the error is determined by the request alone: it is the same for every
    snapshot, it names the product and, when a location code was given,
    the location, and it differs from the error of the same product
    requested without a location. *)
Theorem resolution_error_by_request E1 E2 w1 w2 I1 I2 productName locationCode e1 e2 :
  inventory_at E1 (calls_to ListInventory (trace w1)) = Ok I1 →
  inventory_at E2 (calls_to ListInventory (trace w2)) = Ok I2 →
  (FindSKUByProductName E1 productName locationCode w1).1 = Err e1 →
  (FindSKUByProductName E2 productName locationCode w2).1 = Err e2 →
  e1 = e2
  ∧ e1 = skuNotFound productName locationCode
  ∧ (locationCode ≠ "" → e1 ≠ skuNotFound productName "").
Proof.
  intros H1 H2. rewrite !FindSKUByProductName_run, H1, H2. simpl.
  destruct (scanInventory I1 productName locationCode); [discriminate |].
  destruct (scanInventory I2 productName locationCode); [discriminate |].
  intros [= <-] [= <-]. split; [reflexivity |]. split; [reflexivity |].
  apply skuNotFound_location.
Qed.

(* Witness of C5 as the code has it: c1.small requested at ORD1, once from an
    inventory without c1.small and once from one where it is out of
    stock. *)
Lemma resolution_error_by_request_witness :
  let e := "SKU 'c1.small' not found with auto provision inventory in location 'ORD1'" in
  e = e ∧ e = skuNotFound "c1.small" "ORD1"
  ∧ ("ORD1" ≠ "" → e ≠ skuNotFound "c1.small" "").
Proof.
  apply (resolution_error_by_request
           (sampleEnv [sampleItem "c2.big" "ORD1" 2] [] (λ _, Ok []) [])
           (sampleEnv [sampleItem "c1.small" "ORD1" 0] [] (λ _, Ok []) [])
           startWorld startWorld
           [sampleItem "c2.big" "ORD1" 2] [sampleItem "c1.small" "ORD1" 0]
           "c1.small" "ORD1"); reflexivity.
Defined.

(** Counterexample to C5 as stated: c1.small at ORD1 fails with one and
    the same error on an inventory that has no c1.small entry and on one
    that has a c1.small entry without stock. *)
Lemma resolution_errors_tell_cases_fails : ¬ resolution_errors_tell_cases.
Proof.
  intros Hclaim.
  apply (Hclaim
           (sampleEnv [sampleItem "c2.big" "ORD1" 2] [] (λ _, Ok []) [])
           (sampleEnv [sampleItem "c1.small" "ORD1" 0] [] (λ _, Ok []) [])
           startWorld startWorld
           [sampleItem "c2.big" "ORD1" 2] [sampleItem "c1.small" "ORD1" 0]
           "c1.small" "ORD1"
           "SKU 'c1.small' not found with auto provision inventory in location 'ORD1'"
           "SKU 'c1.small' not found with auto provision inventory in location 'ORD1'");
    try reflexivity.
  - intros entry Hin. apply list_elem_of_singleton in Hin. subst entry. discriminate.
  - exists (sampleItem "c1.small" "ORD1" 0). split; [constructor | reflexivity].
Qed.

(* --------------------------------------------------------------------- *)
(*  The suggestion lists of Create                                        *)
(* --------------------------------------------------------------------- *)

Lemma in_stock_app inventory more ty loc :
  in_stock inventory ty loc → in_stock (inventory ++ more) ty loc.
Proof.
  intros (item & Hin & Hrest). exists item. split; [| exact Hrest].
  apply elem_of_app. left. exact Hin.
Qed.

Lemma in_stock_last inventory item :
  InventoryItem.AutoProvisionQuantity item > 0 →
  in_stock (inventory ++ [item])
    (InventoryItem.SkuProductName item) (InventoryItem.LocationCode item).
Proof.
  intros Hqty. exists item. split; [| auto].
  apply elem_of_app. right. constructor.
Qed.

Lemma alternativesStep_consistent inventory instanceType location acc item :
  alternatives_consistent inventory instanceType location acc →
  alternatives_consistent (inventory ++ [item]) instanceType location
    (BareMetalServerResource.alternativesStep instanceType location acc item).
Proof.
  intros (Hlocs & Htypes & Hmap).
  unfold BareMetalServerResource.alternativesStep.
  destruct (decide (InventoryItem.AutoProvisionQuantity item > 0)) as [Hqty|Hqty].
  - pose proof (in_stock_last inventory item Hqty) as Hitem.
    split; [| split]; simpl.
    + intros loc. destruct (decide (InventoryItem.SkuProductName item = instanceType)) as [Hn|Hn].
      * intros [Hin|Hin]%elem_of_app.
        -- apply in_stock_app, Hlocs, Hin.
        -- apply list_elem_of_singleton in Hin. subst loc. rewrite <- Hn. exact Hitem.
      * intros Hin. apply in_stock_app, Hlocs, Hin.
    + intros ty. destruct (decide (InventoryItem.LocationCode item = location)) as [Hl|Hl].
      * intros [Hin|Hin]%elem_of_app.
        -- apply in_stock_app, Htypes, Hin.
        -- apply list_elem_of_singleton in Hin. subst ty. rewrite <- Hl. exact Hitem.
      * intros Hin. apply in_stock_app, Htypes, Hin.
    + intros ty locs loc.
      destruct (decide (InventoryItem.SkuProductName item = ty)) as [<-|Hne].
      * rewrite lookup_insert_eq. intros [= <-].
        intros [Hin|Hin]%elem_of_app.
        -- destruct (BareMetalServerResource.typeLocationMap acc
                       !! InventoryItem.SkuProductName item) as [old|] eqn:Hold.
           ++ rewrite Hold in Hin. simpl in Hin.
              apply in_stock_app. exact (Hmap _ _ _ Hold Hin).
           ++ rewrite lookup_insert_eq in Hin. simpl in Hin. inversion Hin.
        -- apply list_elem_of_singleton in Hin. subst loc. exact Hitem.
      * rewrite lookup_insert_ne by exact Hne.
        destruct (BareMetalServerResource.typeLocationMap acc
                    !! InventoryItem.SkuProductName item) as [old|] eqn:Hold.
        -- intros Hty Hin. apply in_stock_app. exact (Hmap _ _ _ Hty Hin).
        -- rewrite lookup_insert_ne by exact Hne.
           intros Hty Hin. apply in_stock_app. exact (Hmap _ _ _ Hty Hin).
  - split; [| split].
    + intros loc Hin. apply in_stock_app, Hlocs, Hin.
    + intros ty Hin. apply in_stock_app, Htypes, Hin.
    + intros ty locs loc Hty Hin. apply in_stock_app. exact (Hmap _ _ _ Hty Hin).
Qed.

Lemma findAlternatives_consistent inventory instanceType location :
  alternatives_consistent inventory instanceType location
    (BareMetalServerResource.findAlternatives inventory instanceType location).
Proof.
  unfold BareMetalServerResource.findAlternatives.
  induction inventory as [|item inventory IH] using rev_ind.
  - split; [| split]; simpl.
    + intros loc Hin. inversion Hin.
    + intros ty Hin. inversion Hin.
    + intros ty locs loc Hty. rewrite lookup_empty in Hty. discriminate.
  - rewrite foldl_app. simpl. apply alternativesStep_consistent, IH.
Qed.

Lemma calls_to_requested E c w ep :
  calls_to ep (trace (requested E c w)) =
  if decide (route c = ep) then S (calls_to ep (trace w)) else calls_to ep (trace w).
Proof.
  unfold calls_to, requested; simpl.
  destruct (decide (route c = ep)) as [Heq|Hne].
  - rewrite filter_cons_True; [reflexivity |].
    simpl. apply bool_decide_eq_true. exact Heq.
  - rewrite filter_cons_False; [reflexivity |].
    simpl. rewrite bool_decide_eq_true. exact Hne.
Qed.

(* Create when the resolution has failed and the inventory is fetched
   again for the suggestions. *)
Lemma Create_unresolved E ctx data w err inventory :
  (FindSKUByProductName E
     (ValueString (BareMetalServerResourceModel.InstanceType data))
     (ValueString (BareMetalServerResourceModel.Location data)) w).1 = Err err →
  inventory_at E (S (calls_to ListInventory (trace w))) = Ok inventory →
  BareMetalServerResource.Create E ctx data w =
  (failed [ErrorDiagnostic "Invalid Instance Type and Location Combination"
     (BareMetalServerResource.invalidCombinationMsg
        (ValueString (BareMetalServerResourceModel.InstanceType data))
        (ValueString (BareMetalServerResourceModel.Location data))
        (BareMetalServerResource.findAlternatives inventory
           (ValueString (BareMetalServerResourceModel.InstanceType data))
           (ValueString (BareMetalServerResourceModel.Location data))))],
   requested E GET_inventory (requested E GET_inventory w)).
Proof.
  intros Hfail Hinv.
  unfold BareMetalServerResource.Create, mbind, M_bind.
  destruct (FindSKUByProductName E _ _ w) as [r w1] eqn:Hrun.
  rewrite FindSKUByProductName_run in Hrun. injection Hrun as Hr Hw1.
  simpl in Hfail. subst r w1. rewrite Hfail.
  rewrite GetInventory_run, calls_to_requested. simpl. rewrite Hinv. reflexivity.
Qed.

(** C6. When the resolution fails during Create and the inventory is
    fetched for the suggestions, Create fails with the diagnostic built
    from the three suggestion lists, and every type and location pair of
    those lists is in the fetched snapshot with a positive
    auto-provisionable quantity. On the snapshot with c1.small at NYC1
    (3 units) and at ORD1 (none), the order of c1.small at ORD1 fails and
    NYC1 is the one location listed for c1.small. *)
Theorem Create_alternatives_consistent E ctx data w err inventory :
  let instanceType := ValueString (BareMetalServerResourceModel.InstanceType data) in
  let location := ValueString (BareMetalServerResourceModel.Location data) in
  let alt := BareMetalServerResource.findAlternatives inventory instanceType location in
  (FindSKUByProductName E instanceType location w).1 = Err err →
  inventory_at E (S (calls_to ListInventory (trace w))) = Ok inventory →
  ((BareMetalServerResource.Create E ctx data w).1 =
     failed [ErrorDiagnostic "Invalid Instance Type and Location Combination"
               (BareMetalServerResource.invalidCombinationMsg instanceType location alt)]
   ∧ alternatives_consistent inventory instanceType location alt)
  ∧ (let r := (BareMetalServerResource.Create
                 (sampleEnv exampleInventory [] (λ _, Ok []) []) neverCancelled
                 (samplePlan "c1.small" "ORD1" Null) startWorld).1 in
     let ex := BareMetalServerResource.findAlternatives exampleInventory "c1.small" "ORD1" in
     State r = None
     ∧ HasError (Diagnostics r) = true
     ∧ BareMetalServerResource.availableLocations ex = ["NYC1"]
     ∧ BareMetalServerResource.availableTypes ex = []
     ∧ BareMetalServerResource.typeLocationMap ex = {[ "c1.small" := ["NYC1"] ]}
     ∧ Detail <$> Diagnostics r =
       ["Instance type 'c1.small' is not available in location 'ORD1'"
        +:+ nl +:+ nl +:+ "Available locations for instance type 'c1.small': [NYC1]"
        +:+ nl +:+ nl +:+ "All available combinations with inventory:"
        +:+ nl +:+ "  c1.small: [NYC1]"]).
Proof.
  intros instanceType location alt Hfail Hinv. split.
  - split.
    + subst instanceType location alt.
      rewrite (Create_unresolved E ctx data w err inventory Hfail Hinv). reflexivity.
    + apply findAlternatives_consistent.
  - vm_compute. repeat split; reflexivity.
Qed.

(* Witness of C6: the example itself. *)
Lemma Create_alternatives_consistent_witness :
  (BareMetalServerResource.Create
     (sampleEnv exampleInventory [] (λ _, Ok []) []) neverCancelled
     (samplePlan "c1.small" "ORD1" Null) startWorld).1 =
  failed [ErrorDiagnostic "Invalid Instance Type and Location Combination"
            (BareMetalServerResource.invalidCombinationMsg "c1.small" "ORD1"
               (BareMetalServerResource.findAlternatives exampleInventory
                  "c1.small" "ORD1"))]
  ∧ alternatives_consistent exampleInventory "c1.small" "ORD1"
      (BareMetalServerResource.findAlternatives exampleInventory "c1.small" "ORD1").
Proof.
  apply (Create_alternatives_consistent
           (sampleEnv exampleInventory [] (λ _, Ok []) []) neverCancelled
           (samplePlan "c1.small" "ORD1" Null) startWorld
           "SKU 'c1.small' not found with auto provision inventory in location 'ORD1'"
           exampleInventory); reflexivity.
Defined.

(* --------------------------------------------------------------------- *)
(*  The provisioning poller                                               *)
(* --------------------------------------------------------------------- *)

Lemma polled_now ctx w : now (polled ctx w) = now w.
Proof. reflexivity. Qed.

Lemma polled_trace ctx w :
  trace (polled ctx w) = EvCtxPoll (now w) (done_at ctx (now w)) :: trace w.
Proof. reflexivity. Qed.

Lemma polled_queries ctx w : queries (polled ctx w) = queries w.
Proof. reflexivity. Qed.

Lemma slept_trace E w :
  trace (slept E w) = EvSleep (now w) (30 * time_Second) :: trace w.
Proof. reflexivity. Qed.

Lemma slept_queries E w : queries (slept E w) = queries w.
Proof. reflexivity. Qed.

Lemma slept_now E w :
  now (slept E w) = now w + 30 * time_Second + Z.of_N (delay_at E (length (trace w))).
Proof. unfold slept, time_Sleep, time_Second; simpl. lia. Qed.

Lemma requested_now_eq E c w :
  now (requested E c w) = now w + Z.of_N (delay_at E (length (trace w))).
Proof. reflexivity. Qed.

Lemma requested_queries E w : queries (requested E GET_servers w) = S (queries w).
Proof. unfold queries. rewrite calls_to_requested. reflexivity. Qed.

Lemma GetServerByServiceID_run E serviceID w :
  GetServerByServiceID E serviceID w =
  (match servers_at E (queries w) with
   | Err err => Err err
   | Ok servers =>
       match scanServers servers serviceID with
       | Some server => Ok server
       | None => Err ("server with service ID " +:+ fmt_d serviceID +:+ " not found")
       end
   end, requested E GET_servers w).
Proof. reflexivity. Qed.

Lemma GetServerByServiceID_found E serviceID w server :
  (GetServerByServiceID E serviceID w).1 = Ok server ↔
  poll_result E serviceID (queries w) = Some server.
Proof.
  rewrite GetServerByServiceID_run. unfold poll_result. simpl.
  destruct (servers_at E (queries w)) as [servers|err].
  - destruct (scanServers servers serviceID); split; congruence.
  - split; discriminate.
Qed.

Lemma scanServers_ServiceID servers serviceID server :
  scanServers servers serviceID = Some server → Server.ServiceID server = serviceID.
Proof.
  induction servers as [|s rest IH]; simpl; [discriminate |].
  destruct (decide (Server.ServiceID s = serviceID)) as [Heq|_].
  - intros [= <-]. exact Heq.
  - exact IH.
Qed.

(* One round of the loop. *)
Lemma waitLoop_step E n ctx serviceID deadline w :
  BareMetalServerResource.waitLoop E (S n) ctx serviceID deadline w =
  if decide (now w < deadline) then
    if done_at ctx (now w) then (Some (Err (ctx_Err ctx)), polled ctx w)
    else
      match poll_result E serviceID (queries w) with
      | Some server => (Some (Ok server), requested E GET_servers (polled ctx w))
      | None =>
          BareMetalServerResource.waitLoop E n ctx serviceID deadline
            (slept E (requested E GET_servers (polled ctx w)))
      end
  else (Some (Err (BareMetalServerResource.timeoutError serviceID)), w).
Proof.
  cbn [BareMetalServerResource.waitLoop].
  unfold mbind, M_bind, time_Now at 1.
  destruct (decide (now w < deadline)) as [Hlt|Hge]; [| reflexivity].
  change (ctx_Done ctx w) with (done_at ctx (now w), polled ctx w).
  destruct (done_at ctx (now w)); [reflexivity |].
  rewrite GetServerByServiceID_run, polled_queries. unfold poll_result.
  destruct (servers_at E (queries w)) as [servers|err]; [| reflexivity].
  destruct (scanServers servers serviceID); reflexivity.
Qed.

Lemma waitForServerProvisioning_run E ctx serviceID timeout w :
  BareMetalServerResource.waitForServerProvisioning E ctx serviceID timeout w =
  let run := BareMetalServerResource.waitLoop E
               (BareMetalServerResource.waitRounds timeout) ctx serviceID
               (now w + timeout) w in
  (match run.1 with
   | Some r => r
   | None => Err (BareMetalServerResource.timeoutError serviceID)
   end, run.2).
Proof.
  unfold BareMetalServerResource.waitForServerProvisioning, mbind, M_bind, time_Now.
  cbv zeta.
  destruct (BareMetalServerResource.waitLoop E
              (BareMetalServerResource.waitRounds timeout) ctx serviceID
              (now w + timeout) w) as [r w'].
  reflexivity.
Qed.

(* The rounds are bounded: fuel that covers the time left is enough. *)
Lemma waitLoop_total E ctx serviceID deadline n w :
  deadline - now w ≤ Z.of_nat n * (30 * time_Second) →
  ∃ r, (BareMetalServerResource.waitLoop E (S n) ctx serviceID deadline w).1 = Some r.
Proof.
  revert w. induction n as [|n IH]; intros w Hleft; rewrite waitLoop_step.
  - destruct (decide (now w < deadline)) as [Hlt|_]; [lia | eauto].
  - destruct (decide (now w < deadline)) as [Hlt|_]; [| eauto].
    destruct (done_at ctx (now w)); [eauto |].
    destruct (poll_result E serviceID (queries w)); [eauto |].
    apply IH. rewrite slept_now, requested_now_eq, polled_now.
    unfold time_Second in *. lia.
Qed.

Lemma waitRounds_enough timeout :
  timeout ≤ Z.of_nat (S (Z.to_nat (timeout / (30 * time_Second)))) * (30 * time_Second).
Proof.
  unfold time_Second.
  destruct (Z_lt_le_dec timeout 0) as [Hneg|Hpos]; [lia |].
  pose proof (Z.mod_pos_bound timeout 30000000000 ltac:(lia)) as Hmod.
  pose proof (Z.div_mod timeout 30000000000 ltac:(lia)) as Hdiv.
  assert (0 ≤ timeout / 30000000000) by (apply Z.div_pos; lia).
  rewrite Nat2Z.inj_succ, Z2Nat.id by assumption.
  change (30 * 1000000000) with 30000000000. lia.
Qed.

(* waitForServerProvisioning always returns: the bound on the rounds is
   never reached. *)
Lemma waitForServerProvisioning_total E ctx serviceID timeout w :
  ∃ r, (BareMetalServerResource.waitLoop E (BareMetalServerResource.waitRounds timeout)
          ctx serviceID (now w + timeout) w).1 = Some r.
Proof.
  unfold BareMetalServerResource.waitRounds. apply waitLoop_total.
  pose proof (waitRounds_enough timeout). lia.
Qed.

(** C2. With a deadline that has already elapsed, whatever the server
    list holds, waitForServerProvisioning returns the timeout error and
    issues no query at all (so not more than one): the world is left as
    it was. The same holds of the loop entered at or after its
    deadline. *)
Theorem wait_elapsed_deadline E ctx serviceID timeout w :
  timeout ≤ 0 →
  let run := BareMetalServerResource.waitForServerProvisioning E ctx serviceID timeout w in
  run.1 = Err (BareMetalServerResource.timeoutError serviceID)
  ∧ run.2 = w
  ∧ (queries run.2 ≤ queries w + 1)%nat
  ∧ ∀ n, BareMetalServerResource.waitLoop E (S n) ctx serviceID (now w + timeout) w
         = (Some (Err (BareMetalServerResource.timeoutError serviceID)), w).
Proof.
  intros Helapsed.
  assert (Hloop : ∀ n,
    BareMetalServerResource.waitLoop E (S n) ctx serviceID (now w + timeout) w
    = (Some (Err (BareMetalServerResource.timeoutError serviceID)), w)).
  { intros n. rewrite waitLoop_step.
    destruct (decide (now w < now w + timeout)); [lia | reflexivity]. }
  cbv zeta. rewrite waitForServerProvisioning_run. cbv zeta.
  unfold BareMetalServerResource.waitRounds. rewrite Hloop. simpl.
  repeat split; [lia | exact Hloop].
Qed.

(* Witness of C2: a wait of zero length for service 500 while the server
    is in the list. *)
Lemma wait_elapsed_deadline_witness :
  let run := BareMetalServerResource.waitForServerProvisioning
               (sampleEnv [] [500] (λ _, Ok [sampleServer "srv-2" 500]) [])
               neverCancelled 500 0 startWorld in
  run.1 = Err (BareMetalServerResource.timeoutError 500)
  ∧ run.2 = startWorld
  ∧ (queries run.2 ≤ queries startWorld + 1)%nat
  ∧ ∀ n, BareMetalServerResource.waitLoop
           (sampleEnv [] [500] (λ _, Ok [sampleServer "srv-2" 500]) [])
           (S n) neverCancelled 500 (now startWorld + 0) startWorld
         = (Some (Err (BareMetalServerResource.timeoutError 500)), startWorld).
Proof.
  apply (wait_elapsed_deadline
           (sampleEnv [] [500] (λ _, Ok [sampleServer "srv-2" 500]) [])
           neverCancelled 500 0 startWorld).
  lia.
Defined.

Lemma ctx_Err_not_timeout ctx serviceID :
  ctx_Err ctx ≠ BareMetalServerResource.timeoutError serviceID.
Proof.
  unfold ctx_Err, BareMetalServerResource.timeoutError.
  destruct (cause ctx); simpl; discriminate.
Qed.

(* A round entered before the deadline with the signal set. *)
Lemma waitLoop_cancelled E n ctx serviceID deadline w :
  now w < deadline → done_at ctx (now w) = true →
  BareMetalServerResource.waitLoop E (S n) ctx serviceID deadline w
  = (Some (Err (ctx_Err ctx)), polled ctx w).
Proof.
  intros Hlt Hdone. rewrite waitLoop_step, Hdone.
  destruct (decide (now w < deadline)); [reflexivity | contradiction].
Qed.

Lemma queries_guarded_nil ctx : queries_guarded ctx [].
Proof. intros i t Hi. rewrite lookup_nil in Hi. discriminate. Qed.

Lemma queries_guarded_poll ctx t b : queries_guarded ctx [EvCtxPoll t b].
Proof. intros [|[|i]] t' Hi; simpl in Hi; discriminate. Qed.

Lemma queries_guarded_round ctx evs t d t' :
  queries_guarded ctx evs → done_at ctx t = false →
  queries_guarded ctx
    (evs ++ [EvSleep t' d; EvCall t GET_servers; EvCtxPoll t false]).
Proof.
  intros Hevs Hdone i u Hi.
  apply lookup_app_Some in Hi as [Hi|[Hlen Hi]].
  - destruct (Hevs i u Hi) as [Hnext Hu]. split; [| exact Hu].
    apply lookup_app_l_Some. exact Hnext.
  - rewrite lookup_app_r by lia.
    replace (S i - length evs)%nat with (S (i - length evs)) by lia.
    destruct (i - length evs)%nat as [|[|[|j]]]; simpl in Hi; try discriminate.
    injection Hi as <-. split; [reflexivity | exact Hdone].
Qed.

(* Whatever the loop adds to the trace is guarded. *)
Lemma waitLoop_guarded E ctx serviceID deadline n w :
  ∃ evs,
    trace (BareMetalServerResource.waitLoop E n ctx serviceID deadline w).2
      = evs ++ trace w
    ∧ queries_guarded ctx evs.
Proof.
  revert w. induction n as [|n IH]; intros w.
  - exists []. split; [reflexivity | apply queries_guarded_nil].
  - rewrite waitLoop_step.
    destruct (decide (now w < deadline)) as [Hlt|_];
      [| exists []; split; [reflexivity | apply queries_guarded_nil]].
    destruct (done_at ctx (now w)) eqn:Hdone.
    { exists [EvCtxPoll (now w) true]. split; [| apply queries_guarded_poll].
      simpl. rewrite Hdone. reflexivity. }
    destruct (poll_result E serviceID (queries w)) as [server|].
    + exists [EvCall (now w) GET_servers; EvCtxPoll (now w) false]. split.
      * simpl. rewrite Hdone. reflexivity.
      * intros [|[|i]] t Hi; simpl in Hi; try discriminate.
        injection Hi as <-. split; [reflexivity | exact Hdone].
    + destruct (IH (slept E (requested E GET_servers (polled ctx w))))
        as (evs & Htrace & Hevs).
      exists (evs ++ [EvSleep (now (requested E GET_servers (polled ctx w)))
                        (30 * time_Second);
                      EvCall (now w) GET_servers; EvCtxPoll (now w) false]).
      split.
      * rewrite Htrace, slept_trace, requested_trace, polled_trace, polled_now, Hdone.
        rewrite <- app_assoc. reflexivity.
      * apply queries_guarded_round; assumption.
Qed.

(** C3. A round of the wait loop that starts with the cancellation signal
    set returns the context's error, which is not the timeout error, and
    issues no query: it only looks at the signal. And in every run of
    waitForServerProvisioning each query to the server list comes right
    after a look at the signal, at the same instant, that found it unset,
    so that no query is issued once the signal is set. *)
Theorem wait_cancellation E ctx serviceID n deadline w :
  now w < deadline → done_at ctx (now w) = true →
  let run := BareMetalServerResource.waitLoop E (S n) ctx serviceID deadline w in
  run.1 = Some (Err (ctx_Err ctx))
  ∧ ctx_Err ctx ≠ BareMetalServerResource.timeoutError serviceID
  ∧ trace run.2 = EvCtxPoll (now w) true :: trace w
  ∧ queries run.2 = queries w
  ∧ ∀ timeout w0, ∃ evs,
      trace (BareMetalServerResource.waitForServerProvisioning
               E ctx serviceID timeout w0).2 = evs ++ trace w0
      ∧ queries_guarded ctx evs.
Proof.
  intros Hlt Hdone. cbv zeta. rewrite waitLoop_cancelled by assumption.
  cbn [fst snd]. split; [reflexivity |]. split; [apply ctx_Err_not_timeout |].
  split; [rewrite polled_trace, Hdone; reflexivity |].
  split; [apply polled_queries |].
  intros timeout w0. rewrite waitForServerProvisioning_run. cbv zeta.
  apply waitLoop_guarded.
Qed.

(* Witness of C3: the signal is set at instant 5 and the loop is entered
    at instant 5 with the deadline at 100. *)
Lemma wait_cancellation_witness :
  let E := sampleEnv [] [500] (λ _, Ok [sampleServer "srv-2" 500]) [] in
  let w := {| now := 5; trace := [] |} in
  let run := BareMetalServerResource.waitLoop E 1 (cancelledAt 5) 500 100 w in
  run.1 = Some (Err "context canceled")
  ∧ trace run.2 = [EvCtxPoll 5 true]
  ∧ queries run.2 = 0%nat.
Proof.
  pose proof (wait_cancellation
                (sampleEnv [] [500] (λ _, Ok [sampleServer "srv-2" 500]) [])
                (cancelledAt 5) 500 0 100 {| now := 5; trace := [] |}
                ltac:(simpl; lia) ltac:(reflexivity)) as (H1 & _ & H3 & H4 & _).
  cbv zeta. split; [exact H1 |]. split; [exact H3 | exact H4].
Defined.

(* The loop finds the server at its (N+1)-th query when the first N show
   nothing, the signal stays unset before the deadline and the deadline
   leaves room for N rounds. *)
Lemma waitLoop_finds E ctx serviceID deadline D server N :
  (∀ i, Z.of_N (delay_at E i) ≤ D) →
  (∀ t, t < deadline → done_at ctx t = false) →
  ∀ fuel w,
    (N < fuel)%nat →
    now w + Z.of_nat N * (30 * time_Second + 2 * D) < deadline →
    (∀ k, (k < N)%nat → poll_result E serviceID (queries w + k) = None) →
    poll_result E serviceID (queries w + N) = Some server →
    (BareMetalServerResource.waitLoop E fuel ctx serviceID deadline w).1
      = Some (Ok server).
Proof.
  intros Hdelay Hctx.
  assert (0 ≤ D) as HD by (pose proof (Hdelay 0%nat); lia).
  induction N as [|N IH]; intros fuel w Hfuel Hroom Hnone Hfound;
    (destruct fuel as [|fuel]; [lia |]); rewrite waitLoop_step.
  - destruct (decide (now w < deadline)) as [Hlt|Hge]; [| lia].
    rewrite (Hctx _ Hlt). rewrite Nat.add_0_r in Hfound. rewrite Hfound. reflexivity.
  - assert (now w < deadline) as Hlt by (unfold time_Second in *; nia).
    destruct (decide (now w < deadline)) as [_|Hge]; [| contradiction].
    rewrite (Hctx _ Hlt).
    pose proof (Hnone 0%nat ltac:(lia)) as H0. rewrite Nat.add_0_r in H0. rewrite H0.
    apply IH.
    + lia.
    + rewrite slept_now, requested_now_eq, polled_now.
      pose proof (Hdelay (length (trace (polled ctx w)))).
      pose proof (Hdelay (length (trace (requested E GET_servers (polled ctx w))))).
      unfold time_Second in *. lia.
    + intros k Hk. rewrite slept_queries, requested_queries, polled_queries.
      replace (S (queries w) + k)%nat with (queries w + S k)%nat by lia.
      apply Hnone. lia.
    + rewrite slept_queries, requested_queries, polled_queries.
      replace (S (queries w) + N)%nat with (queries w + S N)%nat by lia.
      exact Hfound.
Qed.

Lemma waitRounds_room timeout N D :
  0 ≤ D → Z.of_nat N * (30 * time_Second + 2 * D) < timeout →
  (N < BareMetalServerResource.waitRounds timeout)%nat.
Proof.
  intros HD Hroom. unfold BareMetalServerResource.waitRounds.
  pose proof (waitRounds_enough timeout) as Henough.
  unfold time_Second in *.
  change (30 * 1000000000) with 30000000000 in *.
  assert (Z.of_nat N * 30000000000 < timeout) as HN by nia.
  assert (0 ≤ timeout) by nia.
  assert (Z.of_nat N ≤ timeout / 30000000000) as Hle.
  { apply Z.div_le_lower_bound; lia. }
  apply Nat2Z.inj_lt. rewrite !Nat2Z.inj_succ, Z2Nat.id; [lia |].
  apply Z.div_pos; lia.
Qed.

Lemma waitForServerProvisioning_finds E ctx serviceID timeout D server N w :
  (∀ i, Z.of_N (delay_at E i) ≤ D) →
  (∀ t, t < now w + timeout → done_at ctx t = false) →
  Z.of_nat N * (30 * time_Second + 2 * D) < timeout →
  (∀ k, (k < N)%nat → poll_result E serviceID (queries w + k) = None) →
  poll_result E serviceID (queries w + N) = Some server →
  (BareMetalServerResource.waitForServerProvisioning E ctx serviceID timeout w).1
    = Ok server.
Proof.
  intros Hdelay Hctx Hroom Hnone Hfound.
  assert (0 ≤ D) as HD by (pose proof (Hdelay 0%nat); lia).
  rewrite waitForServerProvisioning_run. cbv zeta. cbn [fst snd].
  rewrite (waitLoop_finds E ctx serviceID (now w + timeout) D server N Hdelay Hctx);
    [reflexivity | | | assumption | assumption].
  - apply (waitRounds_room timeout N D); assumption.
  - lia.
Qed.

(** C4. A run in which N queries in a row show no server with the target
    service identifier (the list has none, or the query fails) and the
    next one shows the list servers returns the same Server as a run whose
    first query shows that list: the first entry of servers that carries
    the identifier. The signal is unset before the deadline, and the
    deadline leaves room for the N rounds, each of 30 seconds and two
    delays of at most D. *)
Theorem wait_idempotent_not_found
    E E' ctx ctx' serviceID timeout timeout' D w w' N servers server :
  (∀ i, Z.of_N (delay_at E i) ≤ D) →
  (∀ t, t < now w + timeout → done_at ctx t = false) →
  Z.of_nat N * (30 * time_Second + 2 * D) < timeout →
  (∀ k, (k < N)%nat → poll_result E serviceID (queries w + k) = None) →
  servers_at E (queries w + N) = Ok servers →
  servers_at E' (queries w') = Ok servers →
  done_at ctx' (now w') = false → 0 < timeout' →
  scanServers servers serviceID = Some server →
  (BareMetalServerResource.waitForServerProvisioning E ctx serviceID timeout w).1
  = (BareMetalServerResource.waitForServerProvisioning E' ctx' serviceID timeout' w').1
  ∧ (BareMetalServerResource.waitForServerProvisioning E ctx serviceID timeout w).1
    = Ok server.
Proof.
  intros Hdelay Hctx Hroom Hnone Hlist Hlist' Hctx' Htimeout' Hscan.
  assert ((BareMetalServerResource.waitForServerProvisioning
             E ctx serviceID timeout w).1 = Ok server) as Hrun.
  { apply (waitForServerProvisioning_finds E ctx serviceID timeout D server N);
      try assumption.
    unfold poll_result. rewrite Hlist. exact Hscan. }
  split; [| exact Hrun]. rewrite Hrun.
  rewrite waitForServerProvisioning_run. cbv zeta. cbn [fst snd].
  unfold BareMetalServerResource.waitRounds. rewrite waitLoop_step.
  destruct (decide (now w' < now w' + timeout')); [| lia].
  rewrite Hctx'. unfold poll_result. rewrite Hlist', Hscan. reflexivity.
Qed.

(* Witness of C4: service 500 is absent from the list for three polls
    and present at the fourth, against a backend that shows it at once;
    the wait is of 30 minutes and every request takes a second. *)
Lemma wait_idempotent_not_found_witness :
  (BareMetalServerResource.waitForServerProvisioning
     (sampleEnv [] [500] serversAfter3 []) neverCancelled 500
     (30 * time_Minute) startWorld).1
  = (BareMetalServerResource.waitForServerProvisioning
       (sampleEnv [] [500]
          (λ _, Ok [sampleServer "srv-1" 7; sampleServer "srv-2" 500]) [])
       neverCancelled 500 (30 * time_Minute) startWorld).1
  ∧ (BareMetalServerResource.waitForServerProvisioning
       (sampleEnv [] [500] serversAfter3 []) neverCancelled 500
       (30 * time_Minute) startWorld).1
    = Ok (sampleServer "srv-2" 500).
Proof.
  apply (wait_idempotent_not_found
           (sampleEnv [] [500] serversAfter3 [])
           (sampleEnv [] [500]
              (λ _, Ok [sampleServer "srv-1" 7; sampleServer "srv-2" 500]) [])
           neverCancelled neverCancelled 500 (30 * time_Minute) (30 * time_Minute)
           1000000000 startWorld startWorld 3
           [sampleServer "srv-1" 7; sampleServer "srv-2" 500]
           (sampleServer "srv-2" 500)).
  - intros i. simpl. lia.
  - intros t _. reflexivity.
  - vm_compute. reflexivity.
  - intros [|[|[|k]]] Hk; try reflexivity. lia.
  - reflexivity.
  - reflexivity.
  - reflexivity.
  - vm_compute. reflexivity.
  - reflexivity.
Defined.

(* --------------------------------------------------------------------- *)
(*  Traces                                                                *)
(* --------------------------------------------------------------------- *)

Lemma adds_refl P w : adds P w w.
Proof. exists []. split; [reflexivity | constructor]. Qed.

Lemma adds_trans P w1 w2 w3 : adds P w1 w2 → adds P w2 w3 → adds P w1 w3.
Proof.
  intros (evs1 & H1 & HP1) (evs2 & H2 & HP2). exists (evs2 ++ evs1). split.
  - rewrite H2, H1, app_assoc. reflexivity.
  - apply Forall_app. split; assumption.
Qed.

Lemma adds_mono (P Q : Event → Prop) w w' :
  (∀ e, P e → Q e) → adds P w w' → adds Q w w'.
Proof.
  intros HPQ (evs & Htrace & HP). exists evs. split; [exact Htrace |].
  eapply Forall_impl; eassumption.
Qed.

Lemma adds_requested (P : Event → Prop) E c w :
  P (EvCall (now w) c) → adds P w (requested E c w).
Proof. intros HP. exists [EvCall (now w) c]. split; [reflexivity | repeat constructor; exact HP]. Qed.

Lemma adds_polled (P : Event → Prop) ctx w :
  P (EvCtxPoll (now w) (done_at ctx (now w))) → adds P w (polled ctx w).
Proof. intros HP. eexists [_]. split; [reflexivity | repeat constructor; exact HP]. Qed.

Lemma adds_slept (P : Event → Prop) E w :
  P (EvSleep (now w) (30 * time_Second)) → adds P w (slept E w).
Proof. intros HP. eexists [_]. split; [reflexivity | repeat constructor; exact HP]. Qed.

Lemma calls_to_app ep evs tr :
  calls_to ep (evs ++ tr) = (calls_to ep evs + calls_to ep tr)%nat.
Proof. unfold calls_to. rewrite filter_app, length_app. reflexivity. Qed.

Lemma calls_to_none ep evs :
  Forall (λ e, hits ep e = false) evs → calls_to ep evs = 0%nat.
Proof.
  unfold calls_to. induction 1 as [|e evs He _ IH]; [reflexivity |].
  rewrite filter_cons_False; [exact IH |]. rewrite He. discriminate.
Qed.

Lemma adds_calls_to ep w w' :
  adds (λ e, hits ep e = false) w w' →
  calls_to ep (trace w') = calls_to ep (trace w).
Proof.
  intros (evs & -> & Hevs). rewrite calls_to_app, (calls_to_none ep evs Hevs).
  reflexivity.
Qed.

(* --------------------------------------------------------------------- *)
(*  The SSH keys of an order                                              *)
(* --------------------------------------------------------------------- *)

Lemma scanSSHKeys_Label sshKeys label key :
  scanSSHKeys sshKeys label = Some key → SSHKey.Label key = label ∧ key ∈ sshKeys.
Proof.
  induction sshKeys as [|k rest IH]; simpl; [discriminate |].
  destruct (decide (SSHKey.Label k = label)) as [Heq|_].
  - intros [= <-]. split; [exact Heq | constructor].
  - intros Hscan. destruct (IH Hscan) as [Hl Hin]. split; [exact Hl |].
    constructor. exact Hin.
Qed.

Lemma GetSSHKeyByLabel_run E label w :
  GetSSHKeyByLabel E label w =
  (match ssh_keys_at E (lookups w) with
   | Err err => Err ("failed to get SSH keys: " +:+ err)
   | Ok sshKeys =>
       match scanSSHKeys sshKeys label with
       | Some key => Ok key
       | None => Err ("SSH key with label '" +:+ label +:+ "' not found")
       end
   end, requested E GET_ssh_keys w).
Proof. reflexivity. Qed.

Lemma GetSSHKeyByLabel_lookup E label w :
  match (GetSSHKeyByLabel E label w).1 with
  | Ok key => ssh_key_lookup E label (lookups w) = Some key
  | Err _ => ssh_key_lookup E label (lookups w) = None
  end.
Proof.
  rewrite GetSSHKeyByLabel_run. unfold ssh_key_lookup. simpl.
  destruct (ssh_keys_at E (lookups w)) as [sshKeys|err]; [| reflexivity].
  destruct (scanSSHKeys sshKeys label); reflexivity.
Qed.

Lemma requested_lookups E w : lookups (requested E GET_ssh_keys w) = S (lookups w).
Proof. unfold lookups. rewrite calls_to_requested. reflexivity. Qed.

(* The loop over the labels: it only fetches the credential list, and it
   ends with the identifiers of all labels or at a label that its fetch
   does not show. *)
Lemma resolveSSHKeyIDs_spec E labels : ∀ acc w,
  let run := BareMetalServerResource.resolveSSHKeyIDs E labels acc w in
  adds validating w run.2
  ∧ match run.1 with
    | inl ids => ∃ new, ids = acc ++ new ∧ labels_resolved E (lookups w) labels new
    | inr (label, err) =>
        ∃ i : nat, labels !! i = Some label
          ∧ ssh_key_lookup E label (lookups w + i) = None
    end.
Proof.
  induction labels as [|label rest IH]; intros acc w; cbv zeta.
  - simpl. split; [apply adds_refl |]. exists []. split.
    + rewrite app_nil_r. reflexivity.
    + split; [reflexivity |]. intros i l Hl. rewrite lookup_nil in Hl. discriminate.
  - cbn [BareMetalServerResource.resolveSSHKeyIDs]. unfold mbind, M_bind.
    pose proof (GetSSHKeyByLabel_lookup E label w) as Hlookup.
    rewrite GetSSHKeyByLabel_run in *. cbn [fst snd] in Hlookup.
    set (r := match ssh_keys_at E (lookups w) with
              | Ok _ => _ | Err _ => _ end) in *.
    assert (adds validating w (requested E GET_ssh_keys w)) as Hstep.
    { apply adds_requested. split; reflexivity. }
    destruct r as [key|err].
    + specialize (IH (acc ++ [SSHKey.ID key]) (requested E GET_ssh_keys w)).
      cbv zeta in IH. destruct IH as [Hadds Hres]. split.
      * eapply adds_trans; eassumption.
      * destruct (BareMetalServerResource.resolveSSHKeyIDs E rest _ _).1
          as [ids|[l err]].
        -- destruct Hres as (new & -> & Hlen & Hnew).
           exists (SSHKey.ID key :: new). split.
           { rewrite <- app_assoc. reflexivity. }
           split; [simpl; congruence |].
           intros [|i] l Hl; simpl in Hl.
           ++ injection Hl as <-. exists key. rewrite Nat.add_0_r.
              split; [exact Hlookup |]. split; [| reflexivity].
              unfold ssh_key_lookup in Hlookup.
              destruct (ssh_keys_at E (lookups w)); [| discriminate].
              apply scanSSHKeys_Label in Hlookup. tauto.
           ++ destruct (Hnew i l Hl) as (k & Hk & Hkl & Hki).
              exists k. rewrite requested_lookups in Hk.
              replace (lookups w + S i)%nat with (S (lookups w) + i)%nat by lia.
              auto.
        -- destruct Hres as (i & Hi & Hnone). exists (S i). split; [exact Hi |].
           rewrite requested_lookups in Hnone.
           replace (lookups w + S i)%nat with (S (lookups w) + i)%nat by lia.
           exact Hnone.
    + simpl. split; [exact Hstep |]. exists 0%nat. split; [reflexivity |].
      rewrite Nat.add_0_r. exact Hlookup.
Qed.

(* --------------------------------------------------------------------- *)
(*  Create, stage by stage                                                *)
(* --------------------------------------------------------------------- *)

Lemma waitLoop_no_order E ctx serviceID deadline n w :
  adds no_order w (BareMetalServerResource.waitLoop E n ctx serviceID deadline w).2.
Proof.
  revert w. induction n as [|n IH]; intros w; [apply adds_refl |].
  rewrite waitLoop_step.
  destruct (decide (now w < deadline)); [| apply adds_refl].
  assert (adds no_order w (polled ctx w)) as Hpoll
    by (apply adds_polled; reflexivity).
  destruct (done_at ctx (now w)); [exact Hpoll |].
  assert (adds no_order w (requested E GET_servers (polled ctx w))) as Hquery.
  { eapply adds_trans; [exact Hpoll |]. apply adds_requested. reflexivity. }
  destruct (poll_result E serviceID (queries w)); [exact Hquery |].
  eapply adds_trans; [| apply IH].
  eapply adds_trans; [exact Hquery |]. apply adds_slept. reflexivity.
Qed.

Lemma waitLoop_Ok_ServiceID E ctx serviceID deadline server n w :
  (BareMetalServerResource.waitLoop E n ctx serviceID deadline w).1 = Some (Ok server) →
  Server.ServiceID server = serviceID.
Proof.
  revert w. induction n as [|n IH]; intros w; [discriminate |].
  rewrite waitLoop_step.
  destruct (decide (now w < deadline)); [| discriminate].
  destruct (done_at ctx (now w)); [discriminate |].
  destruct (poll_result E serviceID (queries w)) as [found|] eqn:Hpoll; [| apply IH].
  intros [= <-]. unfold poll_result in Hpoll.
  destruct (servers_at E (queries w)); [| discriminate].
  eapply scanServers_ServiceID, Hpoll.
Qed.

Lemma waitForServerProvisioning_no_order E ctx serviceID timeout w :
  adds no_order w
    (BareMetalServerResource.waitForServerProvisioning E ctx serviceID timeout w).2.
Proof. rewrite waitForServerProvisioning_run. apply waitLoop_no_order. Qed.

Lemma waitForServerProvisioning_Ok_ServiceID E ctx serviceID timeout server w :
  (BareMetalServerResource.waitForServerProvisioning E ctx serviceID timeout w).1
    = Ok server →
  Server.ServiceID server = serviceID.
Proof.
  rewrite waitForServerProvisioning_run. cbv zeta. cbn [fst snd].
  destruct (BareMetalServerResource.waitLoop E _ ctx serviceID _ w).1
    as [r|] eqn:Hloop; [| discriminate].
  intros ->. eapply waitLoop_Ok_ServiceID, Hloop.
Qed.

Lemma finishCreate_spec E data server w :
  let run := BareMetalServerResource.finishCreate E data server w in
  State run.1 = Some (BareMetalServerResource.updateModelFromServer data server)
  ∧ HasError (Diagnostics run.1) = false
  ∧ adds no_order w run.2.
Proof.
  unfold BareMetalServerResource.finishCreate, mbind, M_bind.
  destruct (negb (IsNull (BareMetalServerResourceModel.FriendlyName data))).
  - unfold UpdateServerFriendlyName, mbind, M_bind, request. cbn [fst snd mret M_ret].
    split; [reflexivity |]. split.
    + destruct (friendly_name_at E _ _ _); reflexivity.
    + eexists [_]. split; [reflexivity |]. repeat constructor.
  - cbn. split; [reflexivity |]. split; [reflexivity | apply adds_refl].
Qed.

(* Create from the wait on, by the outcome of the wait. *)
Lemma awaitServer_spec E ctx data serviceID w :
  let waited := BareMetalServerResource.waitForServerProvisioning
                  E ctx serviceID (30 * time_Minute) w in
  let run := BareMetalServerResource.awaitServer E ctx data serviceID w in
  adds no_order w run.2
  ∧ match waited.1 with
    | Err err =>
        run.1 = failed [BareMetalServerResource.provisioningTimeout serviceID err]
    | Ok server =>
        State run.1 = Some (BareMetalServerResource.updateModelFromServer data server)
        ∧ HasError (Diagnostics run.1) = false
        ∧ Server.ServiceID server = serviceID
    end.
Proof.
  cbv zeta. unfold BareMetalServerResource.awaitServer, mbind, M_bind.
  pose proof (waitForServerProvisioning_no_order E ctx serviceID (30 * time_Minute) w)
    as Hwait.
  pose proof (λ server, waitForServerProvisioning_Ok_ServiceID
                          E ctx serviceID (30 * time_Minute) server w) as Hid.
  destruct (BareMetalServerResource.waitForServerProvisioning E ctx serviceID _ w)
    as [[server|err] w1]; cbn [fst snd] in *.
  - destruct (finishCreate_spec E data server w1) as (Hstate & Hdiag & Hadds).
    split; [eapply adds_trans; eassumption |].
    split; [exact Hstate |]. split; [exact Hdiag |]. apply Hid. reflexivity.
  - split; [exact Hwait | reflexivity].
Qed.

(* Create from the order on, by the answer to the order. *)
Lemma orderAndProvision_run E ctx data req w :
  BareMetalServerResource.orderAndProvision E ctx data req w =
  match order_at E (submitted w) req with
  | Err err =>
      (failed [BareMetalServerResource.orderFailed err], requested E (POST_order req) w)
  | Ok orderResp =>
      match ServerOrderResponse.OrderServiceIDs orderResp with
      | [] => (failed [BareMetalServerResource.noServiceIDs orderResp],
               requested E (POST_order req) w)
      | serviceID :: _ =>
          BareMetalServerResource.awaitServer E ctx data serviceID
            (requested E (POST_order req) w)
      end
  end.
Proof.
  unfold BareMetalServerResource.orderAndProvision, OrderServer, mbind, M_bind.
  change (request E (POST_order req) w)
    with (submitted w, requested E (POST_order req) w).
  cbn [mret M_ret].
  destruct (order_at E (submitted w) req) as [orderResp|err]; [| reflexivity].
  destruct (ServerOrderResponse.OrderServiceIDs orderResp); reflexivity.
Qed.

Lemma orderAndProvision_trace E ctx data req w :
  ∃ after,
    trace (BareMetalServerResource.orderAndProvision E ctx data req w).2
      = after ++ EvCall (now w) (POST_order req) :: trace w
    ∧ Forall no_order after.
Proof.
  rewrite orderAndProvision_run.
  destruct (order_at E (submitted w) req) as [orderResp|err];
    [| exists []; split; [reflexivity | constructor]].
  destruct (ServerOrderResponse.OrderServiceIDs orderResp) as [|serviceID ids];
    [exists []; split; [reflexivity | constructor] |].
  destruct (awaitServer_spec E ctx data serviceID (requested E (POST_order req) w))
    as [(after & Htrace & Hafter) _].
  exists after. split; [| exact Hafter]. rewrite Htrace. reflexivity.
Qed.

Lemma orderFailed_isError err :
  isError (BareMetalServerResource.orderFailed err) = true.
Proof.
  unfold BareMetalServerResource.orderFailed.
  destruct (_ || _); reflexivity.
Qed.

(* Create up to the order: it stops with an error before any order or
   query, or it reaches the order with a request that carries the
   identifiers of the resolved labels. *)
Lemma Create_to_order E ctx data w :
  let run := BareMetalServerResource.Create E ctx data w in
  (State run.1 = None ∧ HasError (Diagnostics run.1) = true ∧ adds validating w run.2)
  ∨ ∃ req w0,
      adds validating w w0
      ∧ run = BareMetalServerResource.orderAndProvision E ctx data req w0
      ∧ match BareMetalServerResourceModel.SSHKeyLabels data with
        | Known labels =>
            labels_resolved E (lookups w) labels (ServerOrderRequest.SSHKeyIDs req)
        | _ => ServerOrderRequest.SSHKeyIDs req = []
        end.
Proof.
  cbv zeta. unfold BareMetalServerResource.Create, mbind, M_bind.
  rewrite FindSKUByProductName_run.
  set (instanceType := ValueString (BareMetalServerResourceModel.InstanceType data)).
  set (location := ValueString (BareMetalServerResourceModel.Location data)).
  set (w1 := requested E GET_inventory w).
  assert (adds validating w w1) as H1 by (apply adds_requested; split; reflexivity).
  assert (lookups w1 = lookups w) as Hl1 by reflexivity.
  destruct (match inventory_at E (calls_to ListInventory (trace w)) with
            | Ok _ => _ | Err _ => _ end) as [sku|err].
  2:{ left. rewrite GetInventory_run.
      assert (adds validating w (requested E GET_inventory w1)) as H2.
      { eapply adds_trans; [exact H1 |]. apply adds_requested. split; reflexivity. }
      destruct (inventory_at E (calls_to ListInventory (trace w1)));
        (split; [reflexivity |]; split; [reflexivity | exact H2]). }
  unfold GetAddons, mbind, M_bind.
  change (request E (GET_list_addons instanceType location) w1)
    with (calls_to ListAddons (trace w1),
          requested E (GET_list_addons instanceType location) w1).
  cbn [mret M_ret].
  set (w2 := requested E (GET_list_addons instanceType location) w1).
  assert (adds validating w w2) as H2.
  { eapply adds_trans; [exact H1 |]. apply adds_requested. split; reflexivity. }
  assert (lookups w2 = lookups w) as Hl2 by reflexivity.
  destruct (addons_at E (calls_to ListAddons (trace w1)) instanceType location)
    as [addons|osErr].
  2:{ left. split; [reflexivity |]. split; [reflexivity | exact H2]. }
  destruct (BareMetalServerResource.selectOS _ _ []) as [[os|] names].
  2:{ left. split; [reflexivity |]. split; [reflexivity | exact H2]. }
  unfold BareMetalServerResource.submitOrder.
  destruct (BareMetalServerResourceModel.SSHKeyLabels data) as [| |labels] eqn:Hlabels.
  - right. eexists _, w2. split; [exact H2 |]. split; reflexivity.
  - left. split; [reflexivity |]. split; [reflexivity | exact H2].
  - unfold mbind, M_bind.
    destruct (resolveSSHKeyIDs_spec E labels [] w2) as [Hadds Hres].
    destruct (BareMetalServerResource.resolveSSHKeyIDs E labels [] w2)
      as [[ids|[label err]] w3]; cbn [fst snd] in *.
    + right. eexists _, w3.
      split; [eapply adds_trans; eassumption |]. split; [reflexivity |].
      destruct Hres as (new & Hids & Hresolved). simpl in Hids. subst new.
      rewrite Hl2 in Hresolved.
      destruct (decide (0 < length ids)%nat) as [_|Hempty]; [exact Hresolved |].
      destruct ids; [exact Hresolved | simpl in Hempty; lia].
    + left. split; [reflexivity |]. split; [reflexivity |].
      eapply adds_trans; eassumption.
Qed.

(* What Create adds to the trace: requests of the validation phase only,
   and then Create has failed; or those, the one order, and whatever
   follows the order. *)
Lemma Create_shape E ctx data w :
  let run := BareMetalServerResource.Create E ctx data w in
  ∃ evs, trace run.2 = evs ++ trace w
    ∧ ((Forall validating evs ∧ State run.1 = None
        ∧ HasError (Diagnostics run.1) = true)
       ∨ ∃ req w0 before after,
           trace w0 = before ++ trace w
           ∧ Forall validating before ∧ Forall no_order after
           ∧ evs = after ++ EvCall (now w0) (POST_order req) :: before
           ∧ run = BareMetalServerResource.orderAndProvision E ctx data req w0
           ∧ match BareMetalServerResourceModel.SSHKeyLabels data with
             | Known labels =>
                 labels_resolved E (lookups w) labels (ServerOrderRequest.SSHKeyIDs req)
             | _ => ServerOrderRequest.SSHKeyIDs req = []
             end).
Proof.
  cbv zeta.
  destruct (Create_to_order E ctx data w)
    as [(Hstate & Hdiag & evs & Htrace & Hevs)
       |(req & w0 & (before & Hbefore & Hval) & Hrun & Hlabels)].
  - exists evs. split; [exact Htrace |]. left. repeat split; assumption.
  - destruct (orderAndProvision_trace E ctx data req w0) as (after & Hafter & Hno).
    exists (after ++ EvCall (now w0) (POST_order req) :: before). split.
    + rewrite Hrun, Hafter, Hbefore, <- app_assoc. reflexivity.
    + right. exists req, w0, before, after. repeat split; assumption.
Qed.

Lemma validating_no_order evs : Forall validating evs → Forall no_order evs.
Proof. intros Hevs. eapply Forall_impl; [exact Hevs |]. intros e [Ho _]. exact Ho. Qed.

Lemma no_order_not_in evs t req :
  Forall no_order evs → EvCall t (POST_order req) ∉ evs.
Proof.
  intros Hevs Hin. rewrite Forall_forall in Hevs.
  specialize (Hevs _ Hin). discriminate Hevs.
Qed.

(* The order of a run of Create that has one. *)
Lemma order_in_shape before after t0 req0 t req :
  Forall validating before → Forall no_order after →
  EvCall t (POST_order req) ∈ after ++ EvCall t0 (POST_order req0) :: before →
  t = t0 ∧ req = req0.
Proof.
  intros Hbefore Hafter [Hin|Hin]%elem_of_app.
  - exfalso. exact (no_order_not_in after t req Hafter Hin).
  - apply elem_of_cons in Hin as [Heq|Hin]; [injection Heq; auto |].
    exfalso. exact (no_order_not_in before t req (validating_no_order _ Hbefore) Hin).
Qed.

Lemma calls_to_order_shape before after t0 req0 :
  Forall validating before → Forall no_order after →
  calls_to SubmitOrder (after ++ EvCall t0 (POST_order req0) :: before) = 1%nat.
Proof.
  intros Hbefore Hafter.
  change (EvCall t0 (POST_order req0) :: before)
    with ([EvCall t0 (POST_order req0)] ++ before).
  rewrite !calls_to_app, (calls_to_none SubmitOrder after Hafter),
    (calls_to_none SubmitOrder before (validating_no_order _ Hbefore)).
  reflexivity.
Qed.

(* The scan of GetSSHKeyByLabel against the list. *)
Lemma scanSSHKeys_first sshKeys label key :
  scanSSHKeys sshKeys label = Some key ↔ first_with_label sshKeys label key.
Proof.
  induction sshKeys as [|k rest IH]; simpl.
  - split; [discriminate |]. intros (before & after & Heq & _).
    destruct before; discriminate.
  - destruct (decide (SSHKey.Label k = label)) as [Hk|Hk].
    + split.
      * intros [= <-]. exists [], rest. split; [reflexivity |]. split; [exact Hk | constructor].
      * intros (before & after & Heq & _ & Hbefore).
        destruct before as [|other before]; simpl in Heq.
        -- congruence.
        -- injection Heq as <- _. apply Forall_cons in Hbefore as [Hother _].
           contradiction.
    + rewrite IH. split.
      * intros (before & after & -> & Hlabel & Hbefore).
        exists (k :: before), after. split; [reflexivity |]. split; [exact Hlabel |].
        constructor; assumption.
      * intros (before & after & Heq & Hlabel & Hbefore).
        destruct before as [|other before]; simpl in Heq.
        -- injection Heq as -> _. contradiction.
        -- injection Heq as <- ->. apply Forall_cons in Hbefore as [_ Hbefore].
           exists before, after. split; [reflexivity |]. split; assumption.
Qed.

Lemma scanSSHKeys_none sshKeys label :
  Forall (λ key, SSHKey.Label key ≠ label) sshKeys → scanSSHKeys sshKeys label = None.
Proof.
  induction 1 as [|k rest Hk _ IH]; simpl; [reflexivity |].
  destruct (decide (SSHKey.Label k = label)); [contradiction | exact IH].
Qed.

Lemma ssh_key_lookup_listed E label k key :
  ssh_key_lookup E label k = Some key ↔ listed E k label key.
Proof.
  unfold ssh_key_lookup, listed. destruct (ssh_keys_at E k) as [sshKeys|err].
  - rewrite scanSSHKeys_first. split.
    + intros Hfirst. exists sshKeys. split; [reflexivity | exact Hfirst].
    + intros (l & [= <-] & Hfirst). exact Hfirst.
  - split; [discriminate |]. intros (l & Heq & _). discriminate Heq.
Qed.

Lemma ssh_key_lookup_unlisted E label k :
  unlisted E k label → ssh_key_lookup E label k = None.
Proof.
  unfold ssh_key_lookup, unlisted. destruct (ssh_keys_at E k) as [sshKeys|err].
  - apply scanSSHKeys_none.
  - reflexivity.
Qed.

(* The loop over the labels when every label is listed at its fetch: it
   ends with the identifiers of the listed keys, in the order of the
   labels. *)
Lemma resolveSSHKeyIDs_listed E labels : ∀ keys acc w,
  length keys = length labels →
  (∀ (i : nat) label key, labels !! i = Some label → keys !! i = Some key →
     listed E (lookups w + i) label key) →
  (BareMetalServerResource.resolveSSHKeyIDs E labels acc w).1
  = inl (acc ++ (SSHKey.ID <$> keys)).
Proof.
  induction labels as [|label rest IH]; intros [|key keys] acc w Hlen Hall;
    try discriminate Hlen.
  - simpl. rewrite app_nil_r. reflexivity.
  - cbn [BareMetalServerResource.resolveSSHKeyIDs]. unfold mbind, M_bind.
    rewrite GetSSHKeyByLabel_run.
    pose proof (Hall 0%nat label key eq_refl eq_refl) as Hfirst.
    rewrite Nat.add_0_r in Hfirst. apply ssh_key_lookup_listed in Hfirst.
    unfold ssh_key_lookup in Hfirst.
    destruct (ssh_keys_at E (lookups w)) as [sshKeys|err]; [| discriminate].
    rewrite Hfirst. cbn [fst snd mret M_ret]. rewrite (IH keys).
    + rewrite fmap_cons, <- app_assoc. reflexivity.
    + simpl in Hlen. lia.
    + intros i l k Hl Hk. rewrite requested_lookups.
      replace (S (lookups w) + i)%nat with (lookups w + S i)%nat by lia.
      apply Hall; assumption.
Qed.

(* The loop over the operating systems finds a product when one has the
   name. *)
Lemma selectOS_finds products osName os : ∀ names,
  os ∈ products → OperatingSystemItem.Name os = osName →
  ∃ found, (BareMetalServerResource.selectOS products osName names).1 = Some found.
Proof.
  induction products as [|osOption rest IH]; intros names Hin Hname.
  - inversion Hin.
  - simpl. destruct (decide (OperatingSystemItem.Name osOption = osName)) as [_|Hne].
    + eexists. reflexivity.
    + apply elem_of_cons in Hin as [->|Hin]; [contradiction |].
      apply IH; assumption.
Qed.

(* Create with both validations passing and every label listed: it gets
   to the order, with the identifiers of the listed keys. *)
Lemma Create_reaches_order E ctx data w labels keys :
  BareMetalServerResourceModel.SSHKeyLabels data = Known labels →
  validation_passes E data w →
  length keys = length labels →
  (∀ (i : nat) label key, labels !! i = Some label → keys !! i = Some key →
     listed E (lookups w + i) label key) →
  ∃ req w0 before,
    trace w0 = before ++ trace w
    ∧ BareMetalServerResource.Create E ctx data w
      = BareMetalServerResource.orderAndProvision E ctx data req w0
    ∧ ServerOrderRequest.SSHKeyIDs req = SSHKey.ID <$> keys.
Proof.
  intros Hlabels [(inventory & entry & Hinv & Hin & Hq)
                    (addons & os & Haddons & Hos & Hname)] Hlen Hall.
  unfold BareMetalServerResource.Create, mbind, M_bind.
  rewrite FindSKUByProductName_run, Hinv.
  set (instanceType := ValueString (BareMetalServerResourceModel.InstanceType data)) in *.
  set (location := ValueString (BareMetalServerResourceModel.Location data)) in *.
  set (w1 := requested E GET_inventory w).
  destruct (scanInventory inventory instanceType location) as [sku|] eqn:Hscan.
  2:{ exfalso. apply scanInventory_None in Hscan. rewrite Forall_forall in Hscan.
      exact (Hscan entry Hin Hq). }
  unfold GetAddons, mbind, M_bind.
  change (request E (GET_list_addons instanceType location) w1)
    with (calls_to ListAddons (trace w1),
          requested E (GET_list_addons instanceType location) w1).
  cbn [mret M_ret fst snd].
  change (calls_to ListAddons (trace w1)) with (calls_to ListAddons (trace w)).
  rewrite Haddons.
  set (w2 := requested E (GET_list_addons instanceType location) w1).
  destruct (selectOS_finds _ _ os [] Hos Hname) as [found Hfound].
  destruct (BareMetalServerResource.selectOS _ _ []) as [selected names].
  cbn [fst] in Hfound. subst selected.
  unfold BareMetalServerResource.submitOrder. rewrite Hlabels.
  unfold mbind, M_bind.
  assert (lookups w2 = lookups w) as Hl2 by reflexivity.
  pose proof (resolveSSHKeyIDs_listed E labels keys [] w2 Hlen) as Hids.
  rewrite Hl2 in Hids. specialize (Hids Hall). rewrite app_nil_l in Hids.
  destruct (resolveSSHKeyIDs_spec E labels [] w2) as [(evs & Hevs & _) _].
  destruct (BareMetalServerResource.resolveSSHKeyIDs E labels [] w2) as [r w3].
  cbn [fst snd] in *. subst r.
  eexists _, w3, (evs ++ [EvCall (now w1) (GET_list_addons instanceType location);
                          EvCall (now w) GET_inventory]).
  split; [rewrite Hevs, <- app_assoc; reflexivity |].
  split; [reflexivity |].
  destruct (decide (0 < length (SSHKey.ID <$> keys))%nat) as [_|Hempty]; [reflexivity |].
  destruct keys; [reflexivity | simpl in Hempty; lia].
Qed.

(** C7. When Create is given SSH key labels, it resolves each of them by
    a lookup of exactly that label in the credential list. An order that
    it submits carries one identifier per label: that of the first key
    carrying the label in the list fetched for the label. If the fetch
    for some label fails or its list holds no key with that label, Create
    ends with an error diagnostic and without state, and no order is
    submitted. And the lookup does resolve what is listed: when the two
    validations before it pass and every label has a key in the list
    fetched for it, Create submits the order, with the identifiers of the
    first such keys, label by label. *)
Theorem ssh_labels_resolved_before_order E ctx data w labels :
  BareMetalServerResourceModel.SSHKeyLabels data = Known labels →
  let run := BareMetalServerResource.Create E ctx data w in
  ∃ evs, trace run.2 = evs ++ trace w
    ∧ (∀ t req, EvCall t (POST_order req) ∈ evs →
         length (ServerOrderRequest.SSHKeyIDs req) = length labels
         ∧ ∀ (i : nat) label, labels !! i = Some label →
             ∃ key, listed E (lookups w + i) label key
               ∧ ServerOrderRequest.SSHKeyIDs req !! i = Some (SSHKey.ID key))
    ∧ ((∃ (i : nat) label, labels !! i = Some label
          ∧ unlisted E (lookups w + i) label) →
       calls_to SubmitOrder evs = 0%nat
       ∧ State run.1 = None
       ∧ HasError (Diagnostics run.1) = true)
    ∧ (∀ keys : list SSHKey.t,
         validation_passes E data w →
         length keys = length labels →
         (∀ (i : nat) label key, labels !! i = Some label → keys !! i = Some key →
            listed E (lookups w + i) label key) →
         calls_to SubmitOrder evs = 1%nat
         ∧ ∃ t req, EvCall t (POST_order req) ∈ evs
             ∧ ServerOrderRequest.SSHKeyIDs req = SSHKey.ID <$> keys).
Proof.
  intros Hlabels. cbv zeta.
  destruct (Create_shape E ctx data w) as (evs & Htrace & Hshape).
  exists evs. split; [exact Htrace |].
  assert (∀ keys : list SSHKey.t,
            validation_passes E data w →
            length keys = length labels →
            (∀ (i : nat) label key, labels !! i = Some label → keys !! i = Some key →
               listed E (lookups w + i) label key) →
            ∃ t req after before,
              evs = after ++ EvCall t (POST_order req) :: before
              ∧ ServerOrderRequest.SSHKeyIDs req = SSHKey.ID <$> keys) as Hreach.
  { intros keys Hval Hlen Hall.
    destruct (Create_reaches_order E ctx data w labels keys Hlabels Hval Hlen Hall)
      as (req & w0 & before & Hw0 & Hrun & Hids).
    destruct (orderAndProvision_trace E ctx data req w0) as (after & Hafter & _).
    exists (now w0), req, after, before. split; [| exact Hids].
    rewrite Hrun, Hafter, Hw0 in Htrace.
    change (after ++ EvCall (now w0) (POST_order req) :: before ++ trace w)
      with (after ++ (EvCall (now w0) (POST_order req) :: before) ++ trace w) in Htrace.
    rewrite app_assoc in Htrace. apply app_inv_tail in Htrace. symmetry. exact Htrace. }
  destruct Hshape as [(Hval & Hstate & Hdiag)
                     |(req0 & w0 & before & after & _ & Hbefore & Hafter & -> & _ & Hres)].
  - split; [| split].
    + intros t req Hin. exfalso.
      exact (no_order_not_in evs t req (validating_no_order _ Hval) Hin).
    + intros _. split; [| split; assumption].
      apply calls_to_none, validating_no_order, Hval.
    + intros keys Hpass Hlen Hall. exfalso.
      destruct (Hreach keys Hpass Hlen Hall) as (t & req & aft & bef & Hevs & _).
      apply (no_order_not_in evs t req (validating_no_order _ Hval)).
      rewrite Hevs. apply elem_of_app. right. constructor.
  - rewrite Hlabels in Hres. split; [| split].
    + intros t req Hin.
      destruct (order_in_shape before after _ req0 t req Hbefore Hafter Hin) as [_ ->].
      destruct Hres as [Hlen Hres]. split; [exact Hlen |]. intros i label Hi.
      destruct (Hres i label Hi) as (key & Hkey & _ & Hid).
      exists key. split; [apply ssh_key_lookup_listed, Hkey | exact Hid].
    + intros (i & label & Hi & Hnone). exfalso.
      destruct Hres as [_ Hres]. destruct (Hres i label Hi) as (key & Hkey & _).
      apply ssh_key_lookup_unlisted in Hnone. congruence.
    + intros keys Hpass Hlen Hall.
      split; [exact (calls_to_order_shape before after (now w0) req0 Hbefore Hafter) |].
      destruct (Hreach keys Hpass Hlen Hall) as (t & req & aft & bef & Hevs & Hids).
      exists t, req. split; [| exact Hids].
      rewrite Hevs. apply elem_of_app. right. constructor.
Qed.

(** C8. Create submits at most one order. When the order is answered with
    an empty sequence of service identifiers, Create fails with an error,
    the order is the last thing it did and the server list was never
    queried. When the sequence is not empty, Create waits for the server
    with the first identifier of the sequence: a failed wait gives the
    provisioning diagnostic for that identifier, a successful one the
    state of the server found, whose service identifier is that first
    entry. *)
Theorem order_submitted_once E ctx data w :
  let run := BareMetalServerResource.Create E ctx data w in
  ∃ evs, trace run.2 = evs ++ trace w
    ∧ (calls_to SubmitOrder evs ≤ 1)%nat
    ∧ ∀ t req orderResp,
        EvCall t (POST_order req) ∈ evs →
        order_at E (submitted w) req = Ok orderResp →
        calls_to SubmitOrder evs = 1%nat
        ∧ match ServerOrderResponse.OrderServiceIDs orderResp with
          | [] =>
              run.1 = failed [BareMetalServerResource.noServiceIDs orderResp]
              ∧ HasError (Diagnostics run.1) = true
              ∧ head evs = Some (EvCall t (POST_order req))
              ∧ calls_to ListServers evs = 0%nat
          | serviceID :: _ =>
              ∃ w0, adds validating w w0
                ∧ match (BareMetalServerResource.waitForServerProvisioning E ctx
                           serviceID (30 * time_Minute)
                           (requested E (POST_order req) w0)).1 with
                  | Err err =>
                      run.1 = failed
                        [BareMetalServerResource.provisioningTimeout serviceID err]
                  | Ok server =>
                      State run.1 =
                        Some (BareMetalServerResource.updateModelFromServer data server)
                      ∧ BareMetalServerResourceModel.ServiceID
                          (BareMetalServerResource.updateModelFromServer data server)
                        = Known serviceID
                      ∧ HasError (Diagnostics run.1) = false
                  end
          end.
Proof.
  cbv zeta.
  destruct (Create_shape E ctx data w) as (evs & Htrace & Hshape).
  exists evs. split; [exact Htrace |].
  destruct Hshape as [(Hval & Hstate & Hdiag)
                     |(req0 & w0 & before & after & Hw0 & Hbefore & Hafter & -> & Hrun & _)].
  - split.
    + rewrite (calls_to_none SubmitOrder evs (validating_no_order _ Hval)). lia.
    + intros t req orderResp Hin. exfalso.
      exact (no_order_not_in evs t req (validating_no_order _ Hval) Hin).
  - pose proof (calls_to_order_shape before after (now w0) req0 Hbefore Hafter) as Hone.
    split; [lia |].
    intros t req orderResp Hin Hanswer. split; [exact Hone |].
    destruct (order_in_shape before after _ req0 t req Hbefore Hafter Hin) as [-> ->].
    assert (submitted w0 = submitted w) as Hsub.
    { unfold submitted. rewrite Hw0, calls_to_app,
        (calls_to_none SubmitOrder before (validating_no_order _ Hbefore)).
      reflexivity. }
    assert (trace (BareMetalServerResource.Create E ctx data w).2
            = (after ++ [EvCall (now w0) (POST_order req0)]) ++ trace w0) as Htrace0.
    { rewrite Htrace, Hw0, <- !app_assoc. reflexivity. }
    rewrite Hrun in *. rewrite orderAndProvision_run, Hsub, Hanswer in *.
    destruct (ServerOrderResponse.OrderServiceIDs orderResp) as [|serviceID ids].
    + cbn [fst snd] in *. split; [reflexivity |]. split; [reflexivity |].
      rewrite requested_trace in Htrace0.
      change (EvCall (now w0) (POST_order req0) :: trace w0)
        with ([EvCall (now w0) (POST_order req0)] ++ trace w0) in Htrace0.
      apply app_inv_tail in Htrace0. destruct after as [|e after].
      * split; [reflexivity |].
        change (calls_to ListServers ([EvCall (now w0) (POST_order req0)] ++ before)
                = 0%nat).
        rewrite calls_to_app.
        change (calls_to ListServers [EvCall (now w0) (POST_order req0)]) with 0%nat.
        apply calls_to_none. eapply Forall_impl; [exact Hbefore |].
        intros e [_ Hq]. exact Hq.
      * apply (f_equal length) in Htrace0. rewrite length_app in Htrace0.
        simpl in Htrace0. lia.
    + exists w0. split; [exists before; split; assumption |].
      destruct (awaitServer_spec E ctx data serviceID
                  (requested E (POST_order req0) w0)) as [_ Hcases].
      destruct (BareMetalServerResource.waitForServerProvisioning E ctx serviceID _ _).1
        as [server|err].
      * destruct Hcases as (Hstate & Hdiag & Hid).
        split; [exact Hstate |]. split; [| exact Hdiag].
        simpl. unfold Int64Value. rewrite Hid. reflexivity.
      * exact Hcases.
Qed.

(* Witness of C7: the labels deploy and missing against a credential
   list that holds deploy only, and the label deploy alone against it. *)
Lemma ssh_labels_resolved_before_order_witness :
  (let run := BareMetalServerResource.Create
                (sampleEnv stockedInventory [500] serversAfter3 [deployKey])
                neverCancelled
                (samplePlan "c1.small" "NYC1" (Known ["deploy"; "missing"]))
                startWorld in
   State run.1 = None ∧ HasError (Diagnostics run.1) = true)
  ∧ (let run := BareMetalServerResource.Create
                  (sampleEnv stockedInventory [500] serversAfter3 [deployKey])
                  neverCancelled
                  (samplePlan "c1.small" "NYC1" (Known ["deploy"]))
                  startWorld in
     ∃ t req, EvCall t (POST_order req) ∈ trace run.2
       ∧ ServerOrderRequest.SSHKeyIDs req = [11]).
Proof.
  split.
  - destruct (ssh_labels_resolved_before_order
                (sampleEnv stockedInventory [500] serversAfter3 [deployKey])
                neverCancelled
                (samplePlan "c1.small" "NYC1" (Known ["deploy"; "missing"]))
                startWorld ["deploy"; "missing"] eq_refl)
      as (evs & _ & _ & Hfail & _).
    destruct Hfail as (_ & Hstate & Hdiag).
    + exists 1%nat, "missing". split; [reflexivity |].
      repeat constructor. discriminate.
    + split; assumption.
  - destruct (ssh_labels_resolved_before_order
                (sampleEnv stockedInventory [500] serversAfter3 [deployKey])
                neverCancelled
                (samplePlan "c1.small" "NYC1" (Known ["deploy"]))
                startWorld ["deploy"] eq_refl)
      as (evs & Htrace & _ & _ & Hok).
    destruct (Hok [deployKey]) as (_ & t & req & Hin & Hids).
    + split.
      * exists stockedInventory, (sampleItem "c1.small" "NYC1" 3).
        split; [reflexivity |]. split; [constructor |].
        unfold qualifies. simpl. split; [reflexivity |]. split; [left; reflexivity | lia].
      * exists sampleAddons, sampleOS.
        split; [reflexivity |]. split; [constructor | reflexivity].
    + reflexivity.
    + intros [|i] label key Hl Hk; simpl in Hl, Hk.
      * injection Hl as <-. injection Hk as <-.
        exists [deployKey]. split; [reflexivity |].
        exists [], []. split; [reflexivity |]. split; [reflexivity | constructor].
      * rewrite lookup_nil in Hl. discriminate Hl.
    + exists t, req. split; [| exact Hids].
      cbv zeta. rewrite Htrace. apply elem_of_app. left. exact Hin.
Defined.

(* The same run, evaluated: one lookup per label, then the error. *)
Example Create_missing_label :
  BareMetalServerResource.Create
    (sampleEnv stockedInventory [500] serversAfter3 [deployKey]) neverCancelled
    (samplePlan "c1.small" "NYC1" (Known ["deploy"; "missing"])) startWorld
  = (failed [BareMetalServerResource.sshKeyNotFound "missing"
               "SSH key with label 'missing' not found"],
     {| now := 4000000000;
        trace := [EvCall 3000000000 GET_ssh_keys; EvCall 2000000000 GET_ssh_keys;
                  EvCall 1000000000 (GET_list_addons "c1.small" "NYC1");
                  EvCall 0 GET_inventory] |}).
Proof. vm_compute. reflexivity. Qed.

(* Witness of C8: an order answered with no service identifier. *)
Lemma order_submitted_once_witness :
  let run := BareMetalServerResource.Create
               (sampleEnv stockedInventory [] serversAfter3 [])
               neverCancelled (samplePlan "c1.small" "NYC1" Null) startWorld in
  run.1 = failed [BareMetalServerResource.noServiceIDs
                    {| ServerOrderResponse.OrderServiceIDs := [] |}]
  ∧ HasError (Diagnostics run.1) = true.
Proof.
  destruct (order_submitted_once
              (sampleEnv stockedInventory [] serversAfter3 [])
              neverCancelled (samplePlan "c1.small" "NYC1" Null) startWorld)
    as (evs & Htrace & _ & Hcases).
  rewrite app_nil_r in Htrace. subst evs.
  destruct (Hcases 2000000000 (sampleOrder [])
              {| ServerOrderResponse.OrderServiceIDs := [] |})
    as (_ & Hrun & Hdiag & _).
  - vm_compute. constructor.
  - reflexivity.
  - split; assumption.
Defined.

(* An order answered with the identifiers 500 and 501: the server with
   service identifier 500 is waited for and stored. *)
Example Create_first_service_id :
  let run := BareMetalServerResource.Create
               (sampleEnv stockedInventory [500; 501] serversAfter3 [deployKey])
               neverCancelled (samplePlan "c1.small" "NYC1" (Known ["deploy"]))
               startWorld in
  BareMetalServerResourceModel.ServiceID <$> State run.1 = Some (Known 500)
  ∧ BareMetalServerResourceModel.ID <$> State run.1 = Some (Known "srv-2")
  ∧ calls_to SubmitOrder (trace run.2) = 1%nat
  ∧ calls_to ListServers (trace run.2) = 4%nat
  ∧ EvCall 3000000000 (POST_order (sampleOrder [11])) ∈ trace run.2.
Proof. vm_compute. repeat split. do 12 constructor. Qed.

(* --------------------------------------------------------------------- *)
(*  The SSH key resource                                                  *)
(* --------------------------------------------------------------------- *)

Lemma SSHKeyResource_Create_run E data w :
  let label := ValueString (SSHKeyResourceModel.Label data) in
  let createReq :=
    {| SSHKeyCreateRequest.PublicKey := ValueString (SSHKeyResourceModel.PublicKey data);
       SSHKeyCreateRequest.Label := label |} in
  let w1 := requested E (POST_ssh_keys createReq) w in
  SSHKeyResource.Create E data w =
  match ssh_create_at E (calls_to CreateCredential (trace w)) createReq with
  | Err err =>
      (failed [ErrorDiagnostic "SSH Key Creation Failed"
                 ("Unable to create SSH key: " +:+ err)], w1)
  | Ok _ =>
      (match (GetSSHKeyByLabel E label w1).1 with
       | Err err =>
           failed [ErrorDiagnostic "SSH Key Retrieval Failed"
                     ("SSH key created but unable to retrieve details: " +:+ err)]
       | Ok sshKey =>
           {| Diagnostics := [];
              State := Some (SSHKeyResource.updateModelFromSSHKey data sshKey) |}
       end, requested E GET_ssh_keys w1)
  end.
Proof.
  cbv zeta. unfold SSHKeyResource.Create, CreateSSHKey, mbind, M_bind.
  set (createReq := {| SSHKeyCreateRequest.PublicKey := _;
                       SSHKeyCreateRequest.Label := _ |}).
  change (request E (POST_ssh_keys createReq) w)
    with (calls_to CreateCredential (trace w), requested E (POST_ssh_keys createReq) w).
  cbn [mret M_ret].
  destruct (ssh_create_at E _ createReq) as [resp|err]; [| reflexivity].
  rewrite GetSSHKeyByLabel_run. cbn [fst snd].
  destruct (ssh_keys_at E _) as [sshKeys|err]; [| reflexivity].
  destruct (scanSSHKeys sshKeys _); reflexivity.
Qed.




(* The same happens when the label is already taken by an older key and
   the backend accepts the new one: the lookup finds the older key. *)
Example Create_duplicate_label :
  SSHKeyResourceModel.PublicKey <$>
    State (SSHKeyResource.Create
             (sampleEnv [] [] (λ _, Ok [])
                [sampleKey 7 "deploy" "ssh-rsa OLD"; sampleKey 8 "deploy" "ssh-ed25519 NEW"])
             (keyPlan "deploy" "ssh-ed25519 NEW") startWorld).1
  = Some (Known "ssh-rsa OLD").
Proof. reflexivity. Qed.

(* --------------------------------------------------------------------- *)
(*  The model of the server after Create and Read                         *)
(* --------------------------------------------------------------------- *)

Lemma Read_State E data w st :
  State (BareMetalServerResource.Read E data w).1 = Some st →
  ∃ server,
    (GetServerByServiceID E
       (ValueInt64 (BareMetalServerResourceModel.ServiceID data)) w).1 = Ok server
    ∧ st = BareMetalServerResource.updateModelFromServer data server.
Proof.
  unfold BareMetalServerResource.Read, mbind, M_bind.
  destruct (GetServerByServiceID E _ w) as [[server|err] w1]; cbn.
  - intros [= <-]. exists server. split; reflexivity.
  - discriminate.
Qed.

Lemma Create_State E ctx data w st :
  State (BareMetalServerResource.Create E ctx data w).1 = Some st →
  ∃ server, st = BareMetalServerResource.updateModelFromServer data server.
Proof.
  destruct (Create_to_order E ctx data w)
    as [(Hnone & _)|(req & w0 & _ & Hrun & _)]; [congruence |].
  rewrite Hrun, orderAndProvision_run.
  destruct (order_at E (submitted w0) req) as [orderResp|err]; [| discriminate].
  destruct (ServerOrderResponse.OrderServiceIDs orderResp) as [|serviceID ids];
    [discriminate |].
  destruct (awaitServer_spec E ctx data serviceID (requested E (POST_order req) w0))
    as [_ Hcases].
  destruct (BareMetalServerResource.waitForServerProvisioning E ctx serviceID _ _).1
    as [server|err].
  - destruct Hcases as (Hstate & _). rewrite Hstate. intros [= <-]. eauto.
  - rewrite Hcases. discriminate.
Qed.

(* An input field is filled from the server when it is null and the
   server has a value. *)
Lemma filled_if_null (old : tfval string) (fetched : string) :
  (if IsNull old && negb (bool_decide (fetched = ""))
   then StringValue fetched else old)
  = if decide (old = Null ∧ fetched ≠ "") then Known fetched else old.
Proof.
  destruct (decide (old = Null ∧ fetched ≠ "")) as [[-> Hne]|Hno].
  - simpl. rewrite bool_decide_eq_false_2 by exact Hne. reflexivity.
  - destruct old; try reflexivity. simpl.
    destruct (decide (fetched = "")) as [He|Hne].
    + rewrite bool_decide_eq_true_2 by exact He. reflexivity.
    + exfalso. apply Hno. split; [reflexivity | exact Hne].
Qed.

(** C10. updateModelFromServer leaves instance_type, location,
    operating_system and ssh_key_labels as they were, sets the ten
    computed fields from the server record, and writes hostname and
    friendly_name exactly when the field was null and the server's value
    is not empty. The state that Read and Create store is the model
    updated in this way from a fetched server. *)
Theorem updateModelFromServer_frame data server :
  let data' := BareMetalServerResource.updateModelFromServer data server in
  (BareMetalServerResourceModel.InstanceType data'
     = BareMetalServerResourceModel.InstanceType data
   ∧ BareMetalServerResourceModel.Location data'
     = BareMetalServerResourceModel.Location data
   ∧ BareMetalServerResourceModel.OperatingSystem data'
     = BareMetalServerResourceModel.OperatingSystem data
   ∧ BareMetalServerResourceModel.SSHKeyLabels data'
     = BareMetalServerResourceModel.SSHKeyLabels data)
  ∧ (BareMetalServerResourceModel.ID data' = Known (Server.ID server)
     ∧ BareMetalServerResourceModel.ServiceID data' = Known (Server.ServiceID server)
     ∧ BareMetalServerResourceModel.PublicIP data' = Known (Server.PublicIP server)
     ∧ BareMetalServerResourceModel.RootPassword data'
       = Known (Server.RootPassword server)
     ∧ BareMetalServerResourceModel.ServiceDescription data'
       = Known (Server.ServiceDescription server)
     ∧ BareMetalServerResourceModel.PlanID data' = Known (Server.PlanID server)
     ∧ BareMetalServerResourceModel.DatacenterName data'
       = Known (Server.DatacenterName server)
     ∧ BareMetalServerResourceModel.DatacenterID data'
       = Known (Server.DatacenterID server)
     ∧ BareMetalServerResourceModel.LocationID data' = Known (Server.LocationID server)
     ∧ BareMetalServerResourceModel.ServerTypeInternal data'
       = Known (Server.ServerType server))
  ∧ (BareMetalServerResourceModel.Hostname data' =
       if decide (BareMetalServerResourceModel.Hostname data = Null
                  ∧ Server.Hostname server ≠ "")
       then Known (Server.Hostname server)
       else BareMetalServerResourceModel.Hostname data)
  ∧ (BareMetalServerResourceModel.FriendlyName data' =
       if decide (BareMetalServerResourceModel.FriendlyName data = Null
                  ∧ Server.FriendlyName server ≠ "")
       then Known (Server.FriendlyName server)
       else BareMetalServerResourceModel.FriendlyName data)
  ∧ (∀ E w st, State (BareMetalServerResource.Read E data w).1 = Some st →
       ∃ fetched, st = BareMetalServerResource.updateModelFromServer data fetched)
  ∧ (∀ E ctx w st, State (BareMetalServerResource.Create E ctx data w).1 = Some st →
       ∃ fetched, st = BareMetalServerResource.updateModelFromServer data fetched).
Proof.
  cbv zeta. split; [repeat split |]. split; [repeat split |].
  split; [| split; [| split]].
  - apply filled_if_null.
  - apply filled_if_null.
  - intros E w st Hst. destruct (Read_State E data w st Hst) as (fetched & _ & ->).
    eauto.
  - intros E ctx w st Hst. exact (Create_State E ctx data w st Hst).
Qed.

(* Witness of C10: Read of the state of the server with service
   identifier 500, which the server list shows. *)
Lemma updateModelFromServer_frame_witness :
  let data := BareMetalServerResource.updateModelFromServer
                (samplePlan "c1.small" "NYC1" Null) (sampleServer "srv-2" 500) in
  ∃ fetched,
    BareMetalServerResource.updateModelFromServer data (sampleServer "srv-2" 500)
    = BareMetalServerResource.updateModelFromServer data fetched.
Proof.
  cbv zeta.
  destruct (updateModelFromServer_frame
              (BareMetalServerResource.updateModelFromServer
                 (samplePlan "c1.small" "NYC1" Null) (sampleServer "srv-2" 500))
              (sampleServer "srv-2" 500)) as (_ & _ & _ & _ & Hread & _).
  apply (Hread (sampleEnv [] []
                  (λ _, Ok [sampleServer "srv-1" 7; sampleServer "srv-2" 500]) [])
           startWorld).
  reflexivity.
Defined.

(* ===================================================================== *)
(*  Further properties                                                    *)
(* ===================================================================== *)

(* --------------------------------------------------------------------- *)
(*  The resolver and the suggestion lists                                 *)
(* --------------------------------------------------------------------- *)

Lemma scanInventory_is_Some inventory p l :
  is_Some (scanInventory inventory p l) ↔
  ∃ entry, entry ∈ inventory ∧ qualifies p l entry.
Proof.
  split.
  - intros [item Hscan]. apply scanInventory_Some in Hscan.
    destruct Hscan as (before & after & -> & Hq & _).
    exists item. split; [| exact Hq]. apply elem_of_app. right. constructor.
  - intros (entry & Hin & Hq).
    destruct (scanInventory inventory p l) as [item|] eqn:Hscan; [eauto |].
    apply scanInventory_None in Hscan. rewrite Forall_forall in Hscan.
    exfalso. exact (Hscan entry Hin Hq).
Qed.

Lemma FindSKUByProductName_is_Ok E w inventory p l :
  inventory_at E (calls_to ListInventory (trace w)) = Ok inventory →
  (∃ item, (FindSKUByProductName E p l w).1 = Ok item) ↔
  is_Some (scanInventory inventory p l).
Proof.
  intros Hinv. rewrite FindSKUByProductName_run, Hinv. simpl.
  destruct (scanInventory inventory p l) as [item|]; split.
  - eauto.
  - eauto.
  - intros [item Hitem]. discriminate.
  - intros [item Hitem]. discriminate.
Qed.

(** X1. Dropping the location filter never loses a match: when
    FindSKUByProductName finds an item for a product name at a location,
    it also finds one, on the same inventory, for that name with the
    location left empty. *)
Theorem FindSKUByProductName_without_location E w inventory productName locationCode item :
  inventory_at E (calls_to ListInventory (trace w)) = Ok inventory →
  (FindSKUByProductName E productName locationCode w).1 = Ok item →
  ∃ item', (FindSKUByProductName E productName "" w).1 = Ok item'
    ∧ InventoryItem.SkuProductName item' = productName
    ∧ InventoryItem.AutoProvisionQuantity item' > 0.
Proof.
  intros Hinv Hfound.
  assert (is_Some (scanInventory inventory productName "")) as [item' Hscan].
  { apply scanInventory_is_Some.
    assert (is_Some (scanInventory inventory productName locationCode)) as Hsome.
    { apply (FindSKUByProductName_is_Ok E w inventory productName locationCode Hinv).
      eauto. }
    apply scanInventory_is_Some in Hsome as (entry & Hin & Hname & _ & Hqty).
    exists entry. split; [exact Hin |]. split; [exact Hname |]. split; [| exact Hqty].
    right. reflexivity. }
  exists item'. rewrite FindSKUByProductName_run, Hinv. simpl. rewrite Hscan.
  split; [reflexivity |].
  apply scanInventory_Some in Hscan as (_ & _ & _ & (Hname & _ & Hqty) & _).
  split; assumption.
Qed.

(* Witness of X1: c1.small at NYC1 on the inventory of the example. *)
Lemma FindSKUByProductName_without_location_witness :
  ∃ item', (FindSKUByProductName (sampleEnv exampleInventory [] (λ _, Ok []) [])
              "c1.small" "" startWorld).1 = Ok item'
    ∧ InventoryItem.SkuProductName item' = "c1.small"
    ∧ InventoryItem.AutoProvisionQuantity item' > 0.
Proof.
  apply (FindSKUByProductName_without_location
           (sampleEnv exampleInventory [] (λ _, Ok []) []) startWorld
           exampleInventory "c1.small" "NYC1" (sampleItem "c1.small" "NYC1" 3));
    reflexivity.
Defined.

(* One round of the loop over the inventory, on each of the lists. *)
Lemma alternativesStep_locations ty loc acc item :
  BareMetalServerResource.availableLocations
    (BareMetalServerResource.alternativesStep ty loc acc item)
  = BareMetalServerResource.availableLocations acc
    ++ (InventoryItem.LocationCode <$> filter (stocked_type ty) [item]).
Proof.
  unfold BareMetalServerResource.alternativesStep, stocked_type.
  destruct (decide (InventoryItem.AutoProvisionQuantity item > 0)) as [Hq|Hq].
  - simpl. destruct (decide (InventoryItem.SkuProductName item = ty)) as [Hn|Hn].
    + rewrite filter_cons_True by auto. reflexivity.
    + rewrite filter_cons_False by tauto. simpl. rewrite app_nil_r. reflexivity.
  - rewrite filter_cons_False by tauto. simpl. rewrite app_nil_r. reflexivity.
Qed.

Lemma alternativesStep_types ty loc acc item :
  BareMetalServerResource.availableTypes
    (BareMetalServerResource.alternativesStep ty loc acc item)
  = BareMetalServerResource.availableTypes acc
    ++ (InventoryItem.SkuProductName <$> filter (stocked_at loc) [item]).
Proof.
  unfold BareMetalServerResource.alternativesStep, stocked_at.
  destruct (decide (InventoryItem.AutoProvisionQuantity item > 0)) as [Hq|Hq].
  - simpl. destruct (decide (InventoryItem.LocationCode item = loc)) as [Hn|Hn].
    + rewrite filter_cons_True by auto. reflexivity.
    + rewrite filter_cons_False by tauto. simpl. rewrite app_nil_r. reflexivity.
  - rewrite filter_cons_False by tauto. simpl. rewrite app_nil_r. reflexivity.
Qed.

(* The entry of a type in the map, as an optional non-empty list. *)
Lemma alternativesStep_map ty loc acc item t :
  default [] (BareMetalServerResource.typeLocationMap
                (BareMetalServerResource.alternativesStep ty loc acc item) !! t)
  = default [] (BareMetalServerResource.typeLocationMap acc !! t)
    ++ (InventoryItem.LocationCode <$> filter (stocked_type t) [item])
  ∧ (is_Some (BareMetalServerResource.typeLocationMap
                (BareMetalServerResource.alternativesStep ty loc acc item) !! t)
     ↔ is_Some (BareMetalServerResource.typeLocationMap acc !! t)
       ∨ stocked_type t item).
Proof.
  unfold BareMetalServerResource.alternativesStep, stocked_type.
  destruct (decide (InventoryItem.AutoProvisionQuantity item > 0)) as [Hq|Hq].
  - cbn [BareMetalServerResource.typeLocationMap].
    destruct (decide (InventoryItem.SkuProductName item = t)) as [<-|Hn].
    + rewrite lookup_insert_eq, filter_cons_True by auto. simpl. split.
      * f_equal.
        destruct (BareMetalServerResource.typeLocationMap acc
                    !! InventoryItem.SkuProductName item) as [old|] eqn:Hold.
        -- rewrite Hold. reflexivity.
        -- rewrite lookup_insert_eq. reflexivity.
      * split; [auto | eauto].
    + rewrite lookup_insert_ne by exact Hn.
      rewrite filter_cons_False by tauto. simpl. rewrite app_nil_r.
      destruct (BareMetalServerResource.typeLocationMap acc
                  !! InventoryItem.SkuProductName item) as [old|] eqn:Hold.
      * split; [reflexivity | tauto].
      * rewrite lookup_insert_ne by exact Hn. split; [reflexivity | tauto].
  - rewrite filter_cons_False by tauto. simpl. rewrite app_nil_r.
    split; [reflexivity | tauto].
Qed.

Lemma findAlternatives_lists inventory ty loc :
  let alt := BareMetalServerResource.findAlternatives inventory ty loc in
  BareMetalServerResource.availableLocations alt = stockedLocations inventory ty
  ∧ BareMetalServerResource.availableTypes alt = stockedTypes inventory loc
  ∧ ∀ t,
      default [] (BareMetalServerResource.typeLocationMap alt !! t)
        = stockedLocations inventory t
      ∧ (is_Some (BareMetalServerResource.typeLocationMap alt !! t)
         ↔ ∃ item, item ∈ inventory ∧ stocked_type t item).
Proof.
  cbv zeta. unfold BareMetalServerResource.findAlternatives, stockedLocations, stockedTypes.
  induction inventory as [|item inventory IH] using rev_ind.
  - simpl. split; [reflexivity |]. split; [reflexivity |]. intros t.
    rewrite lookup_empty. split; [reflexivity |]. split.
    + intros [x Hx]. discriminate.
    + intros (item & Hin & _). inversion Hin.
  - destruct IH as (Hlocs & Htypes & Hmap).
    rewrite foldl_snoc, !filter_app, !fmap_app.
    rewrite alternativesStep_locations, alternativesStep_types, Hlocs, Htypes.
    split; [reflexivity |]. split; [reflexivity |]. intros t.
    destruct (alternativesStep_map ty loc
                (foldl (BareMetalServerResource.alternativesStep ty loc)
                   BareMetalServerResource.noAlternatives inventory) item t)
      as [Hdef Hsome].
    destruct (Hmap t) as [Hdef0 Hsome0].
    rewrite Hdef, Hdef0, filter_app, fmap_app. split; [reflexivity |].
    rewrite Hsome, Hsome0. split.
    + intros [(x & Hin & Hx)|Hitem].
      * exists x. split; [apply elem_of_app; left; exact Hin | exact Hx].
      * exists item. split; [apply elem_of_app; right; constructor | exact Hitem].
    + intros (x & [Hin|Hin]%elem_of_app & Hx).
      * left. eauto.
      * apply list_elem_of_singleton in Hin. subst x. right. exact Hx.
Qed.

Lemma elem_of_stockedLocations inventory ty l :
  l ∈ stockedLocations inventory ty ↔
  ∃ item, item ∈ inventory ∧ stocked_type ty item ∧ InventoryItem.LocationCode item = l.
Proof.
  unfold stockedLocations. rewrite list_elem_of_fmap. split.
  - intros (item & -> & Hin). apply list_elem_of_filter in Hin as [Hst Hin]. eauto.
  - intros (item & Hin & Hst & <-). exists item. split; [reflexivity |].
    apply list_elem_of_filter. split; assumption.
Qed.

(** X2. The suggestion lists of Create are exact. The locations listed for
    the requested type are the locations of the inventory entries of that
    type with a positive auto-provisionable quantity, in inventory order
    and one per entry; the types listed for the requested location
    likewise; and the map has a key for each type with such an entry,
    holding that type's locations in the same way, so that the list for
    the requested type is its entry in the map. *)
Theorem findAlternatives_exact inventory instanceType location :
  let alt := BareMetalServerResource.findAlternatives inventory instanceType location in
  BareMetalServerResource.availableLocations alt = stockedLocations inventory instanceType
  ∧ BareMetalServerResource.availableTypes alt = stockedTypes inventory location
  ∧ (∀ ty, BareMetalServerResource.typeLocationMap alt !! ty =
           if decide (stockedLocations inventory ty = []) then None
           else Some (stockedLocations inventory ty))
  ∧ BareMetalServerResource.availableLocations alt
    = default [] (BareMetalServerResource.typeLocationMap alt !! instanceType).
Proof.
  cbv zeta.
  destruct (findAlternatives_lists inventory instanceType location)
    as (Hlocs & Htypes & Hmap).
  split; [exact Hlocs |]. split; [exact Htypes |]. split.
  - intros ty. destruct (Hmap ty) as [Hdef Hsome].
    destruct (BareMetalServerResource.typeLocationMap _ !! ty) as [locs|] eqn:Hty.
    + simpl in Hdef. subst locs.
      destruct (decide (stockedLocations inventory ty = [])) as [Hempty|_];
        [| reflexivity].
      exfalso. destruct Hsome as [Hsome _].
      destruct (Hsome (mk_is_Some _ _ eq_refl)) as (item & Hin & Hst).
      assert (InventoryItem.LocationCode item ∈ stockedLocations inventory ty) as Hl.
      { apply elem_of_stockedLocations. eauto. }
      rewrite Hempty in Hl. inversion Hl.
    + simpl in Hdef. rewrite <- Hdef.
      destruct (decide ([] = [])); [reflexivity | contradiction].
  - rewrite Hlocs. destruct (Hmap instanceType) as [Hdef _]. symmetry. exact Hdef.
Qed.

(** X3. The suggestions agree with the resolver. On one inventory, a
    request for a type at a given (non-empty) location is resolved by
    FindSKUByProductName exactly when that location is among the available
    locations that Create lists for the type; and a request that leaves
    the location empty is resolved exactly when the type is a key of the
    map of combinations. *)
Theorem resolution_matches_alternatives E w inventory instanceType locationCode location :
  inventory_at E (calls_to ListInventory (trace w)) = Ok inventory →
  let alt := BareMetalServerResource.findAlternatives inventory instanceType location in
  (locationCode ≠ "" →
   ((∃ item, (FindSKUByProductName E instanceType locationCode w).1 = Ok item)
    ↔ locationCode ∈ BareMetalServerResource.availableLocations alt))
  ∧ ((∃ item, (FindSKUByProductName E instanceType "" w).1 = Ok item)
     ↔ is_Some (BareMetalServerResource.typeLocationMap alt !! instanceType)).
Proof.
  intros Hinv alt.
  destruct (findAlternatives_lists inventory instanceType location)
    as (Hlocs & _ & Hmap).
  fold alt in Hlocs, Hmap. split.
  - intros Hloc.
    rewrite (FindSKUByProductName_is_Ok E w inventory instanceType locationCode Hinv).
    rewrite scanInventory_is_Some, Hlocs, elem_of_stockedLocations.
    split.
    + intros (entry & Hin & Hname & [Hl|Hl] & Hqty); [| contradiction].
      exists entry. repeat split; assumption.
    + intros (entry & Hin & [Hqty Hname] & Hl).
      exists entry. repeat split; auto.
  - rewrite (FindSKUByProductName_is_Ok E w inventory instanceType "" Hinv).
    rewrite scanInventory_is_Some. destruct (Hmap instanceType) as [_ ->].
    split.
    + intros (entry & Hin & Hname & _ & Hqty). exists entry. repeat split; assumption.
    + intros (entry & Hin & [Hqty Hname]). exists entry. repeat split; auto.
Qed.

(* Witness of X3: c1.small on the inventory of the example. *)
Lemma resolution_matches_alternatives_witness :
  let E := sampleEnv exampleInventory [] (λ _, Ok []) [] in
  let alt := BareMetalServerResource.findAlternatives exampleInventory "c1.small" "ORD1" in
  ("NYC1" ≠ "" →
   ((∃ item, (FindSKUByProductName E "c1.small" "NYC1" startWorld).1 = Ok item)
    ↔ "NYC1" ∈ BareMetalServerResource.availableLocations alt))
  ∧ ((∃ item, (FindSKUByProductName E "c1.small" "" startWorld).1 = Ok item)
     ↔ is_Some (BareMetalServerResource.typeLocationMap alt !! "c1.small")).
Proof.
  apply (resolution_matches_alternatives
           (sampleEnv exampleInventory [] (λ _, Ok []) []) startWorld
           exampleInventory "c1.small" "NYC1" "ORD1").
  reflexivity.
Defined.

(* --------------------------------------------------------------------- *)
(*  Operating systems                                                     *)
(* --------------------------------------------------------------------- *)

Lemma selectOS_scan products osName : ∀ names,
  match scanOperatingSystems products osName with
  | Some os =>
      (BareMetalServerResource.selectOS products osName names).1 = Some os
      ∧ OperatingSystemItem.Name os = osName ∧ os ∈ products
  | None =>
      BareMetalServerResource.selectOS products osName names
      = (None, names ++ (OperatingSystemItem.Name <$> products))
  end.
Proof.
  induction products as [|os rest IH]; intros names; simpl.
  - rewrite app_nil_r. reflexivity.
  - destruct (decide (OperatingSystemItem.Name os = osName)) as [Hname|Hname].
    + split; [reflexivity |]. split; [exact Hname | constructor].
    + specialize (IH (names ++ [OperatingSystemItem.Name os])).
      destruct (scanOperatingSystems rest osName) as [found|].
      * destruct IH as (Hsel & Hn & Hin). split; [exact Hsel |].
        split; [exact Hn | constructor; exact Hin].
      * rewrite IH, <- app_assoc. reflexivity.
Qed.

Lemma GetAddons_run E skuProductName locationCode w :
  GetAddons E skuProductName locationCode w =
  (addons_at E (calls_to ListAddons (trace w)) skuProductName locationCode,
   requested E (GET_list_addons skuProductName locationCode) w).
Proof. reflexivity. Qed.

(** X4. The operating system that Create selects in its own loop is the
    one that GetOperatingSystemByName returns for the same catalogue: the
    first product whose name is exactly the requested one. When there is
    none, GetOperatingSystemByName fails and the names that Create reports
    as available are the names of all products, in catalogue order. *)
Theorem GetOperatingSystemByName_agrees E w skuProductName locationCode osName addons :
  addons_at E (calls_to ListAddons (trace w)) skuProductName locationCode = Ok addons →
  let products := OperatingSystemsAddon.Products (AddonsResponse.OperatingSystems addons) in
  match (GetOperatingSystemByName E skuProductName locationCode osName w).1 with
  | Ok os =>
      (BareMetalServerResource.selectOS products osName []).1 = Some os
      ∧ OperatingSystemItem.Name os = osName ∧ os ∈ products
  | Err err =>
      BareMetalServerResource.selectOS products osName []
        = (None, OperatingSystemItem.Name <$> products)
      ∧ err = "operating system '" +:+ osName +:+ "' not found for SKU '"
              +:+ skuProductName +:+ "' in location '" +:+ locationCode +:+ "'"
  end.
Proof.
  intros Haddons products.
  unfold GetOperatingSystemByName, mbind, M_bind.
  rewrite GetAddons_run, Haddons. cbn [fst snd mret M_ret]. fold products.
  pose proof (selectOS_scan products osName []) as Hsel.
  destruct (scanOperatingSystems products osName) as [os|].
  - exact Hsel.
  - split; [exact Hsel | reflexivity].
Qed.

(* Witness of X4: Ubuntu 24.04 in the sample catalogue. *)
Lemma GetOperatingSystemByName_agrees_witness :
  (BareMetalServerResource.selectOS [sampleOS] "Ubuntu 24.04" []).1 = Some sampleOS
  ∧ OperatingSystemItem.Name sampleOS = "Ubuntu 24.04" ∧ sampleOS ∈ [sampleOS].
Proof.
  exact (GetOperatingSystemByName_agrees
           (sampleEnv [] [] (λ _, Ok []) []) startWorld "c1.small" "NYC1"
           "Ubuntu 24.04" sampleAddons eq_refl).
Defined.

(* A list built by appending one converted element per round. *)
Lemma foldl_append_fmap {A B} (f : A → B) (l : list A) (init : list B) :
  foldl (λ acc x, acc ++ [f x]) init l = init ++ (f <$> l).
Proof.
  revert init. induction l as [|x l IH]; intros init; simpl.
  - rewrite app_nil_r. reflexivity.
  - rewrite IH, <- app_assoc. reflexivity.
Qed.

(** X5. The operating systems data source and Create read the catalogue
    alike. For one answer of the backend, the data source lists one entry
    per product, in catalogue order and with every attribute known, and
    Create accepts an operating system name exactly when it is the name of
    a listed entry. *)
Theorem OperatingSystemsDataSource_lists_accepted E w data addons :
  addons_at E (calls_to ListAddons (trace w))
    (ValueString (OperatingSystemsDataSource.ServerTypeName data))
    (ValueString (OperatingSystemsDataSource.Location data)) = Ok addons →
  let products := OperatingSystemsAddon.Products (AddonsResponse.OperatingSystems addons) in
  ∃ st,
    (OperatingSystemsDataSource.Read E data w).1 = {| Diagnostics := []; State := Some st |}
    ∧ OperatingSystemsDataSource.OperatingSystems st
      = OperatingSystemsDataSource.osModel <$> products
    ∧ ∀ osName,
        is_Some (BareMetalServerResource.selectOS products osName []).1
        ↔ Known osName ∈ (OperatingSystemsDataSource.Name
                            <$> OperatingSystemsDataSource.OperatingSystems st).
Proof.
  intros Haddons products.
  unfold OperatingSystemsDataSource.Read, mbind, M_bind.
  rewrite GetAddons_run, Haddons. cbn [fst snd mret M_ret]. fold products.
  eexists. split; [reflexivity |]. cbn [OperatingSystemsDataSource.OperatingSystems].
  rewrite foldl_append_fmap. split; [reflexivity |]. simpl.
  intros osName. rewrite <- list_fmap_compose.
  pose proof (selectOS_scan products osName []) as Hsel.
  destruct (scanOperatingSystems products osName) as [os|] eqn:Hscan.
  - destruct Hsel as (-> & Hname & Hin). split; [| eauto].
    intros _. apply list_elem_of_fmap. exists os. split; [| exact Hin].
    simpl. unfold StringValue. rewrite Hname. reflexivity.
  - rewrite Hsel. cbn [fst]. split; [intros [x Hx]; discriminate |].
    intros Hin. apply list_elem_of_fmap in Hin as (os & Heq & Hin).
    simpl in Heq. injection Heq as Hname. exfalso.
    clear Hsel. induction products as [|p rest IH]; [inversion Hin |].
    simpl in Hscan.
    destruct (decide (OperatingSystemItem.Name p = osName)) as [|Hne]; [discriminate |].
    apply elem_of_cons in Hin as [->|Hin]; [congruence | exact (IH Hscan Hin)].
Qed.

(* Witness of X5: the sample catalogue. *)
Lemma OperatingSystemsDataSource_lists_accepted_witness :
  ∃ st,
    (OperatingSystemsDataSource.Read (sampleEnv [] [] (λ _, Ok []) [])
       {| OperatingSystemsDataSource.ServerTypeName := Known "c1.small";
          OperatingSystemsDataSource.Location := Known "NYC1";
          OperatingSystemsDataSource.OperatingSystems := [];
          OperatingSystemsDataSource.ID := Null |} startWorld).1
    = {| Diagnostics := []; State := Some st |}
    ∧ OperatingSystemsDataSource.OperatingSystems st
      = OperatingSystemsDataSource.osModel <$> [sampleOS]
    ∧ ∀ osName,
        is_Some (BareMetalServerResource.selectOS [sampleOS] osName []).1
        ↔ Known osName ∈ (OperatingSystemsDataSource.Name
                            <$> OperatingSystemsDataSource.OperatingSystems st).
Proof.
  exact (OperatingSystemsDataSource_lists_accepted
           (sampleEnv [] [] (λ _, Ok []) []) startWorld
           {| OperatingSystemsDataSource.ServerTypeName := Known "c1.small";
              OperatingSystemsDataSource.Location := Known "NYC1";
              OperatingSystemsDataSource.OperatingSystems := [];
              OperatingSystemsDataSource.ID := Null |}
           sampleAddons eq_refl).
Defined.

(* --------------------------------------------------------------------- *)
(*  The inventory data source                                             *)
(* --------------------------------------------------------------------- *)

Lemma metadataModel_inj a b :
  InventoryDataSource.metadataModel a = InventoryDataSource.metadataModel b → a = b.
Proof.
  destruct a, b. unfold InventoryDataSource.metadataModel, StringValue; simpl.
  intros [= -> -> ->]. reflexivity.
Qed.

Lemma fmap_metadataModel_inj (l k : list InventoryMetadata.t) :
  InventoryDataSource.metadataModel <$> l = InventoryDataSource.metadataModel <$> k →
  l = k.
Proof.
  revert k. induction l as [|a l IH]; intros [|b k] Heq;
    try (discriminate Heq); [reflexivity |].
  rewrite !fmap_cons in Heq. injection Heq as Hn Hd Hv Hlk.
  f_equal; [| apply IH, Hlk].
  apply metadataModel_inj. unfold InventoryDataSource.metadataModel.
  rewrite Hn, Hd, Hv. reflexivity.
Qed.

Lemma itemModel_inj a b :
  InventoryDataSource.itemModel a = InventoryDataSource.itemModel b → a = b.
Proof.
  destruct a, b. unfold InventoryDataSource.itemModel; simpl.
  rewrite !foldl_append_fmap. simpl. unfold Int64Value, StringValue.
  intros Heq. injection Heq as -> -> -> -> -> -> -> -> -> -> -> -> -> -> -> -> -> -> Hm
    -> -> -> -> ->.
  apply fmap_metadataModel_inj in Hm. subst. reflexivity.
Qed.

(** X6. The inventory data source lists the whole inventory: one item per
    entry of the fetched inventory, in order, whatever its quantities, so
    also the entries without stock that FindSKUByProductName skips; the
    conversion keeps every attribute of the model apart, so that two
    different entries never give the same item; and the entry that the
    resolver picks for a request is among the items listed. *)
Theorem InventoryDataSource_lists_all E w inventory :
  inventory_at E (calls_to ListInventory (trace w)) = Ok inventory →
  ∃ st,
    (InventoryDataSource.Read E w).1 = {| Diagnostics := []; State := Some st |}
    ∧ InventoryDataSource.Items st = InventoryDataSource.itemModel <$> inventory
    ∧ InventoryDataSource.ID st = Known "inventory"
    ∧ (∀ a b, InventoryDataSource.itemModel a = InventoryDataSource.itemModel b → a = b)
    ∧ (∀ productName locationCode item,
         (FindSKUByProductName E productName locationCode w).1 = Ok item →
         InventoryDataSource.itemModel item ∈ InventoryDataSource.Items st).
Proof.
  intros Hinv. unfold InventoryDataSource.Read, mbind, M_bind.
  rewrite GetInventory_run, Hinv. cbn [mret M_ret fst snd].
  eexists. split; [reflexivity |]. cbn [InventoryDataSource.Items InventoryDataSource.ID].
  rewrite foldl_append_fmap. split; [reflexivity |]. split; [reflexivity |].
  split; [exact itemModel_inj |].
  intros p l item. rewrite FindSKUByProductName_run, Hinv. simpl.
  destruct (scanInventory inventory p l) as [found|] eqn:Hscan; [| discriminate].
  intros [= <-]. apply scanInventory_Some in Hscan as (before & after & -> & _).
  apply list_elem_of_fmap. exists found. split; [reflexivity |].
  apply elem_of_app. right. constructor.
Qed.

(* Witness of X6: the inventory of the example, with its entry without
   stock. *)
Lemma InventoryDataSource_lists_all_witness :
  ∃ st,
    (InventoryDataSource.Read (sampleEnv exampleInventory [] (λ _, Ok []) [])
       startWorld).1 = {| Diagnostics := []; State := Some st |}
    ∧ InventoryDataSource.Items st = InventoryDataSource.itemModel <$> exampleInventory.
Proof.
  destruct (InventoryDataSource_lists_all
              (sampleEnv exampleInventory [] (λ _, Ok []) []) startWorld
              exampleInventory eq_refl) as (st & Hrun & Hitems & _).
  exists st. split; assumption.
Defined.

(* --------------------------------------------------------------------- *)
(*  The provider                                                          *)
(* --------------------------------------------------------------------- *)

(** X7. Configure hands out a client exactly when a token is available:
    it fails with an error when the configured token is null or empty and
    ICS_API_TOKEN is empty too, and otherwise the client's token is the
    configured one when that is not empty and the one of the environment
    when it is. The token and the base URL of a client are never empty;
    a null or empty base URL gives the default one. *)
Theorem Configure_token_and_url data ICS_API_TOKEN :
  let configured := ValueString (ICSProvider.APIToken data) in
  match ICSProvider.Configure data ICS_API_TOKEN with
  | inl diags => configured = "" ∧ ICS_API_TOKEN = "" ∧ HasError diags = true
  | inr c =>
      ICSProvider.ClientAPIToken c ≠ ""
      ∧ ICSProvider.ClientAPIToken c
        = (if decide (configured = "") then ICS_API_TOKEN else configured)
      ∧ ICSProvider.ClientBaseURL c ≠ ""
      ∧ ICSProvider.ClientBaseURL c
        = (if decide (ValueString (ICSProvider.BaseURL data) = "")
           then "https://api.ingenuitycloudservices.com"
           else ValueString (ICSProvider.BaseURL data))
  end.
Proof.
  cbv zeta. unfold ICSProvider.Configure.
  destruct (decide (ValueString (ICSProvider.APIToken data) = "")) as [Hcfg|Hcfg].
  - destruct (decide (ICS_API_TOKEN = "")) as [Henv|Henv].
    + repeat split; assumption.
    + simpl. split; [exact Henv |]. split; [reflexivity |].
      destruct (decide (ValueString (ICSProvider.BaseURL data) = "")) as [|Hurl].
      * split; [discriminate | reflexivity].
      * split; [exact Hurl | reflexivity].
  - destruct (decide (ValueString (ICSProvider.APIToken data) = "")); [contradiction |].
    simpl. split; [exact Hcfg |]. split; [reflexivity |].
    destruct (decide (ValueString (ICSProvider.BaseURL data) = "")) as [|Hurl].
    + split; [discriminate | reflexivity].
    + split; [exact Hurl | reflexivity].
Qed.

(* --------------------------------------------------------------------- *)
(*  The provisioning poller: bounds and outcomes                          *)
(* --------------------------------------------------------------------- *)

Lemma waitLoop_queries E ctx serviceID deadline n : ∀ w,
  ∃ q : nat,
    queries (BareMetalServerResource.waitLoop E n ctx serviceID deadline w).2
      = (queries w + q)%nat
    ∧ (q = 0%nat ∨ (Z.of_nat q - 1) * (30 * time_Second) < deadline - now w).
Proof.
  induction n as [|n IH]; intros w.
  - exists 0%nat. split; [simpl; lia | left; reflexivity].
  - rewrite waitLoop_step.
    destruct (decide (now w < deadline)) as [Hlt|_];
      [| exists 0%nat; split; [simpl; lia | left; reflexivity]].
    destruct (done_at ctx (now w));
      [exists 0%nat; split; [cbn [snd]; rewrite polled_queries; lia | left; reflexivity] |].
    destruct (poll_result E serviceID (queries w)).
    + exists 1%nat. split.
      * cbn [snd]. rewrite requested_queries, polled_queries. lia.
      * right. simpl. lia.
    + destruct (IH (slept E (requested E GET_servers (polled ctx w))))
        as (q & Hq & Hbound).
      exists (S q). split.
      * rewrite Hq, slept_queries, requested_queries, polled_queries. lia.
      * right. rewrite slept_now, requested_now_eq, polled_now in Hbound.
        unfold time_Second in *. destruct Hbound as [->|Hbound]; [simpl; lia |].
        lia.
Qed.

(** X8. The wait polls a bounded number of times: between two queries
    there are 30 seconds at least, so waitForServerProvisioning issues q
    queries to the server list only if (q - 1) rounds of 30 seconds fit
    before the deadline. A wait of 30 minutes, the one of Create, issues
    at most 60 queries, however long each of them takes. *)
Theorem wait_queries_bounded E ctx serviceID timeout w :
  let run := BareMetalServerResource.waitForServerProvisioning E ctx serviceID timeout w in
  ∃ q : nat,
    queries run.2 = (queries w + q)%nat
    ∧ Z.of_nat q * (30 * time_Second) < Z.max 0 timeout + 30 * time_Second
    ∧ (timeout = 30 * time_Minute → (q ≤ 60)%nat).
Proof.
  cbv zeta. rewrite waitForServerProvisioning_run. cbv zeta. cbn [fst snd].
  destruct (waitLoop_queries E ctx serviceID (now w + timeout)
              (BareMetalServerResource.waitRounds timeout) w) as (q & Hq & Hbound).
  exists q. split; [exact Hq |]. unfold time_Minute, time_Second in *.
  destruct Hbound as [->|Hbound]; split; lia.
Qed.

(* Witness of X8: the wait of Create against a server list that never
   shows the server. *)
Lemma wait_queries_bounded_witness :
  ∃ q : nat,
    queries (BareMetalServerResource.waitForServerProvisioning
               (sampleEnv [] [] (λ _, Ok []) []) neverCancelled 500
               (30 * time_Minute) startWorld).2 = (queries startWorld + q)%nat
    ∧ (q ≤ 60)%nat.
Proof.
  destruct (wait_queries_bounded (sampleEnv [] [] (λ _, Ok []) []) neverCancelled 500
              (30 * time_Minute) startWorld) as (q & Hq & _ & Hbound).
  exists q. split; [exact Hq | apply Hbound; reflexivity].
Defined.

Lemma waitLoop_outcome E ctx serviceID deadline n : ∀ w,
  let run := BareMetalServerResource.waitLoop E n ctx serviceID deadline w in
  match run.1 with
  | Some (Ok server) =>
      (queries w < queries run.2)%nat
      ∧ poll_result E serviceID (queries run.2 - 1) = Some server
  | Some (Err err) =>
      (err = ctx_Err ctx ∧ done_at ctx (now run.2) = true)
      ∨ (err = BareMetalServerResource.timeoutError serviceID ∧ deadline ≤ now run.2)
  | None => True
  end.
Proof.
  induction n as [|n IH]; intros w; cbv zeta; [exact I |].
  rewrite waitLoop_step.
  destruct (decide (now w < deadline)) as [Hlt|Hge];
    [| right; split; [reflexivity | simpl; lia]].
  destruct (done_at ctx (now w)) eqn:Hdone;
    [left; split; [reflexivity | exact Hdone] |].
  destruct (poll_result E serviceID (queries w)) as [server|] eqn:Hpoll.
  - cbn [fst snd]. rewrite requested_queries, polled_queries.
    split; [lia |]. replace (S (queries w) - 1)%nat with (queries w) by lia.
    exact Hpoll.
  - specialize (IH (slept E (requested E GET_servers (polled ctx w)))).
    cbv zeta in IH.
    destruct (BareMetalServerResource.waitLoop E n ctx serviceID deadline _)
      as [[[server|err]|] w']; cbn [fst snd] in *; [| exact IH | exact I].
    rewrite slept_queries, requested_queries, polled_queries in IH.
    destruct IH as [Hlt' Hpoll']. split; [lia | exact Hpoll'].
Qed.

(** X9. What a wait can end with. waitForServerProvisioning returns a
    server only if its last query showed it, and then the server carries
    the requested service identifier; it returns the context's error only
    with the signal set when it returns; and it returns the timeout error
    only once the deadline has been reached. It returns no other error:
    the error of a failed query is never passed on. *)
Theorem wait_outcome E ctx serviceID timeout w :
  let run := BareMetalServerResource.waitForServerProvisioning E ctx serviceID timeout w in
  match run.1 with
  | Ok server =>
      (queries w < queries run.2)%nat
      ∧ poll_result E serviceID (queries run.2 - 1) = Some server
      ∧ Server.ServiceID server = serviceID
  | Err err =>
      (err = ctx_Err ctx ∧ done_at ctx (now run.2) = true)
      ∨ (err = BareMetalServerResource.timeoutError serviceID
         ∧ now w + timeout ≤ now run.2)
  end.
Proof.
  cbv zeta. rewrite waitForServerProvisioning_run. cbv zeta. cbn [fst snd].
  pose proof (waitLoop_outcome E ctx serviceID (now w + timeout)
                (BareMetalServerResource.waitRounds timeout) w) as Hout.
  cbv zeta in Hout.
  destruct (waitForServerProvisioning_total E ctx serviceID timeout w) as [r Hr].
  pose proof (waitLoop_Ok_ServiceID E ctx serviceID (now w + timeout)) as Hid.
  specialize (λ server, Hid server (BareMetalServerResource.waitRounds timeout) w).
  rewrite Hr in *. destruct r as [server|err].
  - destruct Hout as [Hlt Hpoll]. split; [exact Hlt |]. split; [exact Hpoll |].
    apply Hid. reflexivity.
  - exact Hout.
Qed.

Lemma waitLoop_overshoot E ctx serviceID deadline D n :
  (∀ i, Z.of_N (delay_at E i) ≤ D) →
  ∀ w,
    let run := BareMetalServerResource.waitLoop E n ctx serviceID deadline w in
    now w ≤ now run.2
    ∧ (now run.2 = now w ∨ now run.2 < deadline + 30 * time_Second + 2 * D).
Proof.
  intros Hdelay.
  assert (0 ≤ D) as HD by (pose proof (Hdelay 0%nat); lia).
  induction n as [|n IH]; intros w; cbv zeta; [simpl; lia |].
  rewrite waitLoop_step.
  destruct (decide (now w < deadline)) as [Hlt|Hge]; [| simpl; lia].
  destruct (done_at ctx (now w)); [cbn [snd]; rewrite polled_now; lia |].
  pose proof (Hdelay (length (trace (polled ctx w)))) as Hd1.
  pose proof (Hdelay (length (trace (requested E GET_servers (polled ctx w))))) as Hd2.
  destruct (poll_result E serviceID (queries w)).
  - cbn [snd]. rewrite requested_now_eq, polled_now. unfold time_Second. lia.
  - specialize (IH (slept E (requested E GET_servers (polled ctx w)))).
    cbv zeta in IH. rewrite slept_now, requested_now_eq, polled_now in IH.
    unfold time_Second in *. lia.
Qed.

(** X10. The wait overshoots its deadline by less than one round. When no
    request and no sleep of the run takes more than D beyond its nominal
    duration, waitForServerProvisioning returns before the deadline plus
    30 seconds plus 2 D (or at once, without any time passing); the clock
    never runs backwards. *)
Theorem wait_overshoot E ctx serviceID timeout D w :
  (∀ i, Z.of_N (delay_at E i) ≤ D) →
  let run := BareMetalServerResource.waitForServerProvisioning E ctx serviceID timeout w in
  now w ≤ now run.2
  ∧ (now run.2 = now w ∨ now run.2 < now w + timeout + 30 * time_Second + 2 * D).
Proof.
  intros Hdelay. cbv zeta. rewrite waitForServerProvisioning_run. cbv zeta.
  cbn [fst snd].
  exact (waitLoop_overshoot E ctx serviceID (now w + timeout) D
           (BareMetalServerResource.waitRounds timeout) Hdelay w).
Qed.

(* Witness of X10: a wait of ten minutes for a server that never shows,
   every request and sleep taking a second more. *)
Lemma wait_overshoot_witness :
  let run := BareMetalServerResource.waitForServerProvisioning
               (sampleEnv [] [] (λ _, Ok []) []) neverCancelled 500
               (10 * time_Minute) startWorld in
  now startWorld ≤ now run.2
  ∧ (now run.2 = now startWorld
     ∨ now run.2 < now startWorld + 10 * time_Minute + 30 * time_Second + 2 * 1000000000).
Proof.
  apply (wait_overshoot (sampleEnv [] [] (λ _, Ok []) []) neverCancelled 500
           (10 * time_Minute) 1000000000 startWorld).
  intros i. simpl. lia.
Defined.

(* --------------------------------------------------------------------- *)
(*  Create: what is ordered, and when state is stored                     *)
(* --------------------------------------------------------------------- *)

(* Create up to the order, with what the validations found: it stops
   before any order, or both validations passed and the order is the base
   order of the selected operating system with the resolved keys. *)
Lemma Create_validated E ctx data w :
  let instanceType := ValueString (BareMetalServerResourceModel.InstanceType data) in
  let location := ValueString (BareMetalServerResourceModel.Location data) in
  let osName := ValueString (BareMetalServerResourceModel.OperatingSystem data) in
  let run := BareMetalServerResource.Create E ctx data w in
  (State run.1 = None ∧ HasError (Diagnostics run.1) = true ∧ adds validating w run.2)
  ∨ ∃ inventory sku addons os names sshKeyIDs w0,
      inventory_at E (calls_to ListInventory (trace w)) = Ok inventory
      ∧ scanInventory inventory instanceType location = Some sku
      ∧ addons_at E (calls_to ListAddons (trace w)) instanceType location = Ok addons
      ∧ BareMetalServerResource.selectOS
          (OperatingSystemsAddon.Products (AddonsResponse.OperatingSystems addons))
          osName [] = (Some os, names)
      ∧ adds validating w w0
      ∧ run = BareMetalServerResource.orderAndProvision E ctx data
                (BareMetalServerResource.withSSHKeyIDs
                   (BareMetalServerResource.baseOrder data instanceType location os)
                   sshKeyIDs) w0.
Proof.
  cbv zeta. unfold BareMetalServerResource.Create, mbind, M_bind.
  rewrite FindSKUByProductName_run.
  set (instanceType := ValueString (BareMetalServerResourceModel.InstanceType data)).
  set (location := ValueString (BareMetalServerResourceModel.Location data)).
  set (w1 := requested E GET_inventory w).
  assert (adds validating w w1) as H1 by (apply adds_requested; split; reflexivity).
  destruct (inventory_at E (calls_to ListInventory (trace w))) as [inventory|err] eqn:Hinv.
  2:{ left. rewrite GetInventory_run.
      assert (adds validating w (requested E GET_inventory w1)) as H2.
      { eapply adds_trans; [exact H1 |]. apply adds_requested. split; reflexivity. }
      destruct (inventory_at E (calls_to ListInventory (trace w1)));
        (split; [reflexivity |]; split; [reflexivity | exact H2]). }
  destruct (scanInventory inventory instanceType location) as [sku|] eqn:Hscan.
  2:{ left. rewrite GetInventory_run.
      assert (adds validating w (requested E GET_inventory w1)) as H2.
      { eapply adds_trans; [exact H1 |]. apply adds_requested. split; reflexivity. }
      destruct (inventory_at E (calls_to ListInventory (trace w1)));
        (split; [reflexivity |]; split; [reflexivity | exact H2]). }
  rewrite GetAddons_run.
  change (calls_to ListAddons (trace w1)) with (calls_to ListAddons (trace w)).
  set (w2 := requested E (GET_list_addons instanceType location) w1).
  assert (adds validating w w2) as H2.
  { eapply adds_trans; [exact H1 |]. apply adds_requested. split; reflexivity. }
  destruct (addons_at E (calls_to ListAddons (trace w)) instanceType location)
    as [addons|osErr] eqn:Haddons.
  2:{ left. split; [reflexivity |]. split; [reflexivity | exact H2]. }
  destruct (BareMetalServerResource.selectOS _ _ []) as [[os|] names] eqn:Hos.
  2:{ left. split; [reflexivity |]. split; [reflexivity | exact H2]. }
  unfold BareMetalServerResource.submitOrder.
  destruct (BareMetalServerResourceModel.SSHKeyLabels data) as [| |labels].
  - right. exists inventory, sku, addons, os, names, [], w2.
    repeat split; try assumption; reflexivity.
  - left. split; [reflexivity |]. split; [reflexivity | exact H2].
  - unfold mbind, M_bind.
    destruct (resolveSSHKeyIDs_spec E labels [] w2) as [Hadds _].
    destruct (BareMetalServerResource.resolveSSHKeyIDs E labels [] w2)
      as [[ids|[label err]] w3]; cbn [fst snd] in *.
    + right. exists inventory, sku, addons, os, names, ids, w3.
      repeat split; try assumption; [eapply adds_trans; eassumption |].
      destruct (decide (0 < length ids)%nat) as [_|Hempty]; [reflexivity |].
      destruct ids; [reflexivity | simpl in Hempty; lia].
    + left. split; [reflexivity |]. split; [reflexivity |].
      eapply adds_trans; eassumption.
Qed.

(** X11. Whatever Create orders was validated first and is ordered in the
    fixed way. Every order that Create submits is for one server, billed
    hourly, of the plan's instance type at the plan's location, with the
    plan's hostname (empty when it is null); the inventory that Create
    fetched holds an entry that qualifies for that type and location, and
    the operating system product code is that of the first product of the
    fetched catalogue whose name is exactly the plan's operating system. *)
Theorem Create_orders_validated E ctx data w :
  let instanceType := ValueString (BareMetalServerResourceModel.InstanceType data) in
  let location := ValueString (BareMetalServerResourceModel.Location data) in
  let osName := ValueString (BareMetalServerResourceModel.OperatingSystem data) in
  let run := BareMetalServerResource.Create E ctx data w in
  ∃ evs, trace run.2 = evs ++ trace w
    ∧ ∀ t req, EvCall t (POST_order req) ∈ evs →
        ServerOrderRequest.Quantity req = 1
        ∧ ServerOrderRequest.BillHourly req = true
        ∧ ServerOrderRequest.SkuProductName req = instanceType
        ∧ ServerOrderRequest.LocationCode req = location
        ∧ ServerOrderRequest.Hostname req
          = ValueString (BareMetalServerResourceModel.Hostname data)
        ∧ (∃ inventory entry,
             inventory_at E (calls_to ListInventory (trace w)) = Ok inventory
             ∧ entry ∈ inventory ∧ qualifies instanceType location entry)
        ∧ (∃ addons os,
             addons_at E (calls_to ListAddons (trace w)) instanceType location = Ok addons
             ∧ scanOperatingSystems
                 (OperatingSystemsAddon.Products (AddonsResponse.OperatingSystems addons))
                 osName = Some os
             ∧ ServerOrderRequest.OperatingSystemProductCode req
               = OperatingSystemItem.ProductCode os).
Proof.
  cbv zeta.
  destruct (Create_validated E ctx data w)
    as [(_ & _ & evs & Htrace & Hevs)
       |(inventory & sku & addons & os & names & ids & w0 & Hinv & Hscan & Haddons
         & Hos & (before & Hbefore & Hval) & Hrun)].
  - exists evs. split; [exact Htrace |]. intros t req Hin. exfalso.
    exact (no_order_not_in evs t req (validating_no_order _ Hevs) Hin).
  - set (req0 := BareMetalServerResource.withSSHKeyIDs
                   (BareMetalServerResource.baseOrder data
                      (ValueString (BareMetalServerResourceModel.InstanceType data))
                      (ValueString (BareMetalServerResourceModel.Location data)) os)
                   ids) in *.
    destruct (orderAndProvision_trace E ctx data req0 w0) as (after & Hafter & Hno).
    exists (after ++ EvCall (now w0) (POST_order req0) :: before). split.
    + rewrite Hrun, Hafter, Hbefore, <- app_assoc. reflexivity.
    + intros t req Hin.
      destruct (order_in_shape before after _ req0 t req Hval Hno Hin) as [_ ->].
      subst req0.
      split; [reflexivity |]. split; [reflexivity |]. split; [reflexivity |].
      split; [reflexivity |]. split.
      { simpl. destruct (BareMetalServerResourceModel.Hostname data); reflexivity. }
      split.
      * exists inventory, sku. split; [exact Hinv |].
        apply scanInventory_Some in Hscan as (b & a & -> & Hq & _).
        split; [apply elem_of_app; right; constructor | exact Hq].
      * exists addons, os. split; [exact Haddons |].
        pose proof (selectOS_scan
                      (OperatingSystemsAddon.Products
                         (AddonsResponse.OperatingSystems addons))
                      (ValueString (BareMetalServerResourceModel.OperatingSystem data))
                      []) as Hsel.
        destruct (scanOperatingSystems _ _) as [found|].
        -- destruct Hsel as (Hsel & _). rewrite Hos in Hsel. simpl in Hsel.
           injection Hsel as ->. split; reflexivity.
        -- rewrite Hos in Hsel. discriminate.
Qed.

(* Witness of X11: the Create of the example submits its order at the
   third second; the fetched inventory holds a qualifying entry and the
   catalogue the ordered operating system. *)
Lemma Create_orders_validated_witness :
  (∃ entry, entry ∈ stockedInventory ∧ qualifies "c1.small" "NYC1" entry)
  ∧ (∃ os, scanOperatingSystems
             (OperatingSystemsAddon.Products (AddonsResponse.OperatingSystems sampleAddons))
             "Ubuntu 24.04" = Some os
           ∧ OperatingSystemItem.ProductCode os = "UBUNTU_24_04").
Proof.
  destruct (Create_orders_validated
              (sampleEnv stockedInventory [500] serversAfter3 [deployKey]) neverCancelled
              (samplePlan "c1.small" "NYC1" (Known ["deploy"])) startWorld)
    as (evs & Htrace & Horder).
  rewrite app_nil_r in Htrace. subst evs.
  destruct (Horder 3000000000 (sampleOrder [11]))
    as (_ & _ & _ & _ & _ & (inventory & entry & Hinv & Hin & Hq)
        & (addons & os & Haddons & Hscan & Hcode)).
  - vm_compute. repeat constructor.
  - split.
    + exists entry. injection Hinv as <-. split; assumption.
    + exists os. injection Haddons as <-. split; [exact Hscan | symmetry; exact Hcode].
Defined.

Lemma awaitServer_state_iff E ctx data serviceID w :
  let run := BareMetalServerResource.awaitServer E ctx data serviceID w in
  State run.1 = None ↔ HasError (Diagnostics run.1) = true.
Proof.
  cbv zeta.
  destruct (awaitServer_spec E ctx data serviceID w) as [_ Hcases].
  destruct (BareMetalServerResource.waitForServerProvisioning E ctx serviceID _ w).1
    as [server|err].
  - destruct Hcases as (-> & -> & _). split; discriminate.
  - rewrite Hcases. split; reflexivity.
Qed.

(** X12. Create stores state exactly when it reports no error: after any
    run of Create, whatever the backend answers, the response holds a
    state if and only if none of its diagnostics is an error. A failed
    update of the friendly name is only a warning and does not prevent the
    state from being stored. *)
Theorem Create_state_iff_no_error E ctx data w :
  let run := BareMetalServerResource.Create E ctx data w in
  (State run.1 = None ↔ HasError (Diagnostics run.1) = true)
  ∧ ∀ server err w1,
      friendly_name_at E (calls_to UpdateFriendlyName (trace w1)) (Server.ID server)
        (ValueString (BareMetalServerResourceModel.FriendlyName data)) = Some err →
      BareMetalServerResourceModel.FriendlyName data ≠ Null →
      (BareMetalServerResource.finishCreate E data server w1).1
      = {| Diagnostics :=
             [WarningDiagnostic "Friendly Name Update Failed"
                ("Server was provisioned successfully but failed to set friendly name: "
                 +:+ err)];
           State := Some (BareMetalServerResource.updateModelFromServer data server) |}.
Proof.
  cbv zeta. split.
  - destruct (Create_to_order E ctx data w)
      as [(Hnone & Herr & _)|(req & w0 & _ & Hrun & _)]; [tauto |].
    rewrite Hrun, orderAndProvision_run.
    destruct (order_at E (submitted w0) req) as [orderResp|err].
    + destruct (ServerOrderResponse.OrderServiceIDs orderResp) as [|serviceID ids].
      * split; reflexivity.
      * apply awaitServer_state_iff.
    + cbn [fst State Diagnostics failed HasError existsb].
      rewrite orderFailed_isError. split; reflexivity.
  - intros server err w1 Hfail Hname.
    assert (negb (IsNull (BareMetalServerResourceModel.FriendlyName data)) = true)
      as Hset.
    { destruct (BareMetalServerResourceModel.FriendlyName data);
        [contradiction | reflexivity | reflexivity]. }
    unfold BareMetalServerResource.finishCreate, mbind, M_bind. rewrite Hset.
    unfold UpdateServerFriendlyName, mbind, M_bind.
    change (request E (PUT_friendly_name (Server.ID server)
              (ValueString (BareMetalServerResourceModel.FriendlyName data))) w1)
      with (calls_to UpdateFriendlyName (trace w1),
            requested E (PUT_friendly_name (Server.ID server)
              (ValueString (BareMetalServerResourceModel.FriendlyName data))) w1).
    cbn [mret M_ret]. rewrite Hfail. reflexivity.
Qed.

(* Witness of X12: the server is found and the backend refuses the
   friendly name. *)
Lemma Create_state_iff_no_error_witness :
  let data := namedModel (Known "c1.small") Null (Known "web") Unknown Unknown in
  (BareMetalServerResource.finishCreate refusingEnv data
     (sampleServer "srv-2" 500) startWorld).1
  = {| Diagnostics :=
         [WarningDiagnostic "Friendly Name Update Failed"
            "Server was provisioned successfully but failed to set friendly name: refused"];
       State := Some (BareMetalServerResource.updateModelFromServer data
                        (sampleServer "srv-2" 500)) |}.
Proof.
  cbv zeta.
  refine (proj2 (Create_state_iff_no_error refusingEnv neverCancelled
                   (namedModel (Known "c1.small") Null (Known "web") Unknown Unknown)
                   startWorld)
            (sampleServer "srv-2" 500) "refused" startWorld _ _).
  - reflexivity.
  - discriminate.
Defined.

(* --------------------------------------------------------------------- *)
(*  The server resource: Read after Create, Update, ImportState           *)
(* --------------------------------------------------------------------- *)

Lemma filled_twice (old : tfval string) (fetched : string) :
  let new := if IsNull old && negb (bool_decide (fetched = ""))
             then StringValue fetched else old in
  (if IsNull new && negb (bool_decide (fetched = ""))
   then StringValue fetched else new) = new.
Proof.
  cbv zeta. destruct (bool_decide (fetched = "")); destruct old; reflexivity.
Qed.

Lemma updateModelFromServer_idempotent data server :
  BareMetalServerResource.updateModelFromServer
    (BareMetalServerResource.updateModelFromServer data server) server
  = BareMetalServerResource.updateModelFromServer data server.
Proof.
  unfold BareMetalServerResource.updateModelFromServer at 1 3.
  cbn [BareMetalServerResourceModel.InstanceType BareMetalServerResourceModel.Location
       BareMetalServerResourceModel.OperatingSystem
       BareMetalServerResourceModel.SSHKeyLabels].
  f_equal.
  - exact (filled_twice (BareMetalServerResourceModel.Hostname data)
             (Server.Hostname server)).
  - exact (filled_twice (BareMetalServerResourceModel.FriendlyName data)
             (Server.FriendlyName server)).
Qed.

(** X13. Read after Create is stable. The state that Create stores is the
    plan updated from a server; updating it from that server again changes
    nothing; and a Read of that state against a server list whose first
    server with the state's service identifier is that same server stores
    the very same state, without diagnostics. *)
Theorem Read_after_Create_stable E ctx data w st :
  State (BareMetalServerResource.Create E ctx data w).1 = Some st →
  ∃ server,
    st = BareMetalServerResource.updateModelFromServer data server
    ∧ BareMetalServerResource.updateModelFromServer st server = st
    ∧ ∀ E' w',
        poll_result E' (Server.ServiceID server) (queries w') = Some server →
        (BareMetalServerResource.Read E' st w').1
        = {| Diagnostics := []; State := Some st |}.
Proof.
  intros Hst. destruct (Create_State E ctx data w st Hst) as [server ->].
  exists server. split; [reflexivity |].
  split; [apply updateModelFromServer_idempotent |].
  intros E' w' Hpoll.
  unfold BareMetalServerResource.Read, mbind, M_bind.
  apply GetServerByServiceID_found in Hpoll.
  cbn [BareMetalServerResourceModel.ServiceID
       BareMetalServerResource.updateModelFromServer ValueInt64 Int64Value].
  destruct (GetServerByServiceID E' (Server.ServiceID server) w') as [r w1].
  cbn [fst] in Hpoll. subst r. cbn [fst mret M_ret].
  rewrite updateModelFromServer_idempotent. reflexivity.
Qed.

(* Witness of X13: the Create of the example that finds the server 500 at
   its fourth poll. *)
Lemma Read_after_Create_stable_witness :
  ∃ server,
    BareMetalServerResource.updateModelFromServer
      (samplePlan "c1.small" "NYC1" Null) (sampleServer "srv-2" 500)
    = BareMetalServerResource.updateModelFromServer
        (samplePlan "c1.small" "NYC1" Null) server
    ∧ BareMetalServerResource.updateModelFromServer
        (BareMetalServerResource.updateModelFromServer
           (samplePlan "c1.small" "NYC1" Null) (sampleServer "srv-2" 500)) server
      = BareMetalServerResource.updateModelFromServer
          (samplePlan "c1.small" "NYC1" Null) (sampleServer "srv-2" 500).
Proof.
  destruct (Read_after_Create_stable
              (sampleEnv stockedInventory [500] serversAfter3 []) neverCancelled
              (samplePlan "c1.small" "NYC1" Null) startWorld
              (BareMetalServerResource.updateModelFromServer
                 (samplePlan "c1.small" "NYC1" Null) (sampleServer "srv-2" 500)))
    as (server & Hst & Hidem & _).
  - vm_compute. reflexivity.
  - exists server. split; assumption.
Defined.

Lemma UpdateServerFriendlyName_run E serverID friendlyName w :
  UpdateServerFriendlyName E serverID friendlyName w =
  (friendly_name_at E (calls_to UpdateFriendlyName (trace w)) serverID friendlyName,
   requested E (PUT_friendly_name serverID friendlyName) w).
Proof. reflexivity. Qed.

Lemma requiresReplacement_true plan state :
  BareMetalServerLifecycle.requiresReplacement plan state = true ↔
  BareMetalServerResourceModel.InstanceType plan
    ≠ BareMetalServerResourceModel.InstanceType state
  ∨ BareMetalServerResourceModel.Location plan
    ≠ BareMetalServerResourceModel.Location state
  ∨ BareMetalServerResourceModel.OperatingSystem plan
    ≠ BareMetalServerResourceModel.OperatingSystem state
  ∨ BareMetalServerResourceModel.Hostname plan
    ≠ BareMetalServerResourceModel.Hostname state
  ∨ BareMetalServerResourceModel.SSHKeyLabels plan
    ≠ BareMetalServerResourceModel.SSHKeyLabels state.
Proof.
  unfold BareMetalServerLifecycle.requiresReplacement.
  rewrite !orb_true_iff, !negb_true_iff, !bool_decide_eq_false. tauto.
Qed.

(** X14. Update in place. Update sends a request exactly when the plan's
    friendly name is not null and differs from the state's: one PUT of the
    plan's friendly name to the server of the state's id, and nothing
    else. If that request fails, Update reports one error and stores
    nothing. Otherwise it stores the plan exactly as planned, and warns
    that a replacement is required exactly when instance_type, location,
    operating_system, hostname or ssh_key_labels differ between plan and
    state; a change of the friendly name alone never warns. *)
Theorem Update_in_place E plan state w :
  let renamed :=
    BareMetalServerResourceModel.FriendlyName plan
      ≠ BareMetalServerResourceModel.FriendlyName state
    ∧ BareMetalServerResourceModel.FriendlyName plan ≠ Null in
  let put :=
    PUT_friendly_name (ValueString (BareMetalServerResourceModel.ID state))
      (ValueString (BareMetalServerResourceModel.FriendlyName plan)) in
  let refused :=
    ∃ err, friendly_name_at E (calls_to UpdateFriendlyName (trace w))
             (ValueString (BareMetalServerResourceModel.ID state))
             (ValueString (BareMetalServerResourceModel.FriendlyName plan)) = Some err in
  let run := BareMetalServerLifecycle.Update E plan state w in
  trace run.2 = (if decide renamed then [EvCall (now w) put] else []) ++ trace w
  ∧ (renamed ∧ refused →
     State run.1 = None ∧ HasError (Diagnostics run.1) = true
     ∧ length (Diagnostics run.1) = 1%nat)
  ∧ (¬ (renamed ∧ refused) →
     State run.1 = Some plan
     ∧ Diagnostics run.1 =
       if BareMetalServerLifecycle.requiresReplacement plan state
       then [BareMetalServerLifecycle.replacementWarning] else [])
  ∧ (BareMetalServerLifecycle.requiresReplacement plan state = true ↔
     BareMetalServerResourceModel.InstanceType plan
       ≠ BareMetalServerResourceModel.InstanceType state
     ∨ BareMetalServerResourceModel.Location plan
       ≠ BareMetalServerResourceModel.Location state
     ∨ BareMetalServerResourceModel.OperatingSystem plan
       ≠ BareMetalServerResourceModel.OperatingSystem state
     ∨ BareMetalServerResourceModel.Hostname plan
       ≠ BareMetalServerResourceModel.Hostname state
     ∨ BareMetalServerResourceModel.SSHKeyLabels plan
       ≠ BareMetalServerResourceModel.SSHKeyLabels state).
Proof.
  cbv zeta. unfold BareMetalServerLifecycle.Update, mbind, M_bind.
  split; [| split; [| split; [| apply requiresReplacement_true]]].
  - destruct (decide _) as [[Hne Hnull]|Hno].
    + rewrite bool_decide_eq_false_2 by exact Hne.
      assert (negb (IsNull (BareMetalServerResourceModel.FriendlyName plan)) = true) as ->.
      { destruct (BareMetalServerResourceModel.FriendlyName plan);
          [contradiction | reflexivity | reflexivity]. }
      cbn [negb andb]. rewrite UpdateServerFriendlyName_run.
      destruct (friendly_name_at E _ _ _); reflexivity.
    + destruct (decide (BareMetalServerResourceModel.FriendlyName plan
                        = BareMetalServerResourceModel.FriendlyName state)) as [Heq|Hne].
      * rewrite bool_decide_eq_true_2 by exact Heq. reflexivity.
      * rewrite bool_decide_eq_false_2 by exact Hne.
        destruct (BareMetalServerResourceModel.FriendlyName plan) as [| |name] eqn:Hfn;
          [reflexivity | |]; exfalso; apply Hno; split; congruence.
  - intros [[Hne Hnull] [err Herr]].
    rewrite bool_decide_eq_false_2 by exact Hne.
    assert (negb (IsNull (BareMetalServerResourceModel.FriendlyName plan)) = true) as ->.
    { destruct (BareMetalServerResourceModel.FriendlyName plan);
        [contradiction | reflexivity | reflexivity]. }
    cbn [negb andb]. rewrite UpdateServerFriendlyName_run, Herr. repeat split.
  - intros Hno.
    destruct (negb (bool_decide _) && negb (IsNull _)) eqn:Hcall;
      [| cbn [mret M_ret]; split; reflexivity].
    apply andb_true_iff in Hcall as [Hne Hnull].
    apply negb_true_iff, bool_decide_eq_false in Hne.
    rewrite UpdateServerFriendlyName_run.
    destruct (friendly_name_at E _ _ _) as [err|] eqn:Herr;
      [| split; reflexivity].
    exfalso. apply Hno. split; [| eauto]. split; [exact Hne |].
    intros Hn. rewrite Hn in Hnull. discriminate.
Qed.

(* Witness of X14: the friendly name changes from web to db and the
   backend refuses it. *)
Lemma Update_in_place_witness :
  let plan := namedModel (Known "c1.small") Null (Known "db") (Known "srv-2") (Known 500) in
  let state := namedModel (Known "c1.small") Null (Known "web") (Known "srv-2") (Known 500) in
  let run := BareMetalServerLifecycle.Update refusingEnv plan state startWorld in
  State run.1 = None ∧ HasError (Diagnostics run.1) = true
  ∧ length (Diagnostics run.1) = 1%nat.
Proof.
  cbv zeta.
  apply (Update_in_place refusingEnv
           (namedModel (Known "c1.small") Null (Known "db") (Known "srv-2") (Known 500))
           (namedModel (Known "c1.small") Null (Known "web") (Known "srv-2") (Known 500))
           startWorld).
  split; [split; discriminate | exists "refused"; reflexivity].
Defined.

(* The two scenarios of an update, evaluated: a new friendly name is sent
   and nothing is said of a replacement; a new instance type is warned
   about and nothing is sent. *)
Example Update_scenarios :
  BareMetalServerLifecycle.Update (sampleEnv [] [] (λ _, Ok []) [])
    (namedModel (Known "c1.small") Null (Known "db") (Known "srv-2") (Known 500))
    (namedModel (Known "c1.small") Null (Known "web") (Known "srv-2") (Known 500))
    startWorld
  = ({| Diagnostics := [];
        State := Some (namedModel (Known "c1.small") Null (Known "db")
                         (Known "srv-2") (Known 500)) |},
     {| now := 1000000000;
        trace := [EvCall 0 (PUT_friendly_name "srv-2" "db")] |})
  ∧ BareMetalServerLifecycle.Update (sampleEnv [] [] (λ _, Ok []) [])
      (namedModel (Known "c2.big") Null (Known "web") (Known "srv-2") (Known 500))
      (namedModel (Known "c1.small") Null (Known "web") (Known "srv-2") (Known 500))
      startWorld
    = ({| Diagnostics := [BareMetalServerLifecycle.replacementWarning];
          State := Some (namedModel (Known "c2.big") Null (Known "web")
                           (Known "srv-2") (Known 500)) |},
       startWorld).
Proof. split; reflexivity. Qed.

(* --------------------------------------------------------------------- *)
(*  ImportState: service identifiers in decimal                           *)
(* --------------------------------------------------------------------- *)

Lemma digitValue_pretty d :
  (d < 10)%N → digitValue (pretty_N_char d) = Some (Z.of_N d).
Proof.
  intros Hd.
  assert (d = 0 ∨ d = 1 ∨ d = 2 ∨ d = 3 ∨ d = 4 ∨ d = 5 ∨ d = 6 ∨ d = 7
          ∨ d = 8 ∨ d = 9)%N as Hcases by lia.
  repeat (destruct Hcases as [-> | Hcases]; [reflexivity |]).
  subst d. reflexivity.
Qed.

(* The digits of a positive number, read back. *)
Lemma parseDigits_pretty_N_go x :
  (0 < x)%N →
  ∀ s n, ∃ k ch rest d,
    0 ≤ k
    ∧ pretty_N_go x s = String ch rest ∧ digitValue ch = Some d
    ∧ parseDigits n (pretty_N_go x s) = parseDigits (n * 10 ^ k + Z.of_N x) s.
Proof.
  induction x as [x IH] using (well_founded_induction N.lt_wf_0).
  intros Hx s n. rewrite pretty_N_go_step by exact Hx.
  pose proof (N.mod_lt x 10 ltac:(lia)) as Hmod.
  pose proof (digitValue_pretty (x `mod` 10) Hmod) as Hdigit.
  pose proof (N.div_mod x 10 ltac:(lia)) as Hdiv.
  destruct (decide (x `div` 10 = 0)%N) as [Hzero|Hpos].
  - rewrite Hzero, pretty_N_go_0.
    exists 1, (pretty_N_char (x `mod` 10)), s, (Z.of_N (x `mod` 10)).
    split; [lia |]. split; [reflexivity |]. split; [exact Hdigit |].
    simpl. rewrite Hdigit. f_equal. lia.
  - destruct (IH (x `div` 10)%N ltac:(apply N.div_lt; lia) ltac:(lia)
                (String (pretty_N_char (x `mod` 10)) s) n)
      as (k & ch & rest & d & Hk & Hshape & Hd & Hparse).
    exists (k + 1), ch, rest, d.
    split; [lia |]. split; [exact Hshape |]. split; [exact Hd |].
    rewrite Hparse. simpl. rewrite Hdigit. f_equal.
    rewrite Z.pow_add_r by lia. lia.
Qed.

Lemma strconv_Atoi_digits ch rest d :
  digitValue ch = Some d →
  strconv_Atoi (String ch rest) =
  match parseDigits 0 (String ch rest) with
  | None => None
  | Some n => if decide (- 2 ^ 63 ≤ n < 2 ^ 63) then Some n else None
  end.
Proof.
  intros Hd. unfold strconv_Atoi.
  destruct (decide (ch = minusSign)) as [->|_]; [discriminate Hd |].
  destruct (decide (ch = plusSign)) as [->|_]; [discriminate Hd |].
  reflexivity.
Qed.

Lemma strconv_Atoi_minus ch rest :
  strconv_Atoi (String minusSign (String ch rest)) =
  match parseDigits 0 (String ch rest) with
  | None => None
  | Some n => if decide (- 2 ^ 63 ≤ - n < 2 ^ 63) then Some (- n) else None
  end.
Proof. reflexivity. Qed.

Lemma strconv_Atoi_fmt_d n :
  - 2 ^ 63 ≤ n < 2 ^ 63 → strconv_Atoi (fmt_d n) = Some n.
Proof.
  intros Hrange. unfold fmt_d, pretty, pretty_Z.
  destruct n as [|p|p]; [reflexivity | |];
    unfold pretty, pretty_positive, pretty, pretty_N;
    (destruct (decide (N.pos p = 0)%N) as [|_]; [discriminate |]);
    destruct (parseDigits_pretty_N_go (N.pos p) ltac:(lia) "" 0)
      as (k & ch & rest & d & _ & Hshape & Hd & Hparse);
    replace (0 * 10 ^ k + Z.of_N (N.pos p)) with (Z.pos p) in Hparse by lia;
    rewrite Hshape in Hparse |- *.
  - rewrite (strconv_Atoi_digits ch rest d Hd), Hparse. simpl parseDigits.
    cbv beta iota. rewrite decide_True by exact Hrange. reflexivity.
  - change ("-" +:+ String ch rest) with (String minusSign (String ch rest)).
    rewrite strconv_Atoi_minus, Hparse. simpl parseDigits. cbv beta iota.
    change (- Z.pos p) with (Z.neg p).
    rewrite decide_True by exact Hrange. reflexivity.
Qed.

(** X15. Import by service identifier never stores a state. The decimal
    rendering of a service identifier (the form in which the provider
    prints it) is read back by ImportState as that identifier, and one
    query to the server list follows. When the list shows no server with
    the identifier, ImportState reports an import error. When it shows
    one, the model handed to State.Set is the zero model updated from that
    server: its service_id is the imported identifier, but its
    ssh_key_labels is still the zero list, which carries no element type,
    so State.Set refuses the model and nothing is stored. An identifier
    that is no decimal number is refused before any request. So whatever
    the identifier and whatever the backend answers, the response of
    ImportState has an error and no state. *)
Theorem ImportState_never_stores E w :
  (∀ id,
     let run := BareMetalServerLifecycle.ImportState E id w in
     State run.1 = None ∧ HasError (Diagnostics run.1) = true)
  ∧ (∀ id, strconv_Atoi id = None →
       BareMetalServerLifecycle.ImportState E id w
       = (failed [ErrorDiagnostic "Import Error" ("Invalid service ID format: " +:+ id)],
          w))
  ∧ (∀ serviceID, - 2 ^ 63 ≤ serviceID < 2 ^ 63 →
       let run := BareMetalServerLifecycle.ImportState E (fmt_d serviceID) w in
       strconv_Atoi (fmt_d serviceID) = Some serviceID
       ∧ run.2 = requested E GET_servers w
       ∧ match poll_result E serviceID (queries w) with
         | Some server =>
             let st := BareMetalServerResource.updateModelFromServer
                         BareMetalServerLifecycle.zeroModel server in
             run.1 = BareMetalServerLifecycle.State_Set
                       BareMetalServerLifecycle.MissingType st
             ∧ run.1 = failed [BareMetalServerLifecycle.valueConversionError]
             ∧ BareMetalServerResourceModel.ServiceID st = Known serviceID
             ∧ BareMetalServerResourceModel.SSHKeyLabels st
               = BareMetalServerResourceModel.SSHKeyLabels
                   BareMetalServerLifecycle.zeroModel
         | None =>
             ∃ err,
               run.1 = failed [ErrorDiagnostic "Import Error"
                                 ("Unable to find server with service ID "
                                  +:+ fmt_d serviceID +:+ ": " +:+ err)]
         end).
Proof.
  split; [| split].
  - intros id. cbv zeta. unfold BareMetalServerLifecycle.ImportState.
    destruct (strconv_Atoi id) as [serviceID|]; [| split; reflexivity].
    unfold mbind, M_bind.
    destruct (GetServerByServiceID E serviceID w) as [[server|err] w1];
      split; reflexivity.
  - intros id Hnone. unfold BareMetalServerLifecycle.ImportState. rewrite Hnone.
    reflexivity.
  - intros serviceID Hrange. cbv zeta.
    pose proof (strconv_Atoi_fmt_d serviceID Hrange) as Hatoi.
    split; [exact Hatoi |].
    unfold BareMetalServerLifecycle.ImportState. rewrite Hatoi.
    unfold mbind, M_bind. rewrite GetServerByServiceID_run.
    cbn [fst snd mret M_ret]. unfold poll_result.
    destruct (servers_at E (queries w)) as [servers|err].
    + destruct (scanServers servers serviceID) as [server|] eqn:Hscan.
      * cbn [fst snd]. split; [reflexivity |]. split; [reflexivity |].
        split; [reflexivity |]. split; [| reflexivity].
        simpl. unfold Int64Value. f_equal. eapply scanServers_ServiceID, Hscan.
      * cbn [fst snd]. split; [reflexivity |]. eauto.
    + cbn [fst snd]. split; [reflexivity |]. eauto.
Qed.

(* Witness of X15: the import of 500 against a list that shows it. *)
Lemma ImportState_never_stores_witness :
  (BareMetalServerLifecycle.ImportState
     (sampleEnv [] [] (λ _, Ok [sampleServer "srv-1" 7; sampleServer "srv-2" 500]) [])
     "500" startWorld).1
  = failed [BareMetalServerLifecycle.valueConversionError].
Proof.
  destruct (ImportState_never_stores
              (sampleEnv [] [] (λ _, Ok [sampleServer "srv-1" 7; sampleServer "srv-2" 500]) [])
              startWorld) as (_ & _ & Himport).
  destruct (Himport 500) as (_ & _ & Hfound); [lia |].
  exact (proj1 (proj2 Hfound)).
Defined.

(* An identifier that is no decimal number is refused before any request. *)
Example ImportState_malformed :
  BareMetalServerLifecycle.ImportState (sampleEnv [] [] (λ _, Ok []) []) "srv-2" startWorld
  = (failed [ErrorDiagnostic "Import Error" "Invalid service ID format: srv-2"],
     startWorld).
Proof. reflexivity. Qed.

(* --------------------------------------------------------------------- *)
(*  The SSH key resource: Read and ImportState after Create               *)
(* --------------------------------------------------------------------- *)

Lemma SSHKey_lookup_run E label w :
  (GetSSHKeyByLabel E label w).1 =
  match ssh_key_lookup E label (lookups w) with
  | Some key => Ok key
  | None =>
      match ssh_keys_at E (lookups w) with
      | Err err => Err ("failed to get SSH keys: " +:+ err)
      | Ok _ => Err ("SSH key with label '" +:+ label +:+ "' not found")
      end
  end.
Proof.
  rewrite GetSSHKeyByLabel_run. unfold ssh_key_lookup. cbn [fst].
  destruct (ssh_keys_at E (lookups w)) as [sshKeys|err]; [| reflexivity].
  destruct (scanSSHKeys sshKeys label); reflexivity.
Qed.

(* The state of a Create that stored one: the key found by label. *)
Lemma SSHKey_created_state E data w st :
  State (SSHKeyResource.Create E data w).1 = Some st →
  ∃ key,
    ssh_key_lookup E (ValueString (SSHKeyResourceModel.Label data)) (lookups w)
      = Some key
    ∧ st = SSHKeyResource.updateModelFromSSHKey data key.
Proof.
  intros Hst.
  pose proof (SSHKeyResource_Create_run E data w) as Hrun. cbv zeta in Hrun.
  rewrite Hrun in Hst. clear Hrun.
  destruct (ssh_create_at E _ _) as [resp|err]; [| discriminate].
  cbn [fst] in Hst. rewrite SSHKey_lookup_run in Hst.
  change (lookups (requested E (POST_ssh_keys _) w)) with (lookups w) in Hst.
  destruct (ssh_key_lookup E _ (lookups w)) as [key|] eqn:Hlookup.
  - injection Hst as <-. exists key. split; reflexivity.
  - destruct (ssh_keys_at E (lookups w)); discriminate.
Qed.

(** X16. Read and ImportState after Create are stable. The state that the
    SSH key Create stores is that of the key found by label, and it
    carries the input label. A Read of any prior state with that label, or
    an import of the label, against a credential list whose first key with
    the label is that same key, stores the very same state: nothing of a
    prior state but its label has any influence on what Read stores. *)
Theorem SSHKey_Read_after_Create E data w st :
  State (SSHKeyResource.Create E data w).1 = Some st →
  let label := ValueString (SSHKeyResourceModel.Label data) in
  ∃ key,
    ssh_key_lookup E label (lookups w) = Some key
    ∧ st = SSHKeyResource.updateModelFromSSHKey data key
    ∧ SSHKeyResourceModel.Label st = Known label
    ∧ ∀ E' w' prior,
        SSHKeyResourceModel.Label prior = SSHKeyResourceModel.Label st →
        ssh_key_lookup E' label (lookups w') = Some key →
        (SSHKeyLifecycle.Read E' prior w').1 = {| Diagnostics := []; State := Some st |}
        ∧ (SSHKeyLifecycle.ImportState E' label w').1
          = {| Diagnostics := []; State := Some st |}.
Proof.
  intros Hst label.
  destruct (SSHKey_created_state E data w st Hst) as (key & Hlookup & ->).
  fold label in Hlookup.
  exists key. split; [exact Hlookup |]. split; [reflexivity |].
  assert (SSHKey.Label key = label) as Hlabel.
  { unfold ssh_key_lookup in Hlookup.
    destruct (ssh_keys_at E (lookups w)); [| discriminate].
    apply scanSSHKeys_Label in Hlookup. tauto. }
  split; [simpl; unfold StringValue; rewrite Hlabel; reflexivity |].
  intros E' w' prior Hprior Hsame. split.
  - unfold SSHKeyLifecycle.Read, mbind, M_bind.
    pose proof (SSHKey_lookup_run E' (ValueString (SSHKeyResourceModel.Label prior)) w')
      as Hread.
    rewrite Hprior in Hread |- *. simpl ValueString in Hread |- *.
    rewrite Hlabel in Hread |- *. rewrite Hsame in Hread.
    destruct (GetSSHKeyByLabel E' label w') as [r w1]. cbn [fst] in Hread. subst r.
    reflexivity.
  - unfold SSHKeyLifecycle.ImportState, mbind, M_bind.
    pose proof (SSHKey_lookup_run E' label w') as Hread. rewrite Hsame in Hread.
    destruct (GetSSHKeyByLabel E' label w') as [r w1]. cbn [fst] in Hread. subst r.
    reflexivity.
Qed.

(* Witness of X16: the key deploy is created and listed. *)
Lemma SSHKey_Read_after_Create_witness :
  ∃ key,
    ssh_key_lookup (sampleEnv [] [] (λ _, Ok []) [deployKey]) "deploy"
      (lookups startWorld) = Some key
    ∧ SSHKeyResource.updateModelFromSSHKey (keyPlan "deploy" "ssh-ed25519 AAAA") deployKey
      = SSHKeyResource.updateModelFromSSHKey (keyPlan "deploy" "ssh-ed25519 AAAA") key.
Proof.
  destruct (SSHKey_Read_after_Create
              (sampleEnv [] [] (λ _, Ok []) [deployKey])
              (keyPlan "deploy" "ssh-ed25519 AAAA") startWorld
              (SSHKeyResource.updateModelFromSSHKey
                 (keyPlan "deploy" "ssh-ed25519 AAAA") deployKey) eq_refl)
    as (key & Hlookup & Hst & _).
  exists key. split; assumption.
Defined.

(* --------------------------------------------------------------------- *)
(*  The labels of an order, fetch by fetch                                *)
(* --------------------------------------------------------------------- *)


(* --------------------------------------------------------------------- *)
(*  Create: the order comes before the polls                              *)
(* --------------------------------------------------------------------- *)

(** X18. Create queries the server list only after it has ordered. In what
    a run of Create adds to the trace, every query to the server list is
    newer than the order; a run that submits no order makes no query at
    all. *)
Theorem Create_polls_after_order E ctx data w :
  let run := BareMetalServerResource.Create E ctx data w in
  ∃ evs, trace run.2 = evs ++ trace w
    ∧ (calls_to SubmitOrder evs = 0%nat → calls_to ListServers evs = 0%nat)
    ∧ ∀ (i j : nat) t t' req,
        evs !! i = Some (EvCall t GET_servers) →
        evs !! j = Some (EvCall t' (POST_order req)) →
        (i < j)%nat.
Proof.
  cbv zeta. destruct (Create_shape E ctx data w) as (evs & Htrace & Hshape).
  exists evs. split; [exact Htrace |].
  destruct Hshape as [(Hval & _)
                     |(req0 & w0 & before & after & _ & Hbefore & Hafter & -> & _)].
  - split.
    + intros _. apply calls_to_none. eapply Forall_impl; [exact Hval |].
      intros e [_ Hq]. exact Hq.
    + intros i j t t' req _ Hj. exfalso.
      apply (no_order_not_in evs t' req (validating_no_order _ Hval)).
      eapply list_elem_of_lookup_2, Hj.
  - split.
    + rewrite (calls_to_order_shape before after (now w0) req0 Hbefore Hafter).
      discriminate.
    + intros i j t t' req Hi Hj.
      assert (j = length after) as ->.
      { apply lookup_app_Some in Hj as [Hj|[Hlen Hj]].
        - exfalso. apply (no_order_not_in after t' req Hafter).
          eapply list_elem_of_lookup_2, Hj.
        - destruct (j - length after)%nat as [|k] eqn:Hk; [lia |].
          simpl in Hj. exfalso.
          apply (no_order_not_in before t' req (validating_no_order _ Hbefore)).
          eapply list_elem_of_lookup_2, Hj. }
      apply lookup_app_Some in Hi as [Hi|[Hlen Hi]].
      * eapply lookup_lt_Some, Hi.
      * exfalso. destruct (i - length after)%nat as [|k]; [discriminate Hi |].
        simpl in Hi. rewrite Forall_forall in Hbefore.
        assert (EvCall t GET_servers ∈ before) as Hin
          by (eapply list_elem_of_lookup_2, Hi).
        destruct (Hbefore _ Hin) as [_ Hq]. discriminate Hq.
Qed.

(* Witness of X18: in the Create of the example the last query is the
   newest event and the order the twelfth. *)
Lemma Create_polls_after_order_witness :
  (0 < 11)%nat
  ∧ calls_to ListServers
      (trace (BareMetalServerResource.Create
                (sampleEnv [] [] serversAfter3 []) neverCancelled
                (samplePlan "c1.small" "NYC1" Null) startWorld).2) = 0%nat.
Proof.
  split.
  - destruct (Create_polls_after_order
                (sampleEnv stockedInventory [500] serversAfter3 [deployKey]) neverCancelled
                (samplePlan "c1.small" "NYC1" (Known ["deploy"])) startWorld)
      as (evs & Htrace & _ & Horder).
    rewrite app_nil_r in Htrace. subst evs.
    apply (Horder 0%nat 11%nat 100000000000 3000000000 (sampleOrder [11]));
      vm_compute; reflexivity.
  - destruct (Create_polls_after_order
                (sampleEnv [] [] serversAfter3 []) neverCancelled
                (samplePlan "c1.small" "NYC1" Null) startWorld)
      as (evs & Htrace & Hnone & _).
    rewrite app_nil_r in Htrace. subst evs.
    apply Hnone. vm_compute. reflexivity.
Defined.

(* --------------------------------------------------------------------- *)
(*  Delete                                                                *)
(* --------------------------------------------------------------------- *)

Lemma checked_None what x :
  Transport.checked what x = None ↔ ∃ body, x = Transport.Reply 200 body.
Proof.
  unfold Transport.checked, Transport.http_StatusOK. destruct x as [err|err|status err|status body].
  - split; [discriminate | intros [b Hb]; discriminate].
  - split; [discriminate | intros [b Hb]; discriminate].
  - split; [discriminate | intros [b Hb]; discriminate].
  - destruct (decide (status ≠ 200)) as [Hne|Heq].
    + split; [discriminate | intros [b [= Hs _]]; contradiction].
    + split; [| reflexivity]. intros _. exists body. f_equal.
      destruct (decide (status = 200)); [assumption | contradiction].
Qed.

(** X19. The two Delete operations on the wire. Each makes exactly one
    request: a DELETE without body to the cancel path of the state's
    server id, or to the path of the state's key id in decimal, under the
    client's base URL and with the client's token in X-Api-Token, and
    without a Content-Type. Delete leaves no diagnostic exactly when the
    answer has status 200; every other outcome (a failed round trip, a
    body that cannot be read, any other status, 204 included) leaves one
    error. Two different key ids are never deleted at the same URL. *)
Theorem Delete_on_the_wire wire c log :
  (∀ data,
     let req := Transport.buildRequest c "DELETE"
                  ("/rest-api/servers/"
                   +:+ ValueString (BareMetalServerResourceModel.ID data) +:+ "/cancel")
                  None in
     let run := Transport.DeleteServer wire c data log in
     run.2 = req :: log
     ∧ (run.1 = [] ↔ ∃ body, wire (length log) req = Transport.Reply 200 body)
     ∧ (run.1 ≠ [] → HasError run.1 = true ∧ length run.1 = 1%nat))
  ∧ (∀ data,
       let req := Transport.buildRequest c "DELETE"
                    ("/rest-api/ssh-keys/"
                     +:+ fmt_d (ValueInt64 (SSHKeyResourceModel.ID data)))
                    None in
       let run := Transport.DeleteKey wire c data log in
       run.2 = req :: log
       ∧ (run.1 = [] ↔ ∃ body, wire (length log) req = Transport.Reply 200 body)
       ∧ (run.1 ≠ [] → HasError run.1 = true ∧ length run.1 = 1%nat))
  ∧ (∀ method endpoint,
       let req := Transport.buildRequest c method endpoint None in
       Transport.URL req = ICSProvider.ClientBaseURL c +:+ endpoint
       ∧ Transport.Header req !! "X-Api-Token" = Some (ICSProvider.ClientAPIToken c)
       ∧ Transport.Header req !! "Accept" = Some "application/json"
       ∧ Transport.Header req !! "Content-Type" = None)
  ∧ (∀ id1 id2,
       Transport.URL (Transport.buildRequest c "DELETE"
                        ("/rest-api/ssh-keys/" +:+ fmt_d id1) None)
       = Transport.URL (Transport.buildRequest c "DELETE"
                          ("/rest-api/ssh-keys/" +:+ fmt_d id2) None) →
       id1 = id2).
Proof.
  split; [| split; [| split]].
  - intros data. cbv zeta.
    unfold Transport.DeleteServer, Transport.CancelServer, Transport.makeRequest,
      mbind, Transport.T_bind, mret, Transport.T_ret.
    cbn [fst snd]. split; [reflexivity |].
    pose proof (checked_None "failed to cancel server: "
                  (wire (length log)
                     (Transport.buildRequest c "DELETE"
                        ("/rest-api/servers/"
                         +:+ ValueString (BareMetalServerResourceModel.ID data)
                         +:+ "/cancel") None))) as Hiff.
    destruct (Transport.checked _ _) as [err|].
    + split; [| intros _; split; reflexivity].
      split; [discriminate |]. intros Hbody. apply Hiff in Hbody. discriminate.
    + split; [| intros Hne; contradiction].
      split; [| reflexivity]. intros _. apply Hiff. reflexivity.
  - intros data. cbv zeta.
    unfold Transport.DeleteKey, Transport.DeleteSSHKey, Transport.makeRequest,
      mbind, Transport.T_bind, mret, Transport.T_ret.
    cbn [fst snd]. split; [reflexivity |].
    pose proof (checked_None "failed to delete SSH key: "
                  (wire (length log)
                     (Transport.buildRequest c "DELETE"
                        ("/rest-api/ssh-keys/"
                         +:+ fmt_d (ValueInt64 (SSHKeyResourceModel.ID data)))
                        None))) as Hiff.
    destruct (Transport.checked _ _) as [err|].
    + split; [| intros _; split; reflexivity].
      split; [discriminate |]. intros Hbody. apply Hiff in Hbody. discriminate.
    + split; [| intros Hne; contradiction].
      split; [| reflexivity]. intros _. apply Hiff. reflexivity.
  - intros method endpoint. cbv zeta. unfold Transport.buildRequest.
    cbn [Transport.URL Transport.Header]. split; [reflexivity |].
    split; [apply lookup_insert_eq |].
    split.
    + rewrite lookup_insert_ne by discriminate. apply lookup_insert_eq.
    + rewrite !lookup_insert_ne by discriminate. apply lookup_empty.
  - intros id1 id2. unfold Transport.buildRequest. cbn [Transport.URL].
    intros Heq. apply (inj (String.app (ICSProvider.ClientBaseURL c))) in Heq.
    apply (inj (String.app "/rest-api/ssh-keys/")) in Heq.
    unfold fmt_d in Heq. apply (inj pretty) in Heq. exact Heq.
Qed.

(* Witness of X19: a key deleted with the answer 204. *)
Lemma Delete_on_the_wire_witness :
  let run := Transport.DeleteKey (λ _ _, Transport.Reply 204 "")
               (ICSProvider.NewICSClient "token" "https://api.example")
               (SSHKeyResource.updateModelFromSSHKey
                  (keyPlan "deploy" "ssh-ed25519 AAAA") deployKey) [] in
  HasError run.1 = true ∧ length run.1 = 1%nat.
Proof.
  cbv zeta.
  destruct (Delete_on_the_wire (λ _ _, Transport.Reply 204 "")
              (ICSProvider.NewICSClient "token" "https://api.example") [])
    as (_ & Hkey & _).
  apply (Hkey (SSHKeyResource.updateModelFromSSHKey
                 (keyPlan "deploy" "ssh-ed25519 AAAA") deployKey)).
  discriminate.
Defined.

(** X20. Delete removes what Create found. After a server Create that
    stored state, Delete of that state cancels the server whose record the
    state was built from; after an SSH key Create that stored state,
    Delete of that state deletes the key that the lookup by label found in
    the fetched credential list, whatever identifier the creation call
    answered. *)
Theorem Delete_after_Create wire c log :
  (∀ E ctx data w st,
     State (BareMetalServerResource.Create E ctx data w).1 = Some st →
     ∃ server,
       st = BareMetalServerResource.updateModelFromServer data server
       ∧ (Transport.DeleteServer wire c st log).2
         = Transport.buildRequest c "DELETE"
             ("/rest-api/servers/" +:+ Server.ID server +:+ "/cancel") None :: log)
  ∧ (∀ E data w st,
       State (SSHKeyResource.Create E data w).1 = Some st →
       ∃ key,
         ssh_key_lookup E (ValueString (SSHKeyResourceModel.Label data)) (lookups w)
           = Some key
         ∧ (Transport.DeleteKey wire c st log).2
           = Transport.buildRequest c "DELETE"
               ("/rest-api/ssh-keys/" +:+ fmt_d (SSHKey.ID key)) None :: log).
Proof.
  split.
  - intros E ctx data w st Hst.
    destruct (Create_State E ctx data w st Hst) as [server ->].
    exists server. split; reflexivity.
  - intros E data w st Hst.
    destruct (SSHKey_created_state E data w st Hst) as (key & Hlookup & ->).
    exists key. split; [exact Hlookup | reflexivity].
Qed.

(* Witness of X20: the label deploy is taken by an older key, the
   creation call answers identifier 1, and Delete goes for key 7. *)
Lemma Delete_after_Create_witness :
  ∃ key,
    ssh_key_lookup
      (sampleEnv [] [] (λ _, Ok [])
         [sampleKey 7 "deploy" "ssh-rsa OLD"; sampleKey 8 "deploy" "ssh-ed25519 NEW"])
      "deploy" (lookups startWorld) = Some key
    ∧ (Transport.DeleteKey (λ _ _, Transport.Reply 200 "")
         (ICSProvider.NewICSClient "token" "https://api.example")
         (SSHKeyResource.updateModelFromSSHKey (keyPlan "deploy" "ssh-ed25519 NEW")
            (sampleKey 7 "deploy" "ssh-rsa OLD")) []).2
      = [Transport.buildRequest (ICSProvider.NewICSClient "token" "https://api.example")
           "DELETE" ("/rest-api/ssh-keys/" +:+ fmt_d (SSHKey.ID key)) None].
Proof.
  destruct (Delete_after_Create (λ _ _, Transport.Reply 200 "")
              (ICSProvider.NewICSClient "token" "https://api.example") [])
    as [_ Hkey].
  apply (Hkey (sampleEnv [] [] (λ _, Ok [])
                 [sampleKey 7 "deploy" "ssh-rsa OLD"; sampleKey 8 "deploy" "ssh-ed25519 NEW"])
           (keyPlan "deploy" "ssh-ed25519 NEW") startWorld).
  reflexivity.
Defined.

(* --------------------------------------------------------------------- *)
(*  State and errors, operation by operation                              *)
(* --------------------------------------------------------------------- *)

(* Read by what its query shows. *)
Lemma Read_cases E data w :
  let serviceID := ValueInt64 (BareMetalServerResourceModel.ServiceID data) in
  let run := BareMetalServerResource.Read E data w in
  run.2 = requested E GET_servers w
  ∧ match poll_result E serviceID (queries w) with
    | Some server =>
        run.1 = {| Diagnostics := [];
                   State := Some (BareMetalServerResource.updateModelFromServer
                                    data server) |}
    | None =>
        ∃ err, run.1 = failed [ErrorDiagnostic "Client Error"
                                 ("Unable to read server with service ID "
                                  +:+ fmt_d serviceID +:+ ", got error: " +:+ err)]
    end.
Proof.
  cbv zeta. unfold BareMetalServerResource.Read, mbind, M_bind.
  rewrite GetServerByServiceID_run. unfold poll_result.
  destruct (servers_at E (queries w)) as [servers|err].
  - destruct (scanServers servers _); cbn [fst snd mret M_ret];
      (split; [reflexivity |]); [reflexivity | eauto].
  - cbn [fst snd mret M_ret]. split; [reflexivity | eauto].
Qed.

(** X21. Besides Create, every operation stores state exactly when it
    reports no error: in the response of the server's Read, Update and
    ImportState, of the SSH key's Create, Read, Update and ImportState and
    of the Read of the two data sources, there is a state if and only if
    no diagnostic is an error (for the server's ImportState, whose model
    State.Set refuses, both sides hold in every run). The server's Read
    stores state exactly when the fetched list shows a server with the
    state's service identifier, and issues one query for it. *)
Theorem state_iff_no_error E w :
  (∀ data,
     let run := BareMetalServerResource.Read E data w in
     (State run.1 = None ↔ HasError (Diagnostics run.1) = true)
     ∧ (State run.1 = None ↔
        poll_result E (ValueInt64 (BareMetalServerResourceModel.ServiceID data))
          (queries w) = None)
     ∧ queries run.2 = S (queries w))
  ∧ (∀ plan state,
       let run := BareMetalServerLifecycle.Update E plan state w in
       State run.1 = None ↔ HasError (Diagnostics run.1) = true)
  ∧ (∀ id,
       let run := BareMetalServerLifecycle.ImportState E id w in
       State run.1 = None ↔ HasError (Diagnostics run.1) = true)
  ∧ (∀ data,
       let run := SSHKeyResource.Create E data w in
       State run.1 = None ↔ HasError (Diagnostics run.1) = true)
  ∧ (∀ data,
       let run := SSHKeyLifecycle.Read E data w in
       State run.1 = None ↔ HasError (Diagnostics run.1) = true)
  ∧ (∀ data,
       let run := SSHKeyLifecycle.Update data w in
       run.2 = w ∧ State run.1 = Some data ∧ HasError (Diagnostics run.1) = false)
  ∧ (∀ label,
       let run := SSHKeyLifecycle.ImportState E label w in
       State run.1 = None ↔ HasError (Diagnostics run.1) = true)
  ∧ (let run := InventoryDataSource.Read E w in
     State run.1 = None ↔ HasError (Diagnostics run.1) = true)
  ∧ (∀ data,
       let run := OperatingSystemsDataSource.Read E data w in
       State run.1 = None ↔ HasError (Diagnostics run.1) = true).
Proof.
  split; [| split; [| split; [| split; [| split; [| split; [| split; [| split]]]]]]].
  - intros data. cbv zeta.
    destruct (Read_cases E data w) as [Hw Hcases]. cbv zeta in Hw, Hcases.
    rewrite Hw, requested_queries.
    destruct (poll_result E _ (queries w)) as [server|].
    + rewrite Hcases. cbn. repeat split; discriminate.
    + destruct Hcases as [err ->]. cbn. repeat split; reflexivity.
  - intros plan state. cbv zeta.
    unfold BareMetalServerLifecycle.Update, mbind, M_bind.
    destruct (negb _ && negb _); [rewrite UpdateServerFriendlyName_run |];
      cbn [mret M_ret].
    + destruct (friendly_name_at E _ _ _); [split; reflexivity |].
      cbn. destruct (BareMetalServerLifecycle.requiresReplacement plan state);
        split; discriminate.
    + cbn. destruct (BareMetalServerLifecycle.requiresReplacement plan state);
        split; discriminate.
  - intros id. cbv zeta. unfold BareMetalServerLifecycle.ImportState.
    destruct (strconv_Atoi id); [| split; reflexivity]. unfold mbind, M_bind.
    destruct (GetServerByServiceID E _ w) as [[server|err] w1]; cbn;
      split; reflexivity.
  - intros data. cbv zeta.
    pose proof (SSHKeyResource_Create_run E data w) as Hrun. cbv zeta in Hrun.
    rewrite Hrun. destruct (ssh_create_at E _ _); [| split; reflexivity].
    cbn [fst]. destruct (GetSSHKeyByLabel E _ _).1; split; (discriminate || reflexivity).
  - intros data. cbv zeta. unfold SSHKeyLifecycle.Read, mbind, M_bind.
    destruct (GetSSHKeyByLabel E _ w) as [[key|err] w1]; cbn;
      split; (discriminate || reflexivity).
  - intros data. cbv zeta. repeat split.
  - intros label. cbv zeta. unfold SSHKeyLifecycle.ImportState, mbind, M_bind.
    destruct (GetSSHKeyByLabel E _ w) as [[key|err] w1]; cbn;
      split; (discriminate || reflexivity).
  - cbv zeta. unfold InventoryDataSource.Read, mbind, M_bind. rewrite GetInventory_run.
    destruct (inventory_at E _); cbn; split; (discriminate || reflexivity).
  - intros data. cbv zeta.
    unfold OperatingSystemsDataSource.Read, mbind, M_bind. rewrite GetAddons_run.
    destruct (addons_at E _ _ _); cbn; split; (discriminate || reflexivity).
Qed.

(* Witness of X21: a Read of a state whose server the list does not show. *)
Lemma state_iff_no_error_witness :
  let run := BareMetalServerResource.Read
               (sampleEnv [] [] (λ _, Ok [sampleServer "srv-1" 7]) [])
               (namedModel (Known "c1.small") Null Null (Known "srv-2") (Known 500))
               startWorld in
  State run.1 = None ∧ HasError (Diagnostics run.1) = true.
Proof.
  cbv zeta.
  destruct (state_iff_no_error (sampleEnv [] [] (λ _, Ok [sampleServer "srv-1" 7]) [])
              startWorld) as [Hread _].
  destruct (Hread (namedModel (Known "c1.small") Null Null (Known "srv-2") (Known 500)))
    as (Herr & Hfound & _).
  assert (State (BareMetalServerResource.Read
                   (sampleEnv [] [] (λ _, Ok [sampleServer "srv-1" 7]) [])
                   (namedModel (Known "c1.small") Null Null (Known "srv-2") (Known 500))
                   startWorld).1 = None) as Hnone
    by (apply Hfound; reflexivity).
  split; [exact Hnone | apply Herr, Hnone].
Defined.
